(** * shamo: the finite element model class [FEM] (src/shamo/core/fem/fem.py)

    A shallow embedding of the methods of [FEM] that build the mesh, tag the
    tissues, place point sensors and inject fields, with the properties of
    the specification stated and settled on it.

    Conventions of the embedding:
    - Python exceptions are values of [exn]; a method is a computation in the
      state-and-exception monad [M], so that what a failed call leaves behind
      (registry, files, open gmsh session) can be read off the final state;
    - floating point numbers are an abstract type [F] with the operations the
      code uses; nothing is assumed of them except where a theorem says so;
    - numpy arrays are [ndarray]s (shape and flat C-order data) or, where the
      code only uses them as vectors or as rows, lists;
    - gmsh, numpy, scipy, nibabel, nilearn and pygalmesh are not part of the
      repository: their functions are modelled on their documented behaviour
      or taken as parameters, and each says so;
    - the writes to disk ([gmsh.write], [gmsh.view.write], [self.save()]) are
      modelled as they go when they succeed. A write that fails is outside
      the model: a theorem that speaks of every call that raises states
      only what holds wherever the call stops, a failed write included. *)

From Stdlib Require Import ZArith List String QArith Bool Lia.
From stdpp Require Import base gmap strings list.
Import ListNotations.

(** ** Exceptions and results *)

Inductive exn : Type :=
| TypeError (msg : string)
| ValueError (msg : string)
| KeyError (msg : string)
| NameError (msg : string)
| AttributeError (msg : string)
| IndexError (msg : string)
| ZeroDivisionError (msg : string)
| UnboundLocalError (msg : string)
| GmshError (msg : string)
| FileNotFoundError (msg : string).

Inductive result (A : Type) : Type :=
| Ok (a : A)
| Raise (e : exn).
Arguments Ok {A} a.
Arguments Raise {A} e.

Definition rbind {A B : Type} (r : result A) (k : A -> result B) : result B :=
  match r with
  | Ok a => k a
  | Raise e => Raise e
  end.

Declare Scope result_scope.
Delimit Scope result_scope with res.
Notation "x <- r ;; k" := (rbind r (fun x => k))
  (at level 100, r at level 99, k at level 200, right associativity)
  : result_scope.
Local Open Scope result_scope.

Definition is_Ok {A : Type} (r : result A) : bool :=
  match r with Ok _ => true | Raise _ => false end.

(** ** numpy arrays *)

Record ndarray (A : Type) : Type := mk_ndarray {
  shape : list nat;
  data : list A          (* the elements in C order; [length data] is [size] *)
}.
Arguments mk_ndarray {A} shape data.
Arguments shape {A} n.
Arguments data {A} n.

Definition ndim {A : Type} (a : ndarray A) : nat := length (shape a).
Definition size {A : Type} (a : ndarray A) : nat := length (data a).

(** [a.astype(np.uint8)] and [a.astype(np.uint16)] on an integer array:
    numpy converts between integer types by keeping the low bits. *)
Definition astype_uint8 (a : ndarray Z) : ndarray Z :=
  mk_ndarray (shape a) (map (fun v => v mod 256)%Z (data a)).

Definition astype_uint16 (a : ndarray Z) : ndarray Z :=
  mk_ndarray (shape a) (map (fun v => v mod 65536)%Z (data a)).

(** [np.max(a)]: the largest element; numpy refuses an empty array. *)
Definition np_max (a : ndarray Z) : result Z :=
  match data a with
  | [] => Raise (ValueError
      "zero-size array to reduction operation maximum which has no identity")
  | x :: l => Ok (fold_left Z.max l x)
  end.

(** [a.reshape((-1, n))]: rows of [n] consecutive elements. *)
Fixpoint chunks {A : Type} (fuel n : nat) (l : list A) : result (list (list A)) :=
  match l with
  | [] => Ok []
  | _ :: _ =>
      match fuel with
      | O => Raise (ValueError "cannot reshape array")
      | S fuel' =>
          if (length l <? n)%nat
          then Raise (ValueError "cannot reshape array")
          else rows <- chunks fuel' n (skipn n l) ;;
               Ok (firstn n l :: rows)
      end
  end.

Definition reshape_rows {A : Type} (n : nat) (l : list A) : result (list (list A)) :=
  match n with
  | O => match l with
         | [] => Ok []
         | _ :: _ => Raise (ValueError "cannot reshape array")
         end
  | S _ => chunks (length l) n l
  end.

(** [np.isin(all, tags, assume_unique=True, invert=True)]: for every element
    of [all], whether it is absent from [tags]. *)
Definition isin_invert (all tags : list Z) : list bool :=
  map (fun t => negb (existsb (Z.eqb t) tags)) all.

(** [np.any(mask)] and boolean-mask indexing [a[mask]]. *)
Definition np_any (mask : list bool) : bool := existsb (fun b => b) mask.

Fixpoint mask_select {A : Type} (a : list A) (mask : list bool) : list A :=
  match a, mask with
  | x :: a', b :: mask' =>
      if b then x :: mask_select a' mask' else mask_select a' mask'
  | _, _ => []
  end.

(** [np.broadcast_to(v, (1, m)).ravel()] for a 1-D [v]: numpy's broadcasting
    rule accepts a trailing axis of length [m] or of length 1 and nothing
    else. *)
Definition broadcast_to_row {A : Type} (v : list A) (m : nat) : result (list A) :=
  if (length v =? m)%nat then Ok v
  else match v with
       | [x] => Ok (repeat x m)
       | _ => Raise (ValueError
           "operands could not be broadcast together with remapped shapes")
       end.

(** What Python sees of the value of [np.nonzero(mask)]: a tuple of index
    arrays, one per axis. Only arrays have a [size] attribute. *)
Inductive pyval : Type :=
| PyArray (a : list nat)
| PyTuple (items : list (list nat)).

Fixpoint mask_indices (i : nat) (mask : list bool) : list nat :=
  match mask with
  | [] => []
  | b :: mask' =>
      if b then i :: mask_indices (S i) mask' else mask_indices (S i) mask'
  end.

Definition np_nonzero (mask : list bool) : pyval :=
  PyTuple [mask_indices 0 mask].

Definition attr_size (v : pyval) : result nat :=
  match v with
  | PyArray a => Ok (length a)
  | PyTuple _ => Raise (AttributeError "'tuple' object has no attribute 'size'")
  end.

(** ** The records of the data model *)

(** Modelled from the spec: the class [Group] of shamo.core.fem is not among
    the sources. A geometric tag: a dimensionality, an ordered sequence of
    mesh-entity identifiers and a physical-group identifier, built as
    [Group(dim, entities, group)]. *)
Record Group : Type := mk_Group {
  group_dim : Z;
  entities : list Z;
  group : Z
}.

(** Modelled from the spec: the class [Field] of shamo.core.fem is not among
    the sources. A type tag, the mesh view holding the data and a formula,
    built as [Field(field_type, view, formula)]. *)
Inductive FieldType : Type := SCALAR | VECTOR | TENSOR.

Record Field : Type := mk_Field {
  field_type : FieldType;
  view : Z;
  formula : string
}.

(** Modelled from the spec: the class [Tissue] of shamo.core.fem is not among
    the sources. Two groups (surface and volume) and a mapping from field
    name to [Field], built as [Tissue(surf, vol)] with no field. *)
Record Tissue : Type := mk_Tissue {
  surf : Group;
  vol : Group;
  fields : gmap string Field
}.

Definition new_Tissue (s v : Group) : Tissue := mk_Tissue s v ∅.

Definition set_field (name : string) (f : Field) (t : Tissue) : Tissue :=
  mk_Tissue (surf t) (vol t) (<[name := f]> (fields t)).

(** The calls of the collaborators that the model records, in order. *)
Inductive event : Type :=
| EvInitialize
| EvOpen
| EvMerge
| EvWrite
| EvViewWrite
| EvFinalize
| EvNiiWrite
| EvSave.

(** ** Floating point numbers

    The operations of Python floats that the code uses. *)
Class Float : Type := {
  F : Type;
  fadd : F -> F -> F;
  fsub : F -> F -> F;
  fmul : F -> F -> F;
  fsqrt : F -> F;
  flt : F -> F -> bool;        (* [<] *)
  of_Z : Z -> F;               (* an integer literal or index as a float *)
  milli : F                    (* the literal [1e-3] *)
}.

(** Floats without NaN: [<] is a strict weak order (irreflexive, transitive,
    and so is "not below"). *)
Definition no_nan {fl : Float} : Prop :=
  (forall a : F, flt a a = false)
  /\ (forall a b c : F, flt a b = true -> flt b c = true -> flt a c = true)
  /\ (forall a b c : F, flt a b = false -> flt b c = false -> flt a c = false).

(** ** The model *)

Section FEM.

Context {fl : Float}.

Definition matrix : Type := list (list F).

(** *** numpy and scipy on floats *)

(** [scipy.spatial.distance.cdist([u], rows)] with the default Euclidean
    metric: the square root of the sum of the squared differences. *)
Definition euclidean (u v : list F) : F :=
  fsqrt (fold_left (fun acc p => fadd acc (fmul (fsub (fst p) (snd p))
                                                (fsub (fst p) (snd p))))
                   (combine u v) (of_Z 0)).

Definition cdist (u : list F) (cols : nat) (rows : list (list F)) : result (list F) :=
  if (length u =? cols)%nat
  then Ok (map (euclidean u) rows)
  else Raise (ValueError "XA and XB must have the same number of columns")%string.

(** [np.argmin]: the index of the first occurrence of the minimum. *)
Fixpoint argmin_from (best_i : nat) (best : F) (i : nat) (l : list F) : nat :=
  match l with
  | [] => best_i
  | x :: l' =>
      if flt x best
      then argmin_from i x (S i) l'
      else argmin_from best_i best (S i) l'
  end.

Definition np_argmin (l : list F) : result nat :=
  match l with
  | [] => Raise (ValueError "attempt to get argmin of an empty sequence")
  | x :: l' => Ok (argmin_from 0 x 1 l')
  end.

(** [i] is the first index of the minimum of [d]. *)
Definition first_argmin (d : list F) (i : nat) : Prop :=
  exists x, d !! i = Some x
    /\ (forall j y, d !! j = Some y -> flt y x = false)
    /\ (forall j y, (j < i)%nat -> d !! j = Some y -> flt x y = true).

(** *** The gmsh model: what the mesh backend holds or a mesh file stores *)

Record PhysicalGroup : Type := mk_PhysicalGroup {
  pg_dim : Z;
  pg_tag : Z;
  pg_entities : list Z
}.

Record View : Type := mk_View {
  view_tag : Z;
  view_name : string;
  view_tags : list Z;              (* the element tags of the model data *)
  view_rows : list (list F)        (* one row of values per element *)
}.

Record gmsh_model : Type := mk_gmsh_model {
  g_entities : list (Z * Z);                      (* (dim, tag) *)
  g_nodes : gmap (Z * Z) (list Z * list F);
    (* per entity, what [getNodes(dim, tag, True)] returns: the node tags
       and their x, y, z, concatenated *)
  g_elems : gmap (Z * Z) (list Z * list F);
    (* per entity, the tags of its elements (triangles on a surface,
       tetrahedra in a volume) and their barycenters, concatenated *)
  g_points : list (Z * Z);                        (* point elements: (entity, node) *)
  g_groups : list PhysicalGroup;
  g_names : gmap (Z * Z) string;                  (* physical names *)
  g_views : list View
}.

Definition empty_model : gmsh_model := mk_gmsh_model [] ∅ ∅ [] [] ∅ [].

Definition set_groups (gs : list PhysicalGroup) (g : gmsh_model) : gmsh_model :=
  mk_gmsh_model (g_entities g) (g_nodes g) (g_elems g) (g_points g) gs
                (g_names g) (g_views g).

Definition set_names (ns : gmap (Z * Z) string) (g : gmsh_model) : gmsh_model :=
  mk_gmsh_model (g_entities g) (g_nodes g) (g_elems g) (g_points g)
                (g_groups g) ns (g_views g).

Definition set_entities (es : list (Z * Z)) (g : gmsh_model) : gmsh_model :=
  mk_gmsh_model es (g_nodes g) (g_elems g) (g_points g) (g_groups g)
                (g_names g) (g_views g).

Definition set_nodes (ns : gmap (Z * Z) (list Z * list F)) (g : gmsh_model)
  : gmsh_model :=
  mk_gmsh_model (g_entities g) ns (g_elems g) (g_points g) (g_groups g)
                (g_names g) (g_views g).

Definition set_points (ps : list (Z * Z)) (g : gmsh_model) : gmsh_model :=
  mk_gmsh_model (g_entities g) (g_nodes g) (g_elems g) ps (g_groups g)
                (g_names g) (g_views g).

Definition set_views (vs : list View) (g : gmsh_model) : gmsh_model :=
  mk_gmsh_model (g_entities g) (g_nodes g) (g_elems g) (g_points g)
                (g_groups g) (g_names g) vs.

Inductive interp_method : Type := nearest | linear.

(** The collaborators that are taken as they are:
    - [Kw], the keyword arguments handed to the mesher, kept verbatim;
    - [merge_duplicates], what [gmsh.model.mesh.removeDuplicateNodes()] does
      to the nodes (it acts on nothing else);
    - [crop_img], nilearn's cropping of an image (data and affine);
    - [generate_from_array], the mesh CGAL generates from the labels, as
      gmsh reads it back from the Medit file;
    - [plugin_transform], gmsh's Transform plugin;
    - [interpolate_at], the value scipy's regular grid interpolator computes
      at a point (nearest grid point or multilinear interpolation): a row of
      as many numbers as the values array has per grid point;
    - [nib_load], nibabel's loading of an image file (data and affine). *)
Class Backend : Type := {
  Kw : Type;
  merge_duplicates :
    gmap (Z * Z) (list Z * list F) -> gmap (Z * Z) (list Z * list F);
  crop_img : ndarray Z * matrix -> ndarray Z * matrix;
  generate_from_array : ndarray Z -> Kw -> gmsh_model;
  plugin_transform : matrix -> gmsh_model -> gmsh_model;
  interpolate_at :
    interp_method -> list (list F) -> ndarray F -> list F -> list F;
  nib_load : string -> option (ndarray F * matrix)
}.

Context {bk : Backend}.

(** Modelled from the spec: the class [PointSensor] of shamo.core.fem is not
    among the sources. The owning tissue, the requested coordinates (meters),
    the coordinates of the node it snapped to, a 0-dimensional group
    wrapping the point entity and the node identifier, built as
    [PointSensor(tissue, coords, mesh_coords, group, node_tag)]. *)
Record PointSensor : Type := mk_PointSensor {
  ps_tissue : string;
  ps_coords : list F;
  ps_mesh_coords : list F;
  ps_group : Group;
  ps_node_tag : Z
}.

(** *** The state: the model object, its files and the gmsh session

    gmsh is process-global: [session] is [None] until [gmsh.initialize()] and
    after [gmsh.finalize()]. The temporary directory of [mesh_from_array]
    holds two files. *)
Record state : Type := mk_state {
  tissues : gmap string Tissue;                 (* self["tissues"] *)
  sensors : gmap string PointSensor;            (* self["sensors"] *)
  mesh_params : option Kw;                      (* self["mesh_params"] *)
  nii_file : option (ndarray Z * matrix);       (* self.nii_path *)
  mesh_file : option gmsh_model;                (* self.mesh_path *)
  tmp_mesh : option gmsh_model;                 (* tmp_dir/init_mesh.mesh *)
  tmp_msh : option gmsh_model;                  (* tmp_dir/init_mesh.msh *)
  session : option gmsh_model;
  trace : list event
}.

Definition set_tissues (x : gmap string Tissue) (s : state) : state :=
  mk_state x (sensors s) (mesh_params s) (nii_file s) (mesh_file s)
           (tmp_mesh s) (tmp_msh s) (session s) (trace s).
Definition set_sensors (x : gmap string PointSensor) (s : state) : state :=
  mk_state (tissues s) x (mesh_params s) (nii_file s) (mesh_file s)
           (tmp_mesh s) (tmp_msh s) (session s) (trace s).
Definition set_mesh_params (x : option Kw) (s : state) : state :=
  mk_state (tissues s) (sensors s) x (nii_file s) (mesh_file s)
           (tmp_mesh s) (tmp_msh s) (session s) (trace s).
Definition set_nii_file (x : option (ndarray Z * matrix)) (s : state) : state :=
  mk_state (tissues s) (sensors s) (mesh_params s) x (mesh_file s)
           (tmp_mesh s) (tmp_msh s) (session s) (trace s).
Definition set_mesh_file (x : option gmsh_model) (s : state) : state :=
  mk_state (tissues s) (sensors s) (mesh_params s) (nii_file s) x
           (tmp_mesh s) (tmp_msh s) (session s) (trace s).
Definition set_tmp_mesh (x : option gmsh_model) (s : state) : state :=
  mk_state (tissues s) (sensors s) (mesh_params s) (nii_file s) (mesh_file s)
           x (tmp_msh s) (session s) (trace s).
Definition set_tmp_msh (x : option gmsh_model) (s : state) : state :=
  mk_state (tissues s) (sensors s) (mesh_params s) (nii_file s) (mesh_file s)
           (tmp_mesh s) x (session s) (trace s).
Definition set_session (x : option gmsh_model) (s : state) : state :=
  mk_state (tissues s) (sensors s) (mesh_params s) (nii_file s) (mesh_file s)
           (tmp_mesh s) (tmp_msh s) x (trace s).
Definition log (e : event) (s : state) : state :=
  mk_state (tissues s) (sensors s) (mesh_params s) (nii_file s) (mesh_file s)
           (tmp_mesh s) (tmp_msh s) (session s) (trace s ++ [e]).

(** *** The state-and-exception monad *)

Definition M (A : Type) : Type := state -> result A * state.

Definition ret {A : Type} (a : A) : M A := fun s => (Ok a, s).
Definition raise {A : Type} (e : exn) : M A := fun s => (Raise e, s).
Definition bind {A B : Type} (m : M A) (k : A -> M B) : M B :=
  fun s => match m s with
           | (Ok a, s') => k a s'
           | (Raise e, s') => (Raise e, s')
           end.
Definition lift {A : Type} (r : result A) : M A := fun s => (r, s).
Definition get : M state := fun s => (Ok s, s).
Definition modify (f : state -> state) : M unit := fun s => (Ok tt, f s).

(** A computation that leaves the state as it found it. *)
Definition readonly {A : Type} (m : M A) : Prop := forall s, snd (m s) = s.

Declare Scope fem_scope.
Notation "x <- m ;; k" := (bind m (fun x => k))
  (at level 100, m at level 99, k at level 200, right associativity)
  : fem_scope.
Local Open Scope fem_scope.

(** *** The gmsh API, on the session *)

Definition the_model : M gmsh_model :=
  fun s => match session s with
           | Some g => (Ok g, s)
           | None => (Raise (GmshError "Gmsh has not been initialized"), s)
           end.

Definition put_model (g : gmsh_model) : M unit := modify (set_session (Some g)).

Definition gmsh_initialize : M unit :=
  modify (fun s => set_session (Some empty_model) (log EvInitialize s)).

Definition gmsh_finalize : M unit :=
  _ <- the_model ;;
  modify (fun s => set_session None (log EvFinalize s)).

(** [gmsh.open(str(self.mesh_path))]: the session holds the file's model. *)
Definition gmsh_open_mesh_path : M unit :=
  _ <- the_model ;;
  s <- get ;;
  match mesh_file s with
  | Some g => modify (fun s => set_session (Some g) (log EvOpen s))
  | None => raise (GmshError "Cannot open the mesh file")
  end.

(** [gmsh.write(str(self.mesh_path))], when it succeeds. *)
Definition gmsh_write_mesh_path : M unit :=
  g <- the_model ;;
  modify (fun s => set_mesh_file (Some g) (log EvWrite s)).

(** [gmsh.model.addPhysicalGroup(dim, tags, tag=-1)]: returns [tag], or a
    new tag when [tag < 0]; gmsh numbers physical groups per dimension, one
    past the largest tag in use there, and refuses a tag already in use in
    that dimension. *)
Definition max_physical_tag (dim : Z) (gs : list PhysicalGroup) : Z :=
  fold_left Z.max
            (map pg_tag (List.filter (fun p => Z.eqb (pg_dim p) dim) gs)) 0%Z.

Definition has_physical (dim tag : Z) (gs : list PhysicalGroup) : bool :=
  existsb (fun p => Z.eqb (pg_dim p) dim && Z.eqb (pg_tag p) tag) gs.

Definition addPhysicalGroup (dim : Z) (tags : list Z) (tag : Z) : M Z :=
  g <- the_model ;;
  let out := if (tag <? 0)%Z
             then (max_physical_tag dim (g_groups g) + 1)%Z
             else tag in
  if has_physical dim out (g_groups g)
  then raise (GmshError "Physical group already exists")
  else
    _ <- put_model (set_groups (g_groups g ++ [mk_PhysicalGroup dim out tags]) g) ;;
    ret out.

Definition setPhysicalName (dim tag : Z) (name : string) : M unit :=
  g <- the_model ;;
  put_model (set_names (<[(dim, tag) := name]> (g_names g)) g).

(** [gmsh.model.getPhysicalGroups(-1)]: the (dim, tag) pairs of all groups. *)
Definition getPhysicalGroups : M (list (Z * Z)) :=
  g <- the_model ;;
  ret (map (fun p => (pg_dim p, pg_tag p)) (g_groups g)).

(** [gmsh.model.addDiscreteEntity(dim)]: a new entity, tagged one past the
    largest tag of its dimension. *)
Definition max_entity_tag (dim : Z) (es : list (Z * Z)) : Z :=
  fold_left Z.max (map snd (List.filter (fun e => Z.eqb (fst e) dim) es)) 0%Z.

Definition addDiscreteEntity (dim : Z) : M Z :=
  g <- the_model ;;
  let tag := (max_entity_tag dim (g_entities g) + 1)%Z in
  _ <- put_model (set_entities (g_entities g ++ [(dim, tag)]) g) ;;
  ret tag.

(** [gmsh.model.mesh.getNodes(dim, tag, True)[:2]]. *)
Definition getNodes (dim tag : Z) : M (list Z * list F) :=
  g <- the_model ;;
  match g_nodes g !! (dim, tag) with
  | Some n => ret n
  | None => raise (GmshError "Entity does not exist")
  end.

(** [gmsh.model.mesh.addNodes(dim, tag, nodeTags, coord)]. *)
Definition addNodes (dim tag : Z) (nodeTags : list Z) (coord : list F) : M unit :=
  g <- the_model ;;
  let old := default ([], []) (g_nodes g !! (dim, tag)) in
  put_model (set_nodes (<[(dim, tag) := (fst old ++ nodeTags, snd old ++ coord)]>
                          (g_nodes g)) g).

(** [gmsh.model.mesh.addElementsByType(tag, 15, [], [node])]: a point
    element on the entity; its automatic tag is of no use to the code. *)
Definition addPointElement (tag node : Z) : M unit :=
  g <- the_model ;;
  put_model (set_points (g_points g ++ [(tag, node)]) g).

(** [gmsh.model.mesh.removeDuplicateNodes()]. *)
Definition removeDuplicateNodes : M unit :=
  g <- the_model ;;
  put_model (set_nodes (merge_duplicates (g_nodes g)) g).

(** *** Tissues *)

(** [FEM._add_tissues]: the loop over [enumerate(tissues)], [l] being the
    index reached. *)
Fixpoint _add_tissues_loop (l : Z) (ts : list string) : M unit :=
  match ts with
  | [] => ret tt
  | t :: ts' =>
      let entity := (l + 1)%Z in
      surf_group <- addPhysicalGroup 2 [entity] (-1) ;;
      _ <- setPhysicalName 2 surf_group t ;;
      vol_group <- addPhysicalGroup 3 [entity] (-1) ;;
      _ <- setPhysicalName 3 vol_group t ;;
      _ <- modify (fun s =>
             set_tissues (<[t := new_Tissue (mk_Group 2 [entity] surf_group)
                                            (mk_Group 3 [entity] vol_group)]>
                            (tissues s)) s) ;;
      _add_tissues_loop (l + 1) ts'
  end.

(** [gmsh.merge(str(Path(tmp_dir) / "init_mesh.msh"))] into the empty model
    of a fresh session. *)
Definition gmsh_merge_tmp_msh : M unit :=
  _ <- the_model ;;
  s <- get ;;
  match tmp_msh s with
  | Some g => modify (fun s => set_session (Some g) (log EvMerge s))
  | None => raise (GmshError "Cannot open the mesh file")
  end.

Definition _add_tissues (ts : list string) : M unit :=
  _ <- gmsh_initialize ;;
  _ <- gmsh_merge_tmp_msh ;;
  _ <- _add_tissues_loop 0 ts ;;
  _ <- gmsh_write_mesh_path ;;
  gmsh_finalize.

(** What tissue tagging is to achieve for the name [t] at index [l] (from
    0) of the sequence: the registry holds for [t] a tissue whose surface and
    volume groups wrap the single entity [l + 1], and the mesh file has those
    two physical groups, of dimensions 2 and 3, named [t]. *)
Definition tagged_at (s' : state) (l : nat) (t : string) : Prop :=
  exists (sg vg : Z) (g' : gmsh_model),
    let entity := (Z.of_nat l + 1)%Z in
    tissues s' !! t = Some (new_Tissue (mk_Group 2 [entity] sg)
                                       (mk_Group 3 [entity] vg))
    /\ mesh_file s' = Some g'
    /\ In (mk_PhysicalGroup 2 sg [entity]) (g_groups g')
    /\ In (mk_PhysicalGroup 3 vg [entity]) (g_groups g')
    /\ g_names g' !! (2%Z, sg) = Some t
    /\ g_names g' !! (3%Z, vg) = Some t.

(** Tissue tagging as the specification words it: every position of every
    sequence of names ends tagged. *)
Definition tagging_as_stated (ts : list string) (s' : state) : Prop :=
  forall (l : nat) (t : string), ts !! l = Some t -> tagged_at s' l t.

(** The physical groups the loop of [_add_tissues] appends, [l] being the
    index reached and [m2], [m3] the largest tags in use in dimensions 2 and
    3. *)
Fixpoint tagged_groups (l m2 m3 : Z) (ts : list string) : list PhysicalGroup :=
  match ts with
  | [] => []
  | _ :: ts' =>
      mk_PhysicalGroup 2 (m2 + 1) [(l + 1)%Z]
      :: mk_PhysicalGroup 3 (m3 + 1) [(l + 1)%Z]
      :: tagged_groups (l + 1) (m2 + 1) (m3 + 1) ts'
  end.

(** [self.save()], of the storage collaborator [ObjDir], when it
    succeeds. *)
Definition save : M unit := modify (log EvSave).

(** *** Sensors *)

Definition tissue_entities (tissue : string) (dim : Z) : M (list Z) :=
  s <- get ;;
  match tissues s !! tissue with
  | None => raise (KeyError tissue)
  | Some t =>
      if (dim =? 2)%Z then ret (entities (surf t))
      else if (dim =? 3)%Z then ret (entities (vol t))
      else raise (UnboundLocalError
        "local variable 'entities' referenced before assignment")
  end.

Fixpoint mapM {A B : Type} (f : A -> M B) (l : list A) : M (list B) :=
  match l with
  | [] => ret []
  | x :: l' => y <- f x ;; ys <- mapM f l' ;; ret (y :: ys)
  end.

(** [FEM._get_tissue_nodes]. The second debug message reads
    [nodes[0][0].size], which needs a first entity. *)
Definition _get_tissue_nodes (tissue : string) (dim : Z)
  : M (list Z * list (list F)) :=
  es <- tissue_entities tissue dim ;;
  _ <- the_model ;;
  nodes <- mapM (getNodes dim) es ;;
  match nodes with
  | [] => raise (IndexError "list index out of range")
  | _ :: _ =>
      let tags := concat (map fst nodes) in
      coords <- lift (reshape_rows 3 (concat (map snd nodes))) ;;
      ret (tags, coords)
  end.

(** [FEM._add_point_sensor_on_node]. *)
Definition py_max (l : list Z) : result Z :=
  match l with
  | [] => Raise (ValueError "max() arg is an empty sequence")
  | x :: l' => Ok (fold_left Z.max l' x)
  end.

Definition _add_point_sensor_on_node (name : string) (node_tag : Z)
    (node_coords : list F) : M (Z * Z) :=
  entity <- addDiscreteEntity 0 ;;
  _ <- addNodes 0 entity [node_tag] node_coords ;;
  _ <- addPointElement entity node_tag ;;
  groups <- getPhysicalGroups ;;
  max_group <- lift (py_max (map snd groups)) ;;
  group <- addPhysicalGroup 0 [entity] (max_group + 1) ;;
  _ <- setPhysicalName 0 group name ;;
  ret (entity, group).

(** [FEM._add_point_sensor]. *)
Definition index {A : Type} (l : list A) (i : nat) : result A :=
  match l !! i with
  | Some x => Ok x
  | None => Raise (IndexError "index is out of bounds")
  end.

Definition _add_point_sensor (name : string) (coords : list F)
    (nodes_tags : list Z) (nodes_coords : list (list F)) (tissue : string)
  : M unit :=
  dist <- lift (cdist coords 3 nodes_coords) ;;
  min_dist_idx <- lift (np_argmin dist) ;;
  node_tag <- lift (index nodes_tags min_dist_idx) ;;
  mesh_coords <- lift (index nodes_coords min_dist_idx) ;;
  eg <- _add_point_sensor_on_node name node_tag mesh_coords ;;
  let sensor := mk_PointSensor tissue coords mesh_coords
                               (mk_Group 0 [fst eg] (snd eg)) node_tag in
  modify (fun s => set_sensors (<[name := sensor]> (sensors s)) s).

(** [FEM.add_point_sensor]. *)
Definition add_point_sensor (name : string) (coords : list F)
    (tissue : string) (dim : Z) : M unit :=
  s <- get ;;
  match sensors s !! name with
  | Some _ =>
      raise (ValueError ("Sensor '" ++ name ++ "' already exists in model."))
  | None =>
      if negb (length coords =? 3)%nat
      then raise (ValueError "Argument 'coords' must be a 3D coordinate.")
      else
        let coords := map (fun c => fmul milli c) coords in
        match tissues s !! tissue with
        | None =>
            raise (ValueError ("Tissue '" ++ tissue ++ "' not found in model."))
        | Some _ =>
            _ <- gmsh_initialize ;;
            _ <- gmsh_open_mesh_path ;;
            nodes <- _get_tissue_nodes tissue dim ;;
            _ <- _add_point_sensor name coords (fst nodes) (snd nodes) tissue ;;
            _ <- removeDuplicateNodes ;;
            _ <- gmsh_write_mesh_path ;;
            _ <- gmsh_finalize ;;
            save
        end
  end.

(** [FEM.add_point_sensors]; [coords] is the mapping from sensor name to
    coordinates, as the list of its items. *)
Fixpoint _add_point_sensors_loop (items : list (string * list F))
    (nodes_tags : list Z) (nodes_coords : list (list F)) (tissue : string)
  : M unit :=
  match items with
  | [] => ret tt
  | (s, c) :: items' =>
      _ <- _add_point_sensor s c nodes_tags nodes_coords tissue ;;
      _add_point_sensors_loop items' nodes_tags nodes_coords tissue
  end.

Definition add_point_sensors (coords : list (string * list F))
    (tissue : string) (dim : Z) : M unit :=
  let coords := map (fun sc => (fst sc, map (fun x => fmul milli x) (snd sc)))
                    coords in
  s <- get ;;
  match tissues s !! tissue with
  | None =>
      raise (ValueError ("Tissue '" ++ tissue ++ "' not found in model."))
  | Some _ =>
      _ <- gmsh_initialize ;;
      _ <- gmsh_open_mesh_path ;;
      nodes <- _get_tissue_nodes tissue dim ;;
      _ <- _add_point_sensors_loop coords (fst nodes) (snd nodes) tissue ;;
      _ <- removeDuplicateNodes ;;
      _ <- gmsh_write_mesh_path ;;
      _ <- gmsh_finalize ;;
      save
  end.

(** The state [add_point_sensor] and its likes work on once they have
    initialized gmsh and opened the mesh file holding [file]. *)
Definition opened (file : gmsh_model) (s : state) : state :=
  set_session (Some file)
    (log EvOpen (set_session (Some empty_model) (log EvInitialize s))).

(** *** Mesh generation *)

(** [affine.shape in ((3, 4), (4, 4))], the matrix being given by its rows. *)
Definition affine_shape_ok (a : matrix) : bool :=
  ((length a =? 3)%nat || (length a =? 4)%nat)
  && forallb (fun r => (length r =? 4)%nat) a.

(** [np.vstack((affine[:3, :], np.array([0, 0, 0, 1])))]. *)
Definition homogeneous (a : matrix) : matrix :=
  firstn 3 a ++ [[of_Z 0; of_Z 0; of_Z 0; of_Z 1]].

(** [np.diag([1e-3] * 3 + [1]) @ affine]. *)
Definition np_diag (d : list F) : matrix :=
  map (fun i => map (fun j => if (i =? j)%nat then nth i d (of_Z 0) else of_Z 0)
                    (seq 0 (length d)))
      (seq 0 (length d)).

Definition dot (u v : list F) : F :=
  fold_left (fun acc p => fadd acc (fmul (fst p) (snd p))) (combine u v) (of_Z 0).

Definition column (j : nat) (m : list (list F)) : list F :=
  omap (fun r => r !! j) m.

Definition matmul (a b : matrix) : matrix :=
  map (fun row => map (fun j => dot row (column j b))
                      (seq 0 (length (hd [] b))))
      a.

Definition to_meters (a : matrix) : matrix :=
  matmul (np_diag [milli; milli; milli; of_Z 1]) (homogeneous a).

Definition count_mismatch : exn :=
  ValueError ("Argument 'tissues' must contain as many names "
              ++ "as there are unique labels in 'labels'.").

(** The validation that opens [FEM.mesh_from_array] (the type checks are
    settled by the types here): the labels cast to uint8 and the affine in
    meters, as the rest of the method receives them. *)
Definition mesh_from_array_checks (labels : ndarray Z) (affine : matrix)
    (ts : list string) : result (ndarray Z * matrix) :=
  let labels := astype_uint8 labels in
  if negb (ndim labels =? 3)%nat
  then Raise (ValueError "Argument 'labels' must be a 3D array.")
  else if negb (affine_shape_ok affine)
  then Raise (ValueError "Argument 'affine' expects shape (3,4) or (4,4).")
  else
    let affine := to_meters affine in
    (m <- np_max labels ;;
     if negb (Z.of_nat (length ts) =? m)%Z
     then Raise count_mismatch
     else Ok (labels, affine))%res.


(** The number of distinct nonzero labels of a volume. *)
Definition distinct_nonzero (l : list Z) : nat :=
  length (nodup Z.eq_dec (List.filter (fun v => negb (v =? 0)%Z) l)).

(** The rule on the number of names as the specification words it: with [k]
    distinct nonzero labels, [k] names pass the validation, and [k + 1] or
    [k - 1] names fail it on the count. *)
Definition count_rule_as_stated (labels : ndarray Z) (affine : matrix) : Prop :=
  let k := distinct_nonzero (data labels) in
  forall ts : list string,
    (length ts = k ->
       is_Ok (mesh_from_array_checks labels affine ts) = true)
    /\ (length ts = S k \/ S (length ts) = k ->
       mesh_from_array_checks labels affine ts = Raise count_mismatch).

(** [FEM._gen_init_mesh]. *)
Definition _gen_init_mesh (labels : ndarray Z) (kwargs : Kw) : M unit :=
  modify (fun s => set_mesh_params (Some kwargs)
                     (set_tmp_mesh (Some (generate_from_array labels kwargs)) s)).

(** [FEM._apply_transform]. *)
Definition _apply_transform (affine : matrix) : M unit :=
  _ <- gmsh_initialize ;;
  s <- get ;;
  match tmp_mesh s with
  | None => raise (GmshError "Cannot open the mesh file")
  | Some g =>
      _ <- modify (fun s => set_session (Some (plugin_transform affine g))
                              (log EvMerge s)) ;;
      g' <- the_model ;;
      _ <- modify (set_tmp_msh (Some g')) ;;
      gmsh_finalize
  end.

(** [with TemporaryDirectory() as d: body]: the directory goes away however
    the body ends. *)
Definition with_TemporaryDirectory {A : Type} (body : M A) : M A :=
  fun s => let rs := body (set_tmp_msh None (set_tmp_mesh None s)) in
           (fst rs, set_tmp_msh None (set_tmp_mesh None (snd rs))).

(** [FEM.mesh_from_array]. *)
Definition mesh_from_array (labels : ndarray Z) (affine : matrix)
    (ts : list string) (kwargs : Kw) : M unit :=
  la <- lift (mesh_from_array_checks labels affine ts) ;;
  let cropped_img := crop_img la in
  _ <- modify (fun s => set_nii_file (Some cropped_img) (log EvNiiWrite s)) ;;
  let labels := astype_uint16 (fst cropped_img) in
  let affine := snd cropped_img in
  _ <- with_TemporaryDirectory
         (_ <- _gen_init_mesh labels kwargs ;;
          _ <- _apply_transform affine ;;
          _add_tissues ts) ;;
  save.

(** *** Elements of a tissue *)

(** [gmsh.model.mesh.getElements(dim, tag)[1]] and
    [gmsh.model.mesh.getBarycenters(type, tag, fast=False, primary=False)],
    the element type being the one of the dimension. *)
Definition getElements (dim tag : Z) : M (list Z) :=
  g <- the_model ;;
  match g_elems g !! (dim, tag) with
  | Some e => ret (fst e)
  | None => raise (GmshError "Entity does not exist")
  end.

Definition getBarycenters (dim tag : Z) : M (list F) :=
  g <- the_model ;;
  match g_elems g !! (dim, tag) with
  | Some e => ret (snd e)
  | None => raise (GmshError "Entity does not exist")
  end.

Definition np_hstack {A : Type} (arrays : list (list A)) : result (list A) :=
  match arrays with
  | [] => Raise (ValueError "need at least one array to concatenate")
  | _ :: _ => Ok (concat arrays)
  end.

(** [FEM._get_tissue_elems]. *)
Definition _get_tissue_elems (tissue : string) (dim : Z) : M (list Z) :=
  es <- tissue_entities tissue dim ;;
  arrays <- mapM (getElements dim) es ;;
  lift (np_hstack arrays).

Definition _get_tissue_vol_elems (tissue : string) : M (list Z) :=
  _get_tissue_elems tissue 3.

(** [FEM._get_tissue_elems_coords]. *)
Definition _get_tissue_elems_coords (tissue : string) (dim : Z)
  : M (list (list F)) :=
  es <- tissue_entities tissue dim ;;
  arrays <- mapM (getBarycenters dim) es ;;
  flat <- lift (np_hstack arrays) ;;
  lift (reshape_rows 3 flat).

Definition _get_tissue_vol_elems_coords (tissue : string) : M (list (list F)) :=
  _get_tissue_elems_coords tissue 3.

(** *** Fields from element data *)

(** [FEM._fill_empty_field_elems]. The debug message reads the [size]
    attribute of the value of [np.nonzero]. *)
Definition _fill_empty_field_elems (tissue : string) (elems_tags : list Z)
    (elems_vals : list F) (n_vals : nat) (fill_val : list F)
  : M (list Z * list F) :=
  all_elems_tags <- _get_tissue_vol_elems tissue ;;
  let empty_elems_idx := isin_invert all_elems_tags elems_tags in
  if np_any empty_elems_idx
  then
    _ <- lift (attr_size (np_nonzero empty_elems_idx)) ;;
    let empty_elems_tags := mask_select all_elems_tags empty_elems_idx in
    empty_elems_vals <-
      lift (broadcast_to_row fill_val (length empty_elems_tags * n_vals)) ;;
    ret (elems_tags ++ empty_elems_tags, elems_vals ++ empty_elems_vals)
  else ret (elems_tags, elems_vals).

(** [gmsh.view.add(name)], [gmsh.view.addModelData(view, 0, model,
    "ElementData", tags, data)], which wants one row of data per tag, and
    [gmsh.view.write(view, str(self.mesh_path), True)], which appends the
    view to the file (when it succeeds). *)
Definition max_view_tag (vs : list View) : Z :=
  fold_left Z.max (map view_tag vs) 0%Z.

Definition view_add (name : string) : M Z :=
  g <- the_model ;;
  let tag := (max_view_tag (g_views g) + 1)%Z in
  _ <- put_model (set_views (g_views g ++ [mk_View tag name [] []]) g) ;;
  ret tag.

Definition set_view_data (tag : Z) (tags : list Z) (rows : list (list F))
    (v : View) : View :=
  if (view_tag v =? tag)%Z then mk_View tag (view_name v) tags rows else v.

Definition view_addModelData (tag : Z) (tags : list Z) (rows : list (list F))
  : M unit :=
  g <- the_model ;;
  if negb (length tags =? length rows)%nat
  then raise (GmshError "Incompatible number of tags and data")
  else put_model (set_views (map (set_view_data tag tags rows) (g_views g)) g).

Definition view_write_mesh_path (tag : Z) : M unit :=
  g <- the_model ;;
  s <- get ;;
  let written := List.filter (fun v => (view_tag v =? tag)%Z) (g_views g) in
  let file := default empty_model (mesh_file s) in
  modify (fun s => set_mesh_file (Some (set_views (g_views file ++ written) file))
                     (log EvViewWrite s)).

(** [FEM._add_field_view]. *)
Definition _add_field_view (name tissue : string) (elems_tags : list Z)
    (elems_vals : list F) (n_vals : nat) : M Z :=
  _ <- the_model ;;
  view <- view_add (tissue ++ "_" ++ name) ;;
  elems_vals <- lift (reshape_rows n_vals elems_vals) ;;
  _ <- view_addModelData view elems_tags elems_vals ;;
  ret view.

Definition field_types (n_vals : Z) : option FieldType :=
  if (n_vals =? 1)%Z then Some SCALAR
  else if (n_vals =? 3)%Z then Some VECTOR
  else if (n_vals =? 9)%Z then Some TENSOR
  else None.

Definition elems_vals_arity : exn :=
  ValueError "Argument 'elems_vals' must contain scalar, vector or tensor values.".

Definition fill_val_arity : exn :=
  ValueError "Argument 'fill_val' must be of the same type and size as 'elems_vals'.".

(** The checks of [FEM.field_from_elems] that follow the look-up of the
    tissue and of the name. [int(elems_vals.size / elems_tags.size)] is a
    float division truncated by [int]; on sizes it is the integer quotient
    (the float quotient is exact enough for that below 2^53). *)
Definition field_from_elems_arity (elems_tags : list Z) (elems_vals : list F)
    (fill_val : option (list F)) : result (nat * FieldType * list F) :=
  if (length elems_tags =? 0)%nat
  then Raise (ZeroDivisionError "division by zero")
  else
    let n_vals := (Z.of_nat (length elems_vals) / Z.of_nat (length elems_tags))%Z in
    match field_types n_vals with
    | None => Raise elems_vals_arity
    | Some field_type =>
        match fill_val with
        | None =>
            Raise (TypeError "Argument 'fill_val' expects numpy.ndarray or Iterable.")
        | Some fill_val =>
            if negb (Z.of_nat (length fill_val) =? n_vals)%Z
            then Raise fill_val_arity
            else Ok (Z.to_nat n_vals, field_type, fill_val)
        end
    end.

(** [FEM.field_from_elems]. *)
Definition field_from_elems (name tissue : string) (elems_tags : list Z)
    (elems_vals : list F) (fill_val : option (list F)) (formula : string)
  : M unit :=
  s <- get ;;
  match tissues s !! tissue with
  | None => raise (KeyError ("Tissue '" ++ tissue ++ "' not found in model."))
  | Some t =>
      match fields t !! name with
      | Some _ =>
          raise (KeyError ("Field '" ++ name ++ "' already exists in tissue '"
                           ++ tissue ++ "'."))
      | None =>
          checked <- lift (field_from_elems_arity elems_tags elems_vals fill_val) ;;
          let n_vals := fst (fst checked) in
          let field_type := snd (fst checked) in
          let fill_val := snd checked in
          _ <- gmsh_initialize ;;
          _ <- gmsh_open_mesh_path ;;
          filled <- _fill_empty_field_elems tissue elems_tags elems_vals
                                            n_vals fill_val ;;
          view <- _add_field_view name tissue (fst filled) (snd filled) n_vals ;;
          _ <- view_write_mesh_path view ;;
          _ <- gmsh_finalize ;;
          s <- get ;;
          match tissues s !! tissue with
          | None => raise (KeyError tissue)
          | Some t =>
              _ <- modify (set_tissues
                     (<[tissue := set_field name (mk_Field field_type view formula) t]>
                        (tissues s))) ;;
              save
          end
      end
  end.

(** *** Fields from voxel grids *)

(** [FEM._get_field_coords]: the indices of the cells in C order, through
    the affine ([nib.affines.apply_affine]). *)
Definition unravel_all (shape3 : list nat) : list (list Z) :=
  match shape3 with
  | [n0; n1; n2] =>
      flat_map (fun i => flat_map (fun j => map (fun k =>
        [Z.of_nat i; Z.of_nat j; Z.of_nat k]) (seq 0 n2)) (seq 0 n1)) (seq 0 n0)
  | _ => []
  end.

Definition apply_affine (affine : matrix) (idx : list Z) : list F :=
  map (fun row => fadd (dot (firstn 3 row) (map of_Z idx)) (nth 3 row (of_Z 0)))
      (firstn 3 affine).

Definition _get_field_coords (shape : list nat) (affine : matrix)
  : list (list F) :=
  map (apply_affine affine) (unravel_all (firstn 3 shape)).

(** [np.unique]: the sorted distinct values; two floats are the same value
    when neither is below the other. *)
Fixpoint insert_unique (x : F) (l : list F) : list F :=
  match l with
  | [] => [x]
  | y :: l' =>
      if flt x y then x :: l
      else if flt y x then y :: insert_unique x l'
      else l
  end.

Definition np_unique (l : list F) : list F := fold_right insert_unique [] l.

(** [scipy.interpolate.RegularGridInterpolator], modelled on its documented
    behaviour; the value it computes at a point is [interpolate_at]. With
    [bounds_error=False] a point outside the grid gets [fill_value] when
    there is one, by numpy's assignment [result[out_of_bounds] = fill_value].
*)
Record RegularGridInterpolator : Type := mk_RegularGridInterpolator {
  rgi_grid : list (list F);
  rgi_values : ndarray F;
  rgi_method : interp_method;
  rgi_bounds_error : bool;
  rgi_fill_value : option (list F)
}.

Fixpoint strictly_ascending (p : list F) : bool :=
  match p with
  | x :: (y :: _) as p' => flt x y && strictly_ascending p'
  | _ => true
  end.

Fixpoint check_axes (points : list (list F)) (shape : list nat) : result unit :=
  match points, shape with
  | [], _ => Ok tt
  | p :: points', n :: shape' =>
      if negb (strictly_ascending p)
      then Raise (ValueError "The points in dimension must be strictly ascending")
      else if negb (length p =? n)%nat
      then Raise (ValueError "There are a different number of points and values in dimension")
      else check_axes points' shape'
  | _ :: _, [] =>
      Raise (ValueError "There are more point arrays than values has dimensions")
  end.

Definition new_RegularGridInterpolator (points : list (list F))
    (values : ndarray F) (method : interp_method) (bounds_error : bool)
    (fill_value : option (list F)) : result RegularGridInterpolator :=
  if (ndim values <? length points)%nat
  then Raise (ValueError "There are more point arrays than values has dimensions")
  else (_ <- check_axes points (shape values) ;;
        Ok (mk_RegularGridInterpolator points values method bounds_error
                                       fill_value))%res.

(** A point is out of bounds when one coordinate is below the first or above
    the last point of its axis. *)
Definition axis_out (g : list F) (x : F) : result bool :=
  match g with
  | [] => Raise (IndexError "index 0 is out of bounds for axis 0 with size 0")
  | g0 :: _ => Ok (flt x g0 || flt (List.last g g0) x)
  end.

Fixpoint out_of_bounds (grid : list (list F)) (p : list F) : result bool :=
  match grid, p with
  | g :: grid', x :: p' =>
      (o <- axis_out g x ;;
       os <- out_of_bounds grid' p' ;;
       Ok (o || os))%res
  | _, _ => Ok false
  end.

Fixpoint mapR {A B : Type} (f : A -> result B) (l : list A) : result (list B) :=
  match l with
  | [] => Ok []
  | x :: l' => (y <- f x ;; ys <- mapR f l' ;; Ok (y :: ys))%res
  end.

(** [result[mask] = fill] for a result with one number per point
    ([trailing = None]) or one row of [c] numbers per point
    ([trailing = Some c]): numpy takes a fill of one number, or of the
    shape it assigns to. *)
Fixpoint assign_each (rows : list (list F)) (mask : list bool) (fill : list F)
  : list (list F) :=
  match rows, mask with
  | r :: rows', b :: mask' =>
      if b
      then match fill with
           | x :: fill' => [x] :: assign_each rows' mask' fill'
           | [] => r :: assign_each rows' mask' []
           end
      else r :: assign_each rows' mask' fill
  | _, _ => rows
  end.

Definition assign_all (rows : list (list F)) (mask : list bool) (v : list F)
  : list (list F) :=
  map (fun rb : list F * bool => if snd rb then v else fst rb)
      (combine rows mask).

Definition count_true (mask : list bool) : nat :=
  length (List.filter (fun b => b) mask).

Definition assign_fill (trailing : option nat) (rows : list (list F))
    (mask : list bool) (fill : list F) : result (list (list F)) :=
  match trailing with
  | None =>
      match fill with
      | [x] => Ok (assign_all rows mask [x])
      | _ =>
          if (length fill =? count_true mask)%nat
          then Ok (assign_each rows mask fill)
          else Raise (ValueError
            "NumPy boolean array indexing assignment cannot assign input values")
      end
  | Some c =>
      if (length fill =? c)%nat then Ok (assign_all rows mask fill)
      else match fill with
           | [x] => Ok (assign_all rows mask (repeat x c))
           | _ => Raise (ValueError "could not broadcast input array")
           end
  end.

(** The numbers per grid point of a values array over a 3-axis grid. *)
Definition trailing_of (grid_axes : nat) (values : ndarray F) : option nat :=
  match skipn grid_axes (shape values) with
  | [] => None
  | l => Some (fold_left Nat.mul l 1%nat)
  end.

(** The fill has the arity of the values: one number for a values array
    with one number per grid point, and otherwise as many as it has. *)
Definition fill_fits (trailing : option nat) (fill : list F) : Prop :=
  match trailing with
  | None => length fill = 1%nat
  | Some c => length fill = c
  end.

(** Calling the interpolator on rows of coordinates. *)
Definition rgi_call (r : RegularGridInterpolator) (xi : list (list F))
  : result (list (list F)) :=
  if negb (forallb (fun p => (length p =? length (rgi_grid r))%nat) xi)
  then Raise (ValueError "The requested sample points xi have another dimension")
  else
    (oob <- mapR (out_of_bounds (rgi_grid r)) xi ;;
     if rgi_bounds_error r && np_any oob
     then Raise (ValueError "One of the requested xi is out of bounds")
     else
       let vals := map (interpolate_at (rgi_method r) (rgi_grid r) (rgi_values r))
                       xi in
       match rgi_fill_value r with
       | Some fill =>
           if rgi_bounds_error r then Ok vals
           else assign_fill (trailing_of (length (rgi_grid r)) (rgi_values r))
                            vals oob fill
       | None => Ok vals
       end)%res.

(** [FEM._interp_field]. *)
Definition _interp_field (tissue : string) (coords : list (list F))
    (field : ndarray F) (method : interp_method) (fill_val : list F)
  : M (list Z * list (list F)) :=
  let x := np_unique (column 0 coords) in
  let y := np_unique (column 1 coords) in
  let z := np_unique (column 2 coords) in
  interpolate <- lift (new_RegularGridInterpolator [x; y; z] field method
                                                   false (Some fill_val)) ;;
  _ <- gmsh_initialize ;;
  _ <- gmsh_open_mesh_path ;;
  elems_tags <- _get_tissue_vol_elems tissue ;;
  elems_coords <- _get_tissue_vol_elems_coords tissue ;;
  _ <- gmsh_finalize ;;
  elems_vals <- lift (rgi_call interpolate elems_coords) ;;
  ret (elems_tags, elems_vals).

(** [FEM.field_from_array]. *)
Definition field_shape_error : exn :=
  ValueError ("Argument 'field' must be a 3D or 4D array containing scalar, "
              ++ "vector or tensor values.").

Definition field_from_array (name : string) (field : ndarray F)
    (affine : matrix) (tissue : string) (fill_val : list F) (formula : string)
    (nearest_flag : bool) : M unit :=
  if negb ((ndim field =? 3)%nat || (ndim field =? 4)%nat)
  then raise field_shape_error
  else if (ndim field =? 4)%nat
          && negb (existsb (Nat.eqb (List.last (shape field) 0%nat)) [1; 3; 9]%nat)
  then raise field_shape_error
  else if negb (affine_shape_ok affine)
  then raise (ValueError "Argument 'affine' expects shape (3,4) or (4,4).")
  else
    let affine := to_meters affine in
    s <- get ;;
    match tissues s !! tissue with
    | None => raise (KeyError ("Tissue '" ++ tissue ++ "' not found in model."))
    | Some _ =>
        let coords := _get_field_coords (shape field) affine in
        interp <- _interp_field tissue coords field
                    (if nearest_flag then nearest else linear) fill_val ;;
        field_from_elems name tissue (fst interp) (concat (snd interp))
                         (Some fill_val) formula
    end.

(** [FEM.field_from_nii]. The call it ends with names its fourth argument
    [tissues]. The names bound to a string in the body are the parameters
    [name], [nii_path], [tissue] and [formula]; the other locals ([self],
    [fill_val], [nearest], [img]) and the names of the module (its imports,
    [logger] and [FEM]) are not called [tissues] either. *)
Definition load_name (env : list (string * string)) (x : string) : result string :=
  match List.find (fun b => String.eqb (fst b) x) env with
  | Some b => Ok (snd b)
  | None => Raise (NameError ("name '" ++ x ++ "' is not defined"))
  end.

Definition field_from_nii (name nii_path tissue : string) (fill_val : list F)
    (formula : string) (nearest_flag : bool) : M unit :=
  let env := [("name", name); ("nii_path", nii_path); ("tissue", tissue);
              ("formula", formula)] in
  match nib_load nii_path with
  | None => raise (FileNotFoundError nii_path)
  | Some img =>
      fourth <- lift (load_name env "tissues") ;;
      field_from_array name (fst img) (snd img) fourth fill_val formula
                       nearest_flag
  end.

(** *** Meshes from binary masks *)

(** [labels[m.astype(bool)] = v]: the voxels where the mask is not zero
    take the value [v]. *)
Fixpoint paint (labels mask : list Z) (v : Z) : list Z :=
  match labels, mask with
  | x :: labels', b :: mask' =>
      (if (b =? 0)%Z then x else v) :: paint labels' mask' v
  | _, _ => labels
  end.

(** The loop of [mesh_from_masks] over [enumerate(masks.items())], [l]
    being the index reached. *)
Fixpoint paint_all (l : Z) (labels : list Z) (ms : list (ndarray Z)) : list Z :=
  match ms with
  | [] => labels
  | m :: ms' => paint_all (l + 1) (paint labels (data m) (l + 1)%Z) ms'
  end.

(** The loop of [mesh_from_masks] that compares the shapes. *)
Fixpoint check_mask_shapes (sh : option (list nat)) (ms : list (ndarray Z))
  : result unit :=
  match ms with
  | [] => Ok tt
  | m :: ms' =>
      match sh with
      | Some sh0 =>
          if negb (bool_decide (shape m = sh0))
          then Raise (ValueError
                 "Values in argument 'masks' must all have the same shape.")
          else check_mask_shapes (Some (shape m)) ms'
      | None => check_mask_shapes (Some (shape m)) ms'
      end
  end.

(** [np.zeros(shape)]. *)
Definition np_zeros (sh : list nat) : ndarray Z :=
  mk_ndarray sh (repeat 0%Z (fold_right Nat.mul 1%nat sh)).

(** The labels [mesh_from_masks] builds, the masks being the values of the
    mapping in its order. Masks and labels are arrays of numbers without
    fractional part. *)
Definition labels_of_masks (ms : list (ndarray Z)) : result (ndarray Z) :=
  (_ <- check_mask_shapes None ms ;;
   match ms with
   | [] => Raise (IndexError "list index out of range")
   | m0 :: _ =>
       let zeros := np_zeros (shape m0) in
       Ok (mk_ndarray (shape zeros) (paint_all 0 (data zeros) ms))
   end)%res.

(** [FEM.mesh_from_masks], [masks] being the items of the mapping. *)
Definition mesh_from_masks (masks : list (string * ndarray Z)) (affine : matrix)
    (kwargs : Kw) : M unit :=
  labels <- lift (labels_of_masks (map snd masks)) ;;
  mesh_from_array labels affine (map fst masks) kwargs.

(** An array holds as many elements as its shape says. *)
Definition well_formed {A : Type} (a : ndarray A) : Prop :=
  length (data a) = fold_right Nat.mul 1%nat (shape a).

(** *** What a call may have changed *)

(** [s'] differs from [s] at most by the gmsh session and the trace. *)
Definition same_model (s s' : state) : Prop :=
  tissues s' = tissues s /\ sensors s' = sensors s
  /\ mesh_params s' = mesh_params s /\ nii_file s' = nii_file s
  /\ mesh_file s' = mesh_file s /\ tmp_mesh s' = tmp_mesh s
  /\ tmp_msh s' = tmp_msh s.

(** A computation that touches the session only. *)
Definition in_session {A : Type} (m : M A) : Prop :=
  forall s, snd (m s) = set_session (session (snd (m s))) s.

(** [m.astype(bool)] at the flat index [i]. *)
Definition nonzero_at (m : ndarray Z) (i : nat) : bool :=
  match data m !! i with
  | Some b => negb (b =? 0)%Z
  | None => false
  end.

End FEM.

(** ** An instance: exact rationals for floats

    Rationals with their exact operations stand for floats where a property
    is tried on concrete data; the square root is the integer square root of
    numerator times denominator, over the denominator. *)

Definition Qsqrt (q : Q) : Q := Z.sqrt (Qnum q * Zpos (Qden q)) # Qden q.

Definition Qltb (a b : Q) : bool := negb (Qle_bool b a).

#[export] Instance QFloat : Float := {|
  F := Q;
  fadd := Qplus;
  fsub := Qminus;
  fmul := Qmult;
  fsqrt := Qsqrt;
  flt := Qltb;
  of_Z := inject_Z;
  milli := 1 # 1000
|}.

(** Collaborators for the examples: no cropping, no transformation, no node
    merged, an empty generated mesh, the fill of the first grid point as
    interpolated value, and one image whatever the path. *)
#[export] Instance QBackend : Backend := {|
  Kw := unit;
  merge_duplicates := fun nodes => nodes;
  crop_img := fun img => img;
  generate_from_array := fun _ _ => empty_model;
  plugin_transform := fun _ g => g;
  interpolate_at := fun _ _ values _ => firstn 1 (data values);
  nib_load := fun _ =>
    Some (mk_ndarray [1; 1; 1]%nat [inject_Z 7],
          [[1; 0; 0; 0]; [0; 1; 0; 0]; [0; 0; 1; 0]; [0; 0; 0; 1]]%Q)
|}.

(** ** Example data

    A head model with one tissue, [scalp], on entity 1: three surface nodes
    on the x axis at 6, 2 and 4 (meters), and three tetrahedra. *)

Definition head_mesh : gmsh_model := {|
  g_entities := [(2, 1); (3, 1)]%Z;
  g_nodes := {[ (2, 1)%Z := ([10; 11; 12]%Z,
                             [6; 0; 0; 2; 0; 0; 4; 0; 0]%Q);
                (3, 1)%Z := ([10; 11; 12; 13]%Z,
                             [6; 0; 0; 2; 0; 0; 4; 0; 0; 3; 1; 1]%Q) ]};
  g_elems := {[ (3, 1)%Z := ([100; 101; 102]%Z,
                             [1; 1; 1; 2; 2; 2; 9; 9; 9]%Q) ]};
  g_points := [];
  g_groups := [mk_PhysicalGroup 2 1 [1%Z]; mk_PhysicalGroup 3 1 [1%Z]];
  g_names := {[ (2, 1)%Z := "scalp"; (3, 1)%Z := "scalp" ]};
  g_views := []
|}.

Definition identity4 : matrix :=
  [[1; 0; 0; 0]; [0; 1; 0; 0]; [0; 0; 1; 0]; [0; 0; 0; 1]]%Q.

(** A volume of two voxels labelled 0 and 2: label 1 is skipped. *)
Definition labels_0_2 : ndarray Z := mk_ndarray [1; 1; 2]%nat [0; 2]%Z.

(** A 16-bit volume of two voxels labelled 0 and 257. *)
Definition labels_0_257 : ndarray Z := mk_ndarray [1; 1; 2]%nat [0; 257]%Z.

(** The transformed mesh of a volume of two labels, before tagging, and a
    model about to tag it. *)
Definition untagged_mesh : gmsh_model := {|
  g_entities := [(2, 1); (2, 2); (3, 1); (3, 2)]%Z;
  g_nodes := ∅;
  g_elems := ∅;
  g_points := [];
  g_groups := [];
  g_names := ∅;
  g_views := []
|}.

Definition untagged : state := {|
  tissues := ∅;
  sensors := ∅;
  mesh_params := None;
  nii_file := None;
  mesh_file := None;
  tmp_mesh := None;
  tmp_msh := Some untagged_mesh;
  session := None;
  trace := []
|}.

Definition scalp : Tissue :=
  new_Tissue (mk_Group 2 [1%Z] 1) (mk_Group 3 [1%Z] 1).

Definition head : state := {|
  tissues := {[ "scalp" := scalp ]};
  sensors := ∅;
  mesh_params := None;
  nii_file := None;
  mesh_file := Some head_mesh;
  tmp_mesh := None;
  tmp_msh := None;
  session := None;
  trace := []
|}.

(** The head model once a sensor [Cz] has been placed on the scalp, from
    the requested coordinates (1000, 0, 0) in millimeters. *)
Definition head_Cz : state :=
  snd (add_point_sensor "Cz" [1000; 0; 0]%Q "scalp" 2 head).

(** A field of one voxel. *)
Definition one_voxel : ndarray Q := mk_ndarray [1; 1; 1]%nat [7%Q].

(** A volume of three voxels labelled 0, 1 and 2. *)
Definition labels_0_1_2 : ndarray Z := mk_ndarray [1; 1; 3]%nat [0; 1; 2]%Z.

(** Two masks over three voxels: [skin] covers the first two, [skull] the
    second one only; and an empty mask. *)
Definition skin_mask : ndarray Z := mk_ndarray [1; 1; 3]%nat [1; 1; 0]%Z.
Definition skull_mask : ndarray Z := mk_ndarray [1; 1; 3]%nat [0; 5; 0]%Z.
Definition empty_mask : ndarray Z := mk_ndarray [1; 1; 3]%nat [0; 0; 0]%Z.

(** ** Properties *)

Section Properties.

Context {fl : Float} {bk : Backend}.

(** *** Helper lemmas on maxima *)

Lemma fold_max_ge_init (l : list Z) (x : Z) : (x <= fold_left Z.max l x)%Z.
Proof.
  revert x. induction l as [|y l IH]; intros x; simpl; [lia|].
  specialize (IH (Z.max x y)). lia.
Qed.

Lemma fold_max_ge (l : list Z) (x y : Z) :
  In y l -> (y <= fold_left Z.max l x)%Z.
Proof.
  revert x. induction l as [|z l IH]; intros x Hin; simpl in *; [tauto|].
  destruct Hin as [->|Hin].
  - pose proof (fold_max_ge_init l (Z.max x y)). lia.
  - apply IH, Hin.
Qed.

Lemma fold_max_in (l : list Z) (x : Z) :
  fold_left Z.max l x = x \/ In (fold_left Z.max l x) l.
Proof.
  revert x. induction l as [|z l IH]; intros x; simpl; [now left|].
  destruct (IH (Z.max x z)) as [H|H]; [|now right; right].
  rewrite H. destruct (Z.max_spec x z) as [[_ ->]|[_ ->]]; [right; now left|now left].
Qed.

Lemma py_max_spec (l : list Z) :
  l <> [] ->
  exists m, py_max l = Ok m /\ In m l /\ Forall (fun y => (y <= m)%Z) l.
Proof.
  destruct l as [|x l]; [congruence|]. intros _.
  exists (fold_left Z.max l x). split; [reflexivity|]. split.
  - destruct (fold_max_in l x) as [->|H]; simpl; auto.
  - constructor; [apply fold_max_ge_init|].
    apply List.Forall_forall. intros y Hy. now apply fold_max_ge.
Qed.

Lemma has_physical_false (dim tag : Z) (gs : list PhysicalGroup) :
  Forall (fun p => (pg_tag p < tag)%Z) gs -> has_physical dim tag gs = false.
Proof.
  induction 1 as [|p gs Hp _ IH]; simpl; [reflexivity|].
  rewrite IH, orb_false_r. apply andb_false_intro2. apply Z.eqb_neq. lia.
Qed.

(** *** The first index of the minimum *)

Lemma argmin_from_spec (l p : list F) (best_i : nat) (best : F) :
  no_nan ->
  p !! best_i = Some best ->
  first_argmin p best_i ->
  first_argmin (p ++ l) (argmin_from best_i best (length p) l).
Proof.
  intros (Hirr & Htr & Hntr). revert p best_i best.
  induction l as [|x l IH]; intros p best_i best Hb Hfa; simpl.
  - now rewrite app_nil_r.
  - destruct Hfa as (b & Hb' & Hmin & Hfirst).
    rewrite Hb in Hb'. injection Hb' as <-.
    assert (Hlen : length (p ++ [x]) = S (length p)).
    { rewrite length_app. simpl. lia. }
    replace (p ++ x :: l) with ((p ++ [x]) ++ l) by now rewrite <- app_assoc.
    destruct (flt x best) eqn:Hx.
    + assert (Hbx : flt best x = false).
      { destruct (flt best x) eqn:E; [|reflexivity].
        rewrite <- (Hirr x). symmetry. now apply (Htr x best x). }
      rewrite <- Hlen. apply IH.
      * rewrite lookup_app_r by lia. now rewrite Nat.sub_diag.
      * exists x. split; [|split].
        -- rewrite lookup_app_r by lia. now rewrite Nat.sub_diag.
        -- intros j y Hj.
           destruct (Nat.lt_ge_cases j (length p)) as [Hlt|Hge].
           ++ rewrite lookup_app_l in Hj by lia.
              apply (Hntr y best x); [eapply Hmin; eauto|exact Hbx].
           ++ rewrite lookup_app_r in Hj by lia.
              destruct (j - length p)%nat; simpl in Hj; [|discriminate].
              injection Hj as <-. apply Hirr.
        -- intros j y Hlt Hj. rewrite lookup_app_l in Hj by lia.
           destruct (flt x y) eqn:E; [reflexivity|].
           rewrite <- Hx. symmetry. apply (Hntr x y best); [exact E|].
           eapply Hmin; eauto.
    + rewrite <- Hlen. apply IH.
      * rewrite lookup_app_l; [exact Hb|]. now apply lookup_lt_Some in Hb.
      * exists best. split; [|split].
        -- rewrite lookup_app_l; [exact Hb|]. now apply lookup_lt_Some in Hb.
        -- intros j y Hj.
           destruct (Nat.lt_ge_cases j (length p)) as [Hlt|Hge].
           ++ rewrite lookup_app_l in Hj by lia. eapply Hmin; eauto.
           ++ rewrite lookup_app_r in Hj by lia.
              destruct (j - length p)%nat; simpl in Hj; [|discriminate].
              now injection Hj as <-.
        -- intros j y Hlt Hj. apply lookup_lt_Some in Hb.
           rewrite lookup_app_l in Hj by lia. eapply Hfirst; eauto.
Qed.

Lemma np_argmin_spec (d : list F) :
  no_nan -> d <> [] ->
  exists i, np_argmin d = Ok i /\ (i < length d)%nat /\ first_argmin d i.
Proof.
  intros Hnn Hne. destruct d as [|x d]; [congruence|].
  exists (argmin_from 0 x 1 d). split; [reflexivity|].
  assert (H : first_argmin ([x] ++ d) (argmin_from 0 x (length [x]) d)).
  { apply argmin_from_spec; [exact Hnn|reflexivity|].
    exists x. split; [reflexivity|]. split.
    - intros [|j] y Hj; simpl in Hj; [|discriminate].
      injection Hj as <-. apply Hnn.
    - intros j y Hlt. lia. }
  simpl in H. split; [|exact H].
  destruct H as (y & Hy & _). now apply lookup_lt_Some in Hy.
Qed.

(** *** Placement of a point sensor on a node *)

Lemma add_point_sensor_on_node_ok
    (name : string) (node_tag : Z) (node_coords : list F)
    (s : state) (g : gmsh_model) :
  session s = Some g ->
  g_groups g <> [] ->
  Forall (fun p => (0 < pg_tag p)%Z) (g_groups g) ->
  exists (entity group_id : Z) (s' : state) (g' : gmsh_model),
    _add_point_sensor_on_node name node_tag node_coords s
      = (Ok (entity, group_id), s')
    /\ session s' = Some g'
    /\ py_max (map pg_tag (g_groups g)) = Ok (group_id - 1)%Z
    /\ Forall (fun p => (pg_tag p < group_id)%Z) (g_groups g)
    /\ g_groups g' = g_groups g ++ [mk_PhysicalGroup 0 group_id [entity]]
    /\ (NoDup (map pg_tag (g_groups g)) -> NoDup (map pg_tag (g_groups g')))
    /\ s' = set_session (Some g') s.
Proof.
  intros Hs Hne Hpos.
  destruct (py_max_spec (map pg_tag (g_groups g))) as (m & Hm & Hin & Hle).
  { destruct (g_groups g); [congruence|discriminate]. }
  assert (Hlt : Forall (fun p => (pg_tag p < m + 1)%Z) (g_groups g)).
  { apply List.Forall_forall. intros p Hp.
    rewrite List.Forall_forall in Hle.
    specialize (Hle (pg_tag p) (in_map _ _ _ Hp)). simpl in Hle. lia. }
  assert (Hmpos : (0 < m)%Z).
  { apply in_map_iff in Hin. destruct Hin as (p & <- & Hp).
    rewrite List.Forall_forall in Hpos. now apply Hpos. }
  eexists _, (m + 1)%Z, _, _.
  split.
  - unfold _add_point_sensor_on_node, addDiscreteEntity, addNodes,
      addPointElement, getPhysicalGroups, addPhysicalGroup, setPhysicalName,
      put_model, modify, the_model, bind, ret, lift.
    simpl. rewrite Hs. simpl.
    rewrite map_map. simpl.
    change (map (fun x : PhysicalGroup => pg_tag x) (g_groups g))
      with (map pg_tag (g_groups g)).
    rewrite Hm. simpl.
    destruct (Z.ltb_spec (m + 1) 0); [lia|].
    rewrite (has_physical_false _ _ _ Hlt). simpl. reflexivity.
  - simpl. split; [reflexivity|]. split; [|split; [exact Hlt|split; [|split]]].
    + rewrite Hm. f_equal. lia.
    + reflexivity.
    + intros Hnd. cbn [g_groups set_names set_groups]. rewrite List.map_app. simpl.
      apply NoDup_app. split; [exact Hnd|]. split; [|apply NoDup_singleton].
      intros x Hx Hx'. apply list_elem_of_singleton in Hx'. subst x.
      apply list_elem_of_In, in_map_iff in Hx.
      destruct Hx as (p & Hp1 & Hp2).
      rewrite List.Forall_forall in Hlt. specialize (Hlt p Hp2). lia.
    + reflexivity.
Qed.

(** C7. On a session whose mesh has at least one physical group (gmsh's tags
    being positive), [_add_point_sensor_on_node] succeeds, the group it
    allocates is the largest tag of all the groups of the mesh, whatever
    their dimension, plus one, hence above every tag in use; the groups of
    the mesh are the former ones followed by the new one, so that tags that
    were pairwise distinct across the mesh stay so. *)
Theorem C7_sensor_group_is_max_plus_one
    (name : string) (node_tag : Z) (node_coords : list F)
    (s : state) (g : gmsh_model) :
  session s = Some g ->
  g_groups g <> [] ->
  Forall (fun p => (0 < pg_tag p)%Z) (g_groups g) ->
  exists (entity group_id : Z) (s' : state) (g' : gmsh_model),
    _add_point_sensor_on_node name node_tag node_coords s
      = (Ok (entity, group_id), s')
    /\ session s' = Some g'
    /\ py_max (map pg_tag (g_groups g)) = Ok (group_id - 1)%Z
    /\ Forall (fun p => (pg_tag p < group_id)%Z) (g_groups g)
    /\ g_groups g' = g_groups g ++ [mk_PhysicalGroup 0 group_id [entity]]
    /\ (NoDup (map pg_tag (g_groups g)) -> NoDup (map pg_tag (g_groups g'))).
Proof.
  intros Hs Hne Hpos.
  destruct (add_point_sensor_on_node_ok name node_tag node_coords s g Hs Hne Hpos)
    as (entity & group_id & s' & g' & H1 & H2 & H3 & H4 & H5 & H6 & _).
  exists entity, group_id, s', g'. auto 10.
Qed.

(** *** Reading the nodes of a tissue leaves the state as it is *)

Lemma mapM_readonly {A B : Type} (f : A -> M B) (l : list A) (s : state) :
  (forall x s, snd (f x s) = s) -> snd (mapM f l s) = s.
Proof.
  intros Hf. induction l as [|x l IH]; simpl; [reflexivity|].
  unfold bind. specialize (Hf x s).
  destruct (f x s) as [[y|e] s1]; simpl in Hf; subst s1; [|reflexivity].
  destruct (mapM f l s) as [[ys|e] s2]; simpl in IH; subst s2; reflexivity.
Qed.

Lemma getNodes_readonly (dim tag : Z) (s : state) :
  snd (getNodes dim tag s) = s.
Proof.
  unfold getNodes, bind, the_model, ret, raise.
  destruct (session s) as [g|]; [|reflexivity].
  destruct (g_nodes g !! (dim, tag)); reflexivity.
Qed.

Lemma tissue_entities_readonly (tissue : string) (dim : Z) (s : state) :
  snd (tissue_entities tissue dim s) = s.
Proof.
  unfold tissue_entities, bind, get, ret, raise. simpl.
  destruct (tissues s !! tissue) as [t|]; [|reflexivity].
  destruct (dim =? 2)%Z; [reflexivity|]. destruct (dim =? 3)%Z; reflexivity.
Qed.

Lemma get_tissue_nodes_readonly (tissue : string) (dim : Z) (s : state) :
  snd (_get_tissue_nodes tissue dim s) = s.
Proof.
  unfold _get_tissue_nodes, bind.
  pose proof (tissue_entities_readonly tissue dim s) as H1.
  destruct (tissue_entities tissue dim s) as [[es|e] s1]; simpl in H1; subst s1;
    [|reflexivity].
  unfold the_model at 1. destruct (session s) as [g|]; [|reflexivity].
  pose proof (mapM_readonly (getNodes dim) es s (getNodes_readonly dim)) as H2.
  destruct (mapM (getNodes dim) es s) as [[nodes|e] s2]; simpl in H2; subst s2;
    [|reflexivity].
  destruct nodes as [|n nodes]; [reflexivity|].
  unfold lift, ret.
  destruct (reshape_rows 3 (concat (map snd (n :: nodes)))); reflexivity.
Qed.

(** *** Snapping a sensor to the nearest node *)

Lemma add_point_sensor_in_session_ok
    (name : string) (c : list F) (tags : list Z) (rows : list (list F))
    (tissue : string) (s : state) (g : gmsh_model) :
  no_nan ->
  length c = 3%nat ->
  rows <> [] ->
  length tags = length rows ->
  session s = Some g ->
  g_groups g <> [] ->
  Forall (fun p => (0 < pg_tag p)%Z) (g_groups g) ->
  exists (i : nat) (node_tag : Z) (node : list F) (grp : Group)
         (s' : state) (g' : gmsh_model),
    _add_point_sensor name c tags rows tissue s = (Ok tt, s')
    /\ tags !! i = Some node_tag
    /\ rows !! i = Some node
    /\ first_argmin (map (euclidean c) rows) i
    /\ s' = set_sensors
              (<[name := mk_PointSensor tissue c node grp node_tag]> (sensors s))
              (set_session (Some g') s).
Proof.
  intros Hnn Hc Hrows Hlen Hs Hne Hpos.
  destruct (np_argmin_spec (map (euclidean c) rows) Hnn) as (i & Hi & Hlt & Hfa).
  { destruct rows; [congruence|discriminate]. }
  rewrite length_map in Hlt.
  destruct (lookup_lt_is_Some_2 tags i) as [node_tag Htag]; [lia|].
  destruct (lookup_lt_is_Some_2 rows i) as [node Hnode]; [lia|].
  destruct (add_point_sensor_on_node_ok name node_tag node s g Hs Hne Hpos)
    as (entity & group_id & s1 & g' & H1 & _ & _ & _ & _ & _ & Hs1).
  exists i, node_tag, node, (mk_Group 0 [entity] group_id).
  eexists _, g'.
  split; [|split; [exact Htag|split; [exact Hnode|split; [exact Hfa|]]]].
  - unfold _add_point_sensor, bind, lift, cdist, index, modify.
    rewrite Hc. simpl. rewrite Hi, Htag, Hnode, H1. simpl. reflexivity.
  - rewrite Hs1. reflexivity.
Qed.


(** *** The validation of [mesh_from_array] *)

Lemma astype_uint8_idempotent (a : ndarray Z) :
  astype_uint8 (astype_uint8 a) = astype_uint8 a.
Proof.
  unfold astype_uint8. simpl. f_equal. rewrite map_map.
  apply map_ext. intros v. apply Z.mod_mod. lia.
Qed.

Lemma checks_by_max (labels : ndarray Z) (affine : matrix) (ts : list string)
    (m : Z) :
  ndim labels = 3%nat ->
  affine_shape_ok affine = true ->
  np_max (astype_uint8 labels) = Ok m ->
  mesh_from_array_checks labels affine ts
  = if (Z.of_nat (length ts) =? m)%Z
    then Ok (astype_uint8 labels, to_meters affine)
    else Raise count_mismatch.
Proof.
  intros Hd Ha Hm. unfold mesh_from_array_checks.
  replace (ndim (astype_uint8 labels)) with (ndim labels) by reflexivity.
  rewrite Hd, Ha, Hm. simpl. destruct (Z.of_nat (length ts) =? m)%Z; reflexivity.
Qed.

Lemma checks_inv (labels : ndarray Z) (affine : matrix) (ts : list string)
    (l8 : ndarray Z) (a : matrix) :
  mesh_from_array_checks labels affine ts = Ok (l8, a) ->
  l8 = astype_uint8 labels /\ a = to_meters affine
  /\ np_max (astype_uint8 labels) = Ok (Z.of_nat (length ts)).
Proof.
  unfold mesh_from_array_checks.
  destruct (negb (ndim (astype_uint8 labels) =? 3)%nat); [discriminate|].
  destruct (negb (affine_shape_ok affine)); [discriminate|].
  destruct (np_max (astype_uint8 labels)) as [m|e]; simpl; [|discriminate].
  destruct (Z.eqb_spec (Z.of_nat (length ts)) m) as [->|]; simpl; [|discriminate].
  intros H. injection H as <- <-. auto.
Qed.

(** With labels between 0 and [k] and [k] distinct nonzero labels, the
    largest label is [k]. *)
Lemma max_of_contiguous (l : list Z) (x : Z) (k : nat) :
  (forall v, In v (x :: l) -> (0 <= v <= Z.of_nat k)%Z) ->
  distinct_nonzero (x :: l) = k ->
  fold_left Z.max l x = Z.of_nat k.
Proof.
  intros Hrange Hk.
  assert (Hle : (fold_left Z.max l x <= Z.of_nat k)%Z).
  { destruct (fold_max_in l x) as [->|Hin].
    - apply Hrange. now left.
    - apply Hrange. now right. }
  assert (Hge0 : (0 <= fold_left Z.max l x)%Z).
  { pose proof (fold_max_ge_init l x). specialize (Hrange x (or_introl eq_refl)).
    lia. }
  destruct k as [|k]; [lia|].
  assert (Hin : In (Z.of_nat (S k)) (x :: l)).
  { destruct (in_dec Z.eq_dec (Z.of_nat (S k)) (x :: l)) as [Hin|Hnin];
      [exact Hin|exfalso].
    set (S0 := nodup Z.eq_dec (List.filter (fun v => negb (v =? 0)%Z) (x :: l))).
    assert (Hincl : incl S0 (map Z.of_nat (seq 1 k))).
    { intros v Hv. unfold S0 in Hv. apply nodup_In, filter_In in Hv.
      destruct Hv as [Hv Hnz]. apply negb_true_iff, Z.eqb_neq in Hnz.
      pose proof (Hrange v Hv) as Hr.
      assert (v <> Z.of_nat (S k)) by (intros ->; contradiction).
      apply in_map_iff. exists (Z.to_nat v). split; [lia|].
      apply in_seq. lia. }
    assert (Hnd : List.NoDup S0) by apply NoDup_nodup.
    pose proof (List.NoDup_incl_length Hnd Hincl) as Hlen.
    rewrite length_map, length_seq in Hlen.
    unfold distinct_nonzero in Hk. fold S0 in Hk. lia. }
  assert (Hge : (Z.of_nat (S k) <= fold_left Z.max l x)%Z).
  { destruct Hin as [<-|Hin]; [apply fold_max_ge_init|now apply fold_max_ge]. }
  lia.
Qed.

(** C4, as amended. For a 3-D label volume that is not empty, whose labels
    lie between 0 and [k] and count [k] distinct nonzero values (so that they
    are 1 to [k] without a gap) with [k] at most 255, and an affine of shape
    (3,4) or (4,4): the maximum of the labels is [k], the validation passes
    with exactly [k] names and fails on the count with any other number of
    names, [k + 1] and [k - 1] among them. *)
Theorem C4_names_must_number_the_max_label
    (labels : ndarray Z) (affine : matrix) (ts : list string) (k : nat) :
  ndim labels = 3%nat ->
  affine_shape_ok affine = true ->
  data labels <> [] ->
  (forall v, In v (data labels) -> (0 <= v <= Z.of_nat k)%Z) ->
  distinct_nonzero (data labels) = k ->
  (k <= 255)%nat ->
  np_max (astype_uint8 labels) = Ok (Z.of_nat k)
  /\ (length ts = k ->
        mesh_from_array_checks labels affine ts
        = Ok (astype_uint8 labels, to_meters affine))
  /\ (length ts <> k ->
        mesh_from_array_checks labels affine ts = Raise count_mismatch).
Proof.
  intros Hd Ha Hne Hrange Hk H255.
  assert (Hcast : data (astype_uint8 labels) = data labels).
  { simpl. rewrite <- (map_id (data labels)) at 2. apply map_ext_in.
    intros v Hv. specialize (Hrange v Hv). apply Z.mod_small. lia. }
  assert (Hm : np_max (astype_uint8 labels) = Ok (Z.of_nat k)).
  { unfold np_max. rewrite Hcast.
    destruct (data labels) as [|x l] eqn:E; [congruence|].
    f_equal. now apply max_of_contiguous. }
  split; [exact Hm|]. split; intros Hlen.
  - rewrite (checks_by_max _ _ _ _ Hd Ha Hm), Hlen, Z.eqb_refl. reflexivity.
  - rewrite (checks_by_max _ _ _ _ Hd Ha Hm).
    destruct (Z.eqb_spec (Z.of_nat (length ts)) (Z.of_nat k)); [lia|reflexivity].
Qed.

(** *** Tissue tagging *)

Lemma fold_max_app (l : list Z) (x y : Z) :
  fold_left Z.max (l ++ [y]) x = Z.max (fold_left Z.max l x) y.
Proof. now rewrite fold_left_app. Qed.

Lemma max_physical_tag_app (d : Z) (gs : list PhysicalGroup) (p : PhysicalGroup) :
  max_physical_tag d (gs ++ [p])
  = if (pg_dim p =? d)%Z then Z.max (max_physical_tag d gs) (pg_tag p)
    else max_physical_tag d gs.
Proof.
  unfold max_physical_tag. rewrite List.filter_app. simpl.
  destruct (pg_dim p =? d)%Z.
  - rewrite List.map_app. simpl. apply fold_max_app.
  - now rewrite app_nil_r.
Qed.

Lemma max_physical_tag_ge (d : Z) (gs : list PhysicalGroup) (p : PhysicalGroup) :
  In p gs -> pg_dim p = d -> (pg_tag p <= max_physical_tag d gs)%Z.
Proof.
  intros Hin Hd. unfold max_physical_tag. apply fold_max_ge.
  apply in_map. apply filter_In. split; [exact Hin|]. now apply Z.eqb_eq.
Qed.

Lemma has_physical_fresh (d : Z) (gs : list PhysicalGroup) :
  has_physical d (max_physical_tag d gs + 1) gs = false.
Proof.
  unfold has_physical. apply not_true_is_false. intros H.
  apply existsb_exists in H. destruct H as (p & Hin & Hp).
  apply andb_true_iff in Hp. destruct Hp as [Hd Ht].
  apply Z.eqb_eq in Hd, Ht.
  pose proof (max_physical_tag_ge d gs p Hin Hd). lia.
Qed.

Lemma has_physical_app (d tag : Z) (gs : list PhysicalGroup) (p : PhysicalGroup) :
  has_physical d tag (gs ++ [p])
  = has_physical d tag gs || ((pg_dim p =? d)%Z && (pg_tag p =? tag)%Z).
Proof. unfold has_physical. rewrite existsb_app. simpl. now rewrite orb_false_r. Qed.

Lemma max_physical_tag_nonneg (d : Z) (gs : list PhysicalGroup) :
  (0 <= max_physical_tag d gs)%Z.
Proof. apply fold_max_ge_init. Qed.

(** One turn of the loop. *)
Lemma add_tissues_loop_step (l : Z) (t : string) (ts : list string)
    (s : state) (g : gmsh_model) :
  session s = Some g ->
  let m2 := max_physical_tag 2 (g_groups g) in
  let m3 := max_physical_tag 3 (g_groups g) in
  let entity := (l + 1)%Z in
  let g1 := set_names (<[(3%Z, (m3 + 1)%Z) := t]>
                         (<[(2%Z, (m2 + 1)%Z) := t]> (g_names g)))
              (set_groups (g_groups g ++ [mk_PhysicalGroup 2 (m2 + 1) [entity];
                                          mk_PhysicalGroup 3 (m3 + 1) [entity]]) g) in
  _add_tissues_loop l (t :: ts) s
  = _add_tissues_loop (l + 1) ts
      (set_tissues (<[t := new_Tissue (mk_Group 2 [entity] (m2 + 1))
                                      (mk_Group 3 [entity] (m3 + 1))]> (tissues s))
                   (set_session (Some g1) s)).
Proof.
  intros Hs m2 m3 entity g1. subst m2 m3 entity g1.
  simpl _add_tissues_loop.
  cbv [bind ret raise modify put_model the_model setPhysicalName addPhysicalGroup].
  rewrite Hs. simpl. rewrite has_physical_fresh. simpl.
  rewrite max_physical_tag_app. simpl.
  rewrite has_physical_app, has_physical_fresh. simpl.
  f_equal. unfold set_tissues, set_session, set_names, set_groups. simpl.
  rewrite <- app_assoc. reflexivity.
Qed.

Lemma max_physical_tag_after_step (d : Z) (gs : list PhysicalGroup)
    (e2 e3 : list Z) :
  d = 2%Z \/ d = 3%Z ->
  max_physical_tag d
    (gs ++ [mk_PhysicalGroup 2 (max_physical_tag 2 gs + 1) e2;
            mk_PhysicalGroup 3 (max_physical_tag 3 gs + 1) e3])
  = (max_physical_tag d gs + 1)%Z.
Proof.
  intros Hd.
  change (gs ++ [mk_PhysicalGroup 2 (max_physical_tag 2 gs + 1) e2;
                 mk_PhysicalGroup 3 (max_physical_tag 3 gs + 1) e3])
    with (gs ++ [mk_PhysicalGroup 2 (max_physical_tag 2 gs + 1) e2]
             ++ [mk_PhysicalGroup 3 (max_physical_tag 3 gs + 1) e3]).
  rewrite app_assoc, !max_physical_tag_app. simpl.
  destruct Hd as [-> | ->]; simpl; lia.
Qed.

(** The loop of [_add_tissues], from a session holding [g]. *)
Lemma add_tissues_loop_spec (ts : list string) :
  forall (l : Z) (s : state) (g : gmsh_model),
  session s = Some g ->
  exists (s' : state) (g' : gmsh_model),
    _add_tissues_loop l ts s = (Ok tt, s')
    /\ s' = set_tissues (tissues s') (set_session (Some g') s)
    /\ g' = set_names (g_names g') (set_groups (g_groups g') g)
    /\ g_groups g'
       = g_groups g ++ tagged_groups l (max_physical_tag 2 (g_groups g))
                                       (max_physical_tag 3 (g_groups g)) ts
    /\ (forall d tag,
          (d = 2%Z -> (tag <= max_physical_tag 2 (g_groups g))%Z) ->
          (d = 3%Z -> (tag <= max_physical_tag 3 (g_groups g))%Z) ->
          g_names g' !! (d, tag) = g_names g !! (d, tag))
    /\ (forall t, ~ In t ts -> tissues s' !! t = tissues s !! t)
    /\ (forall (i : nat) (t : string), ts !! i = Some t ->
          let entity := (l + Z.of_nat i + 1)%Z in
          let sg := (max_physical_tag 2 (g_groups g) + Z.of_nat i + 1)%Z in
          let vg := (max_physical_tag 3 (g_groups g) + Z.of_nat i + 1)%Z in
          g_names g' !! (2%Z, sg) = Some t
          /\ g_names g' !! (3%Z, vg) = Some t
          /\ ((forall j, (i < j)%nat -> ts !! j <> Some t) ->
              tissues s' !! t = Some (new_Tissue (mk_Group 2 [entity] sg)
                                                 (mk_Group 3 [entity] vg)))).
Proof.
  induction ts as [|t ts IH]; intros l s g Hs.
  - exists s, g. simpl. split; [reflexivity|]. split.
    { destruct s; simpl in *. now subst. }
    split; [now destruct g|]. split; [now rewrite app_nil_r|].
    split; [reflexivity|]. split; [reflexivity|]. intros i t0 Hi. discriminate.
  - rewrite (add_tissues_loop_step l t ts s g Hs).
    set (m2 := max_physical_tag 2 (g_groups g)).
    set (m3 := max_physical_tag 3 (g_groups g)).
    set (g1 := set_names _ _). set (s1 := set_tissues _ _).
    destruct (IH (l + 1)%Z s1 g1 eq_refl)
      as (s' & g' & Hrun & Hs' & Hg' & Hgroups & Hnames & Hframe & Hpos).
    assert (Hm2 : max_physical_tag 2 (g_groups g1) = (m2 + 1)%Z).
    { apply max_physical_tag_after_step. now left. }
    assert (Hm3 : max_physical_tag 3 (g_groups g1) = (m3 + 1)%Z).
    { apply max_physical_tag_after_step. now right. }
    rewrite Hm2, Hm3 in *.
    assert (Hn1 : forall d tag,
               (d = 2%Z -> (tag <= m2)%Z) -> (d = 3%Z -> (tag <= m3)%Z) ->
               g_names g1 !! (d, tag) = g_names g !! (d, tag)).
    { intros d tag H2 H3. unfold g1. simpl.
      rewrite !lookup_insert_ne; [reflexivity| |].
      - intros E. injection E as <- <-. specialize (H2 eq_refl). lia.
      - intros E. injection E as <- <-. specialize (H3 eq_refl). lia. }
    exists s', g'. split; [exact Hrun|]. split.
    { rewrite Hs'. reflexivity. }
    split.
    { rewrite Hg'. reflexivity. }
    split.
    { rewrite Hgroups. unfold g1. simpl. rewrite <- app_assoc. reflexivity. }
    split.
    { intros d tag H2 H3. rewrite Hnames; [now apply Hn1|intros E|intros E].
      - specialize (H2 E). lia.
      - specialize (H3 E). lia. }
    split.
    { intros t0 Hnin. rewrite Hframe; [|intros Hin; apply Hnin; now right].
      unfold s1. simpl. apply lookup_insert_ne. intros ->. apply Hnin. now left. }
    intros [|i] t0 Hi; simpl in Hi.
    + injection Hi as <-. simpl. rewrite !Z.add_0_r.
      split; [|split].
      * rewrite Hnames; [|intros _; lia|intros E; discriminate].
        unfold g1. simpl. rewrite lookup_insert_ne by congruence.
        apply lookup_insert_eq.
      * rewrite Hnames; [|intros E; discriminate|intros _; lia].
        unfold g1. simpl. apply lookup_insert_eq.
      * intros Hlast. rewrite Hframe.
        -- unfold s1. simpl. apply lookup_insert_eq.
        -- intros Hin. apply list_elem_of_In, list_elem_of_lookup in Hin.
           destruct Hin as [j Hj]. apply (Hlast (S j)); [lia|exact Hj].
    + destruct (Hpos i t0 Hi) as (H2 & H3 & Hreg). cbv zeta.
      replace (m2 + Z.of_nat (S i) + 1)%Z with (m2 + 1 + Z.of_nat i + 1)%Z by lia.
      replace (m3 + Z.of_nat (S i) + 1)%Z with (m3 + 1 + Z.of_nat i + 1)%Z by lia.
      replace (l + Z.of_nat (S i) + 1)%Z with (l + 1 + Z.of_nat i + 1)%Z by lia.
      split; [exact H2|]. split; [exact H3|].
      intros Hlast. apply Hreg. intros j Hlt. apply (Hlast (S j)). lia.
Qed.

Lemma tagged_groups_length (ts : list string) (l m2 m3 : Z) :
  length (tagged_groups l m2 m3 ts) = (2 * length ts)%nat.
Proof.
  revert l m2 m3. induction ts as [|t ts IH]; intros l m2 m3; simpl;
    [reflexivity|]. rewrite IH. lia.
Qed.

Lemma tagged_groups_In (ts : list string) :
  forall (l m2 m3 : Z) (i : nat) (t : string),
  ts !! i = Some t ->
  In (mk_PhysicalGroup 2 (m2 + Z.of_nat i + 1) [(l + Z.of_nat i + 1)%Z])
     (tagged_groups l m2 m3 ts)
  /\ In (mk_PhysicalGroup 3 (m3 + Z.of_nat i + 1) [(l + Z.of_nat i + 1)%Z])
        (tagged_groups l m2 m3 ts).
Proof.
  induction ts as [|t0 ts IH]; intros l m2 m3 i t Hi; [discriminate|].
  destruct i as [|i].
  - simpl. rewrite !Z.add_0_r. auto.
  - destruct (IH (l + 1)%Z (m2 + 1)%Z (m3 + 1)%Z i t Hi) as [H2 H3].
    replace (m2 + Z.of_nat (S i) + 1)%Z with (m2 + 1 + Z.of_nat i + 1)%Z by lia.
    replace (m3 + Z.of_nat (S i) + 1)%Z with (m3 + 1 + Z.of_nat i + 1)%Z by lia.
    replace (l + Z.of_nat (S i) + 1)%Z with (l + 1 + Z.of_nat i + 1)%Z by lia.
    split; right; right; assumption.
Qed.

(** C5, as amended. For every sequence of names and every transformed mesh,
    [_add_tissues] succeeds and writes a mesh file whose physical groups are
    those of the mesh followed, for each position in order, by exactly one
    group of dimension 2 and one of dimension 3, each wrapping the single
    entity numbered by the 1-based position and named after the tissue at
    that position. The registry holds that pair of groups under the name
    when the name does not occur again later in the sequence; with pairwise
    distinct names every position is tagged as the specification words it. *)
Theorem C5_tissues_tagged_in_order
    (ts : list string) (s : state) (g0 : gmsh_model) :
  tmp_msh s = Some g0 ->
  let m2 := max_physical_tag 2 (g_groups g0) in
  let m3 := max_physical_tag 3 (g_groups g0) in
  exists (s' : state) (g' : gmsh_model),
    _add_tissues ts s = (Ok tt, s')
    /\ mesh_file s' = Some g'
    /\ g_groups g' = g_groups g0 ++ tagged_groups 0 m2 m3 ts
    /\ length (g_groups g') = (length (g_groups g0) + 2 * length ts)%nat
    /\ (forall (l : nat) (t : string), ts !! l = Some t ->
          let entity := (Z.of_nat l + 1)%Z in
          let sg := (m2 + Z.of_nat l + 1)%Z in
          let vg := (m3 + Z.of_nat l + 1)%Z in
          In (mk_PhysicalGroup 2 sg [entity]) (g_groups g')
          /\ In (mk_PhysicalGroup 3 vg [entity]) (g_groups g')
          /\ g_names g' !! (2%Z, sg) = Some t
          /\ g_names g' !! (3%Z, vg) = Some t
          /\ ((forall j, (l < j)%nat -> ts !! j <> Some t) ->
              tissues s' !! t = Some (new_Tissue (mk_Group 2 [entity] sg)
                                                 (mk_Group 3 [entity] vg))))
    /\ (NoDup ts -> tagging_as_stated ts s').
Proof.
  intros Htmp m2 m3.
  set (s0 := set_session (Some g0)
               (log EvMerge (set_session (Some empty_model) (log EvInitialize s)))).
  destruct (add_tissues_loop_spec ts 0%Z s0 g0 eq_refl)
    as (s1 & g' & Hrun & Hs1 & Hg' & Hgroups & _ & _ & Hpos).
  fold m2 m3 in Hgroups, Hpos.
  assert (Hall : forall (l : nat) (t : string), ts !! l = Some t ->
          let entity := (Z.of_nat l + 1)%Z in
          let sg := (m2 + Z.of_nat l + 1)%Z in
          let vg := (m3 + Z.of_nat l + 1)%Z in
          In (mk_PhysicalGroup 2 sg [entity]) (g_groups g')
          /\ In (mk_PhysicalGroup 3 vg [entity]) (g_groups g')
          /\ g_names g' !! (2%Z, sg) = Some t
          /\ g_names g' !! (3%Z, vg) = Some t
          /\ ((forall j, (l < j)%nat -> ts !! j <> Some t) ->
              tissues s1 !! t = Some (new_Tissue (mk_Group 2 [entity] sg)
                                                 (mk_Group 3 [entity] vg)))).
  { intros l t Hl. cbv zeta.
    destruct (tagged_groups_In ts 0%Z m2 m3 l t Hl) as [H2 H3].
    destruct (Hpos l t Hl) as (Hn2 & Hn3 & Hreg). cbv zeta in Hn2, Hn3, Hreg.
    rewrite Hgroups. rewrite !in_app_iff. auto 10. }
  assert (Hsess : session s1 = Some g') by (rewrite Hs1; reflexivity).
  exists (set_session None
            (log EvFinalize (set_mesh_file (Some g') (log EvWrite s1)))), g'.
  split; [|split; [|split; [exact Hgroups|split; [|split]]]].
  - unfold _add_tissues, gmsh_initialize, gmsh_merge_tmp_msh, bind at 1,
      modify at 1. unfold bind at 1, bind at 1, the_model at 1. simpl.
    unfold bind at 1, get at 1. simpl. rewrite Htmp.
    unfold modify at 1. unfold bind at 1. fold s0. rewrite Hrun.
    unfold gmsh_write_mesh_path, gmsh_finalize, bind, the_model, modify.
    rewrite Hsess. simpl. rewrite Hsess. reflexivity.
  - reflexivity.
  - rewrite Hgroups, length_app, tagged_groups_length. reflexivity.
  - exact Hall.
  - intros Hnd l t Hl. destruct (Hall l t Hl) as (H2 & H3 & Hn2 & Hn3 & Hreg).
    exists (m2 + Z.of_nat l + 1)%Z, (m3 + Z.of_nat l + 1)%Z, g'.
    cbv zeta. split; [|split; [reflexivity|tauto]].
    simpl. apply Hreg. intros j Hlt Hj.
    pose proof (NoDup_lookup ts l j t Hnd Hl Hj). lia.
Qed.

(** *** The whole of [mesh_from_array] *)

Lemma bind_Ok {A B : Type} (m : M A) (k : A -> M B) (s : state) (a : A)
    (s1 : state) :
  m s = (Ok a, s1) -> bind m k s = k a s1.
Proof. intros H. unfold bind. now rewrite H. Qed.

Lemma apply_transform_run (affine : matrix) (s : state) (g : gmsh_model) :
  tmp_mesh s = Some g ->
  _apply_transform affine s
  = (Ok tt,
     set_session None
       (log EvFinalize
          (set_tmp_msh (Some (plugin_transform affine g))
             (set_session (Some (plugin_transform affine g))
                (log EvMerge
                   (set_session (Some empty_model) (log EvInitialize s))))))).
Proof.
  intros H. unfold _apply_transform, gmsh_initialize, gmsh_finalize, the_model,
    modify, get, bind. simpl. rewrite H. reflexivity.
Qed.

(** The names the loop of [_add_tissues] leaves: those of the session it
    started from, but for the keys of the groups it has added. *)
Lemma add_tissues_loop_names (ts : list string) :
  forall (l : Z) (s : state) (g g' : gmsh_model),
  session s = Some g ->
  session (snd (_add_tissues_loop l ts s)) = Some g' ->
  forall key : Z * Z,
  ~ In key (map (fun p => (pg_dim p, pg_tag p))
                (tagged_groups l (max_physical_tag 2 (g_groups g))
                                 (max_physical_tag 3 (g_groups g)) ts)) ->
  g_names g' !! key = g_names g !! key.
Proof.
  induction ts as [|t ts IH]; intros l s g g' Hs Hg' key Hkey.
  - simpl in Hg'. congruence.
  - rewrite (add_tissues_loop_step l t ts s g Hs) in Hg'.
    set (m2 := max_physical_tag 2 (g_groups g)) in *.
    set (m3 := max_physical_tag 3 (g_groups g)) in *.
    match type of Hg' with
    | context [set_session (Some ?x) s] => set (g1 := x) in *
    end.
    assert (Hm2 : max_physical_tag 2 (g_groups g1) = (m2 + 1)%Z).
    { apply max_physical_tag_after_step. now left. }
    assert (Hm3 : max_physical_tag 3 (g_groups g1) = (m3 + 1)%Z).
    { apply max_physical_tag_after_step. now right. }
    simpl in Hkey.
    match type of Hg' with
    | context [_add_tissues_loop _ ts ?x] => set (s1 := x) in *
    end.
    rewrite (IH (l + 1)%Z s1 g1 g' eq_refl Hg' key).
    + unfold g1. simpl.
      rewrite !lookup_insert_ne; [reflexivity| |]; intros E; apply Hkey;
        rewrite <- E; auto.
    + rewrite Hm2, Hm3. tauto.
Qed.

(** [_add_tissues] on the transformed mesh [g0]: it succeeds and writes
    [g0] with the groups and the names of the tissues added to it; the
    tissues, the mesh file, the session and the trace apart, nothing
    changes, and every name it is given is registered. *)
Lemma add_tissues_run (ts : list string) (s : state) (g0 : gmsh_model) :
  tmp_msh s = Some g0 ->
  let m2 := max_physical_tag 2 (g_groups g0) in
  let m3 := max_physical_tag 3 (g_groups g0) in
  exists (reg : gmap string Tissue) (g' : gmsh_model),
    _add_tissues ts s
    = (Ok tt,
       set_session None
         (log EvFinalize
            (set_mesh_file (Some g')
               (log EvWrite
                  (set_tissues reg
                     (log EvMerge (log EvInitialize s)))))))
    /\ g' = set_names (g_names g') (set_groups (g_groups g') g0)
    /\ g_groups g' = g_groups g0 ++ tagged_groups 0 m2 m3 ts
    /\ (forall key : Z * Z,
          ~ In key (map (fun p => (pg_dim p, pg_tag p))
                        (tagged_groups 0 m2 m3 ts)) ->
          g_names g' !! key = g_names g0 !! key)
    /\ (forall (l : nat) (t : string), ts !! l = Some t ->
          g_names g' !! (2%Z, (m2 + Z.of_nat l + 1)%Z) = Some t
          /\ g_names g' !! (3%Z, (m3 + Z.of_nat l + 1)%Z) = Some t)
    /\ (forall t, ~ In t ts -> reg !! t = tissues s !! t)
    /\ (forall t, In t ts -> is_Some (reg !! t)).
Proof.
  intros Htmp m2 m3.
  set (s0 := set_session (Some g0)
               (log EvMerge (set_session (Some empty_model) (log EvInitialize s)))).
  destruct (add_tissues_loop_spec ts 0%Z s0 g0 eq_refl)
    as (s1 & g' & Hrun & Hs1 & Hg' & Hgroups & _ & Hframe & Hpos).
  fold m2 m3 in Hgroups, Hpos.
  assert (Hsess : session s1 = Some g') by (rewrite Hs1; reflexivity).
  exists (tissues s1), g'.
  split; [|split; [exact Hg'|split; [exact Hgroups|split; [|split; [|split]]]]].
  - unfold _add_tissues, gmsh_initialize, gmsh_merge_tmp_msh, bind at 1,
      modify at 1. unfold bind at 1, bind at 1, the_model at 1. simpl.
    unfold bind at 1, get at 1. simpl. rewrite Htmp.
    unfold modify at 1. unfold bind at 1. fold s0. rewrite Hrun.
    unfold gmsh_write_mesh_path, gmsh_finalize, bind, the_model, modify.
    rewrite Hs1. simpl. reflexivity.
  - intros key Hkey.
    apply (add_tissues_loop_names ts 0%Z s0 g0 g' eq_refl); [|exact Hkey].
    now rewrite Hrun.
  - intros l t Hl. destruct (Hpos l t Hl) as (H2 & H3 & _). auto.
  - exact Hframe.
  - intros t Hin.
    assert (Hex : exists i, ts !! i = Some t
                            /\ forall j, (i < j)%nat -> ts !! j <> Some t).
    { clear -Hin. induction ts as [|t0 ts IH]; [destruct Hin|].
      destruct (in_dec string_dec t ts) as [Hin'|Hnin].
      - destruct (IH Hin') as (i & Hi & Hlast). exists (S i).
        split; [exact Hi|]. intros [|j] Hlt; [lia|]. apply Hlast. lia.
      - destruct Hin as [->|Hin]; [|contradiction]. exists 0%nat.
        split; [reflexivity|]. intros [|j] Hlt Hj; [lia|].
        apply Hnin, list_elem_of_In, list_elem_of_lookup. eauto. }
    destruct Hex as (i & Hi & Hlast).
    destruct (Hpos i t Hi) as (_ & _ & Hreg). rewrite (Hreg Hlast). eauto.
Qed.

(** [mesh_from_array] past its validation, step by step: the cropped image
    is written, the mesher runs on the cropped labels cast to uint16, the
    mesh is transformed by the affine of the cropped image and tagged, and
    the model is saved. *)
Lemma mesh_from_array_run (labels : ndarray Z) (affine : matrix)
    (ts : list string) (kwargs : Kw) (s : state) (la : ndarray Z * matrix) :
  mesh_from_array_checks labels affine ts = Ok la ->
  let g0 := plugin_transform (snd (crop_img la))
              (generate_from_array (astype_uint16 (fst (crop_img la)))
                                   kwargs) in
  let m2 := max_physical_tag 2 (g_groups g0) in
  let m3 := max_physical_tag 3 (g_groups g0) in
  exists (s' : state) (g' : gmsh_model),
    mesh_from_array labels affine ts kwargs s = (Ok tt, s')
    /\ nii_file s' = Some (crop_img la)
    /\ mesh_params s' = Some kwargs
    /\ mesh_file s' = Some g'
    /\ g' = set_names (g_names g') (set_groups (g_groups g') g0)
    /\ g_groups g' = g_groups g0 ++ tagged_groups 0 m2 m3 ts
    /\ (forall key : Z * Z,
          ~ In key (map (fun p => (pg_dim p, pg_tag p))
                        (tagged_groups 0 m2 m3 ts)) ->
          g_names g' !! key = g_names g0 !! key)
    /\ (forall (l : nat) (t : string), ts !! l = Some t ->
          g_names g' !! (2%Z, (m2 + Z.of_nat l + 1)%Z) = Some t
          /\ g_names g' !! (3%Z, (m3 + Z.of_nat l + 1)%Z) = Some t)
    /\ tmp_mesh s' = None /\ tmp_msh s' = None /\ session s' = None
    /\ sensors s' = sensors s
    /\ (forall t, ~ In t ts -> tissues s' !! t = tissues s !! t)
    /\ (forall t, In t ts -> is_Some (tissues s' !! t))
    /\ trace s' = trace s ++ [EvNiiWrite; EvInitialize; EvMerge; EvFinalize;
                              EvInitialize; EvMerge; EvWrite; EvFinalize;
                              EvSave].
Proof.
  intros Hchecks. cbv zeta. unfold mesh_from_array. rewrite Hchecks.
  set (gen := generate_from_array (astype_uint16 (fst (crop_img la))) kwargs).
  set (g0 := plugin_transform (snd (crop_img la)) gen).
  set (sa := set_nii_file (Some (crop_img la)) (log EvNiiWrite s)).
  set (sb := set_tmp_msh None (set_tmp_mesh None sa)).
  set (sc := set_mesh_params (Some kwargs) (set_tmp_mesh (Some gen) sb)).
  pose proof (apply_transform_run (snd (crop_img la)) sc gen eq_refl) as Htr.
  fold g0 in Htr.
  match type of Htr with
  | _ = (_, ?s1) => set (sd := s1) in *;
      destruct (add_tissues_run ts sd g0 eq_refl)
        as (reg & g' & Hrun & Hg' & Hgroups & Hother & Hnames & Hframe & Hreg)
  end.
  match type of Hrun with _ = (_, ?s1) => set (se := s1) in * end.
  assert (Hbody :
    bind (_gen_init_mesh (astype_uint16 (fst (crop_img la))) kwargs)
         (fun _ => bind (_apply_transform (snd (crop_img la)))
                        (fun _ => _add_tissues ts)) sb
    = (Ok tt, se)).
  { erewrite bind_Ok; [|reflexivity]. fold sc.
    erewrite bind_Ok; [|exact Htr]. exact Hrun. }
  assert (Hwith :
    with_TemporaryDirectory
      (bind (_gen_init_mesh (astype_uint16 (fst (crop_img la))) kwargs)
         (fun _ => bind (_apply_transform (snd (crop_img la)))
                        (fun _ => _add_tissues ts))) sa
    = (Ok tt, set_tmp_msh None (set_tmp_mesh None se))).
  { unfold with_TemporaryDirectory. fold sb. now rewrite Hbody. }
  exists (log EvSave (set_tmp_msh None (set_tmp_mesh None se))), g'.
  split.
  { erewrite bind_Ok; [|reflexivity]. cbv beta zeta.
    erewrite bind_Ok; [|reflexivity]. fold sa.
    erewrite bind_Ok; [|exact Hwith]. reflexivity. }
  split; [reflexivity|]. split; [reflexivity|]. split; [reflexivity|].
  split; [exact Hg'|]. split; [exact Hgroups|]. split; [exact Hother|].
  split; [exact Hnames|].
  split; [reflexivity|]. split; [reflexivity|]. split; [reflexivity|].
  split; [reflexivity|].
  split; [intros t Ht; exact (Hframe t Ht)|].
  split; [exact Hreg|].
  subst se sd sc sb sa. simpl. rewrite <- !app_assoc. reflexivity.
Qed.

(** C10. [mesh_from_array] casts the labels to uint8 before it validates
    anything. When its validation passes, the labels it goes on with are
    the given ones modulo 256, each below 256, and the number of names is
    the maximum of those wrapped labels. The wrapped labels are what the
    rest of the method works on: the call returns, the image it has written
    is the cropping of the wrapped labels, and the mesh it has written has
    the entities, nodes and elements of the mesh generated from the cropped
    wrapped labels (cast to uint16) and transformed by the affine of the
    cropped image. *)
Theorem C10_labels_wrap_modulo_256
    (labels : ndarray Z) (affine : matrix) (ts : list string)
    (l8 : ndarray Z) (a : matrix) :
  mesh_from_array_checks labels affine ts = Ok (l8, a) ->
  data l8 = map (fun v => v mod 256)%Z (data labels)
  /\ Forall (fun v => (0 <= v < 256)%Z) (data l8)
  /\ np_max l8 = Ok (Z.of_nat (length ts))
  /\ (forall (kwargs : Kw) (s : state),
        mesh_from_array labels affine ts kwargs s
        = mesh_from_array l8 affine ts kwargs s)
  /\ (forall (kwargs : Kw) (s : state),
        exists (s' : state) (g' : gmsh_model),
          let cropped := crop_img (l8, a) in
          let g0 := plugin_transform (snd cropped)
                      (generate_from_array (astype_uint16 (fst cropped))
                                           kwargs) in
          mesh_from_array labels affine ts kwargs s = (Ok tt, s')
          /\ nii_file s' = Some cropped
          /\ mesh_params s' = Some kwargs
          /\ mesh_file s' = Some g'
          /\ g_entities g' = g_entities g0
          /\ g_nodes g' = g_nodes g0
          /\ g_elems g' = g_elems g0).
Proof.
  intros H. pose proof H as H0.
  destruct (checks_inv _ _ _ _ _ H) as (-> & -> & Hm).
  split; [reflexivity|]. split; [|split; [exact Hm|split]].
  - simpl. apply List.Forall_forall. intros v Hv.
    apply in_map_iff in Hv. destruct Hv as (w & <- & _).
    apply Z.mod_pos_bound. lia.
  - intros kwargs s. unfold mesh_from_array, mesh_from_array_checks.
    now rewrite astype_uint8_idempotent.
  - intros kwargs s.
    destruct (mesh_from_array_run labels affine ts kwargs s _ H0)
      as (s' & g' & Hrun & Hnii & Hpar & Hfile & Hg' & _).
    exists s', g'. cbv zeta.
    split; [exact Hrun|]. split; [exact Hnii|]. split; [exact Hpar|].
    split; [exact Hfile|]. rewrite Hg'. repeat split.
Qed.

(** *** Read-only computations *)

Lemma readonly_ret {A : Type} (a : A) : readonly (ret a).
Proof. intros s. reflexivity. Qed.

Lemma readonly_raise {A : Type} (e : exn) : readonly (@raise _ _ A e).
Proof. intros s. reflexivity. Qed.

Lemma readonly_lift {A : Type} (r : result A) : readonly (lift r).
Proof. intros s. reflexivity. Qed.

Lemma readonly_get : readonly get.
Proof. intros s. reflexivity. Qed.

Lemma readonly_the_model : readonly the_model.
Proof. intros s. unfold the_model. destruct (session s); reflexivity. Qed.

Lemma readonly_bind {A B : Type} (m : M A) (k : A -> M B) :
  readonly m -> (forall a, readonly (k a)) -> readonly (bind m k).
Proof.
  intros Hm Hk s. unfold bind. specialize (Hm s).
  destruct (m s) as [[a|e] s1]; simpl in Hm; subst s1; [apply Hk|reflexivity].
Qed.

Lemma readonly_mapM {A B : Type} (f : A -> M B) (l : list A) :
  (forall x, readonly (f x)) -> readonly (mapM f l).
Proof.
  intros Hf. induction l as [|x l IH]; simpl; [apply readonly_ret|].
  apply readonly_bind; [apply Hf|]. intros y.
  apply readonly_bind; [exact IH|]. intros ys. apply readonly_ret.
Qed.

Lemma readonly_tissue_entities (tissue : string) (dim : Z) :
  readonly (tissue_entities tissue dim).
Proof. intros s. apply tissue_entities_readonly. Qed.

Lemma readonly_getElements (dim tag : Z) : readonly (getElements dim tag).
Proof.
  apply readonly_bind; [apply readonly_the_model|]. intros g.
  destruct (g_elems g !! (dim, tag)); [apply readonly_ret|apply readonly_raise].
Qed.

Lemma readonly_getBarycenters (dim tag : Z) : readonly (getBarycenters dim tag).
Proof.
  apply readonly_bind; [apply readonly_the_model|]. intros g.
  destruct (g_elems g !! (dim, tag)); [apply readonly_ret|apply readonly_raise].
Qed.

Lemma readonly_get_tissue_elems (tissue : string) (dim : Z) :
  readonly (_get_tissue_elems tissue dim).
Proof.
  apply readonly_bind; [apply readonly_tissue_entities|]. intros es.
  apply readonly_bind; [apply readonly_mapM, readonly_getElements|].
  intros arrays. apply readonly_lift.
Qed.

Lemma readonly_get_tissue_elems_coords (tissue : string) (dim : Z) :
  readonly (_get_tissue_elems_coords tissue dim).
Proof.
  apply readonly_bind; [apply readonly_tissue_entities|]. intros es.
  apply readonly_bind; [apply readonly_mapM, readonly_getBarycenters|].
  intros arrays. apply readonly_bind; [apply readonly_lift|].
  intros flat. apply readonly_lift.
Qed.

(** A computation whose result is known and that is read-only. *)
Lemma run_readonly {A : Type} (m : M A) (s : state) (r : result A) :
  readonly m -> fst (m s) = r -> m s = (r, s).
Proof.
  intros Hro Hr. specialize (Hro s). destruct (m s) as [r' s'].
  simpl in *. now subst.
Qed.

(** *** Rows of a reshaped array *)

Lemma chunks_cons {A : Type} (fuel n : nat) (x : A) (l : list A) :
  chunks (S fuel) n (x :: l)
  = if (length (x :: l) <? n)%nat
    then Raise (ValueError "cannot reshape array")
    else rbind (chunks fuel n (skipn n (x :: l)))
               (fun rows => Ok (firstn n (x :: l) :: rows)).
Proof. reflexivity. Qed.

Lemma chunks_rows_length {A : Type} (n fuel : nat) :
  forall (l : list A) (rows : list (list A)),
  chunks fuel n l = Ok rows -> Forall (fun r => length r = n) rows.
Proof.
  induction fuel as [|fuel IH]; intros l rows H.
  - destruct l; simpl in H; [|discriminate]. injection H as <-. constructor.
  - destruct l as [|x l]; [simpl in H; injection H as <-; constructor|].
    rewrite chunks_cons in H.
    destruct (length (x :: l) <? n)%nat eqn:Hlt; [discriminate|].
    apply Nat.ltb_ge in Hlt.
    destruct (chunks fuel n (skipn n (x :: l))) as [rows'|e] eqn:E;
      simpl in H; [|discriminate].
    injection H as <-. constructor; [|now apply IH in E].
    rewrite length_firstn. lia.
Qed.

Lemma reshape_rows_length {A : Type} (n : nat) (l : list A)
    (rows : list (list A)) :
  reshape_rows n l = Ok rows -> Forall (fun r => length r = n) rows.
Proof.
  destruct n as [|n]; simpl.
  - destruct l; intros H; [|discriminate]. injection H as <-. constructor.
  - apply chunks_rows_length.
Qed.

(** *** Interpolation of a voxel grid *)

Lemma ascending_insert_above (l : list F) :
  forall x y : F,
  flt y x = true ->
  strictly_ascending (y :: l) = true ->
  strictly_ascending (y :: insert_unique x l) = true.
Proof.
  induction l as [|z l IH]; intros x y Hyx Hasc.
  - simpl. now rewrite Hyx.
  - simpl in Hasc. apply andb_true_iff in Hasc. destruct Hasc as [Hyz Hasc].
    simpl insert_unique. destruct (flt x z) eqn:Hxz.
    + simpl. rewrite Hyx, Hxz. exact Hasc.
    + destruct (flt z x) eqn:Hzx.
      * change (flt y z && strictly_ascending (z :: insert_unique x l) = true).
        rewrite Hyz. simpl. now apply IH.
      * simpl. rewrite Hyz. exact Hasc.
Qed.

Lemma ascending_insert (l : list F) (x : F) :
  strictly_ascending l = true -> strictly_ascending (insert_unique x l) = true.
Proof.
  intros Hasc. destruct l as [|y l]; [reflexivity|].
  simpl insert_unique. destruct (flt x y) eqn:Hxy.
  - change (flt x y && strictly_ascending (y :: l) = true).
    now rewrite Hxy.
  - destruct (flt y x) eqn:Hyx; [now apply ascending_insert_above|exact Hasc].
Qed.

Lemma np_unique_ascending (l : list F) : strictly_ascending (np_unique l) = true.
Proof.
  induction l as [|x l IH]; [reflexivity|]. simpl. now apply ascending_insert.
Qed.

Lemma insert_unique_In (l : list F) (x y : F) :
  In y (insert_unique x l) -> y = x \/ In y l.
Proof.
  induction l as [|z l IH]; simpl.
  - intros [<-|[]]. now left.
  - destruct (flt x z).
    + intros [<-|H]; [now left|now right].
    + destruct (flt z x); [|now right].
      intros [<-|H]; [right; now left|].
      destruct (IH H) as [->|H']; [now left|right; now right].
Qed.

Lemma np_unique_In (l : list F) (y : F) : In y (np_unique l) -> In y l.
Proof.
  induction l as [|x l IH]; simpl; [tauto|].
  intros H. apply insert_unique_In in H. destruct H as [->|H]; auto.
Qed.

Lemma out_of_bounds_ok (grid : list (list F)) :
  Forall (fun g => g <> []) grid ->
  forall p, exists b, out_of_bounds grid p = Ok b.
Proof.
  induction 1 as [|g grid Hg _ IH]; intros p; [now exists false|].
  destruct p as [|x p]; [now exists false|]. simpl.
  destruct g as [|g0 g]; [congruence|]. simpl.
  destruct (IH p) as [b ->]. simpl. eauto.
Qed.

Lemma mapR_ok {A B : Type} (f : A -> result B) (l : list A) :
  (forall x, In x l -> exists y, f x = Ok y) ->
  exists ys, mapR f l = Ok ys
    /\ length ys = length l
    /\ (forall i x, l !! i = Some x ->
          exists y, ys !! i = Some y /\ f x = Ok y).
Proof.
  induction l as [|x l IH]; intros Hf.
  - exists []. split; [reflexivity|]. split; [reflexivity|]. intros i x H.
    discriminate.
  - destruct (Hf x (or_introl eq_refl)) as [y Hy].
    destruct IH as (ys & Hys & Hlen & Hget).
    { intros z Hz. apply Hf. now right. }
    exists (y :: ys). simpl. rewrite Hy, Hys. simpl.
    split; [reflexivity|]. split; [now rewrite Hlen|].
    intros [|i] z Hz; simpl in Hz.
    + injection Hz as <-. eauto.
    + now apply Hget.
Qed.

Lemma assign_all_lookup (rows : list (list F)) (mask : list bool)
    (v r : list F) (b : bool) (i : nat) :
  rows !! i = Some r -> mask !! i = Some b ->
  assign_all rows mask v !! i = Some (if b then v else r).
Proof.
  revert mask i. induction rows as [|r0 rows IH]; intros mask i Hr Hm;
    [discriminate|].
  destruct mask as [|b0 mask]; [discriminate|].
  destruct i as [|i]; simpl in *.
  - injection Hr as <-. injection Hm as <-. reflexivity.
  - now apply IH.
Qed.

Lemma assign_all_length (rows : list (list F)) (mask : list bool) (v : list F) :
  length mask = length rows -> length (assign_all rows mask v) = length rows.
Proof.
  intros H. unfold assign_all. rewrite length_map, length_combine. lia.
Qed.

Lemma assign_fill_fits (trailing : option nat) (rows : list (list F))
    (mask : list bool) (fill : list F) :
  fill_fits trailing fill ->
  assign_fill trailing rows mask fill = Ok (assign_all rows mask fill).
Proof.
  unfold fill_fits, assign_fill. destruct trailing as [c|]; intros H.
  - now rewrite H, Nat.eqb_refl.
  - destruct fill as [|x [|y fill]]; simpl in H; try discriminate. reflexivity.
Qed.

(** C8. [_interp_field] builds its interpolant over the sorted distinct
    values of each coordinate axis (strictly ascending lists of values of
    the coordinates), asked not to fail on bounds and to fill with
    [fill_val]. When the field has as many grid points per axis as there are
    distinct coordinates (none of them zero) and [fill_val] has the arity of
    the field's values, the interpolation succeeds under either method and
    returns, in the order of the tissue's volume elements, one value per
    barycenter: exactly [fill_val] where the barycenter is outside the
    bounds of the grid, and the interpolated value elsewhere. *)
Theorem C8_out_of_bounds_barycenters_get_fill
    (tissue : string) (coords : list (list F)) (field : ndarray F)
    (method : interp_method) (fill_val : list F)
    (s : state) (file : gmsh_model) (tags : list Z) (bary : list (list F))
    (n0 n1 n2 : nat) (rest : list nat) :
  let x := np_unique (column 0 coords) in
  let y := np_unique (column 1 coords) in
  let z := np_unique (column 2 coords) in
  mesh_file s = Some file ->
  fst (_get_tissue_vol_elems tissue (opened file s)) = Ok tags ->
  fst (_get_tissue_vol_elems_coords tissue (opened file s)) = Ok bary ->
  shape field = n0 :: n1 :: n2 :: rest ->
  length x = n0 -> length y = n1 -> length z = n2 ->
  n0 <> 0%nat -> n1 <> 0%nat -> n2 <> 0%nat ->
  fill_fits (trailing_of 3 field) fill_val ->
  Forall (fun g => strictly_ascending g = true /\ forall v, In v g ->
            exists row, In row coords /\ In v row) [x; y; z]
  /\ exists (vals : list (list F)) (s' : state),
       _interp_field tissue coords field method fill_val s
         = (Ok (tags, vals), s')
       /\ length vals = length bary
       /\ (forall i p, bary !! i = Some p ->
             (out_of_bounds [x; y; z] p = Ok true ->
                vals !! i = Some fill_val)
             /\ (out_of_bounds [x; y; z] p = Ok false ->
                vals !! i = Some (interpolate_at method [x; y; z] field p))).
Proof.
  intros x y z Hfile Htags Hbary Hshape Hx Hy Hz Hn0 Hn1 Hn2 Hfit.
  split.
  { assert (Hcol : forall j v, In v (np_unique (column j coords)) ->
                     exists row, In row coords /\ In v row).
    { intros j v Hv. apply np_unique_In in Hv. unfold column in Hv.
      apply list_elem_of_In, list_elem_of_omap in Hv.
      destruct Hv as (row & Hrow & Hj). exists row.
      split; [now apply list_elem_of_In|].
      apply list_elem_of_In. eapply list_elem_of_lookup_2. exact Hj. }
    repeat constructor; try apply np_unique_ascending; apply Hcol. }
  assert (Hne : Forall (fun g : list F => g <> []) [x; y; z]).
  { repeat constructor; intros E; [rewrite E in Hx|rewrite E in Hy|rewrite E in Hz];
      simpl in *; congruence. }
  assert (Hrows : Forall (fun r : list F => length r = 3%nat) bary).
  { unfold _get_tissue_vol_elems_coords, _get_tissue_elems_coords in Hbary.
    unfold bind in Hbary.
    destruct (tissue_entities tissue 3 (opened file s)) as [[es|e] s1];
      [|discriminate].
    destruct (mapM (getBarycenters 3) es s1) as [[arrays|e] s2]; [|discriminate].
    unfold lift in Hbary. simpl in Hbary.
    destruct (np_hstack arrays) as [flat|e]; [|discriminate].
    now apply (reshape_rows_length 3 flat). }
  destruct (mapR_ok (out_of_bounds [x; y; z]) bary) as (oob & Hoob & Hlen & Hget).
  { intros p _. apply out_of_bounds_ok, Hne. }
  set (vals := map (interpolate_at method [x; y; z] field) bary).
  exists (assign_all vals oob fill_val),
         (set_session None (log EvFinalize (opened file s))).
  split; [|split].
  - unfold _interp_field. fold x y z.
    unfold new_RegularGridInterpolator, ndim. rewrite Hshape. simpl.
    unfold x at 1, y at 1, z at 1. rewrite !np_unique_ascending. simpl.
    fold x y z. rewrite Hx, Hy, Hz, !Nat.eqb_refl. simpl.
    unfold bind at 1, lift at 1.
    unfold bind at 1, gmsh_initialize at 1, modify at 1.
    unfold bind at 1, gmsh_open_mesh_path at 1, bind at 1, the_model at 1.
    simpl. unfold bind at 1, get at 1. simpl. rewrite Hfile.
    unfold modify at 1. fold (opened file s).
    unfold bind at 1.
    rewrite (run_readonly (_get_tissue_vol_elems tissue) _ _
               (readonly_get_tissue_elems tissue 3) Htags).
    unfold bind at 1.
    rewrite (run_readonly (_get_tissue_vol_elems_coords tissue) _ _
               (readonly_get_tissue_elems_coords tissue 3) Hbary).
    unfold bind at 1, gmsh_finalize at 1, bind at 1, the_model at 1. simpl.
    unfold bind, lift, ret, rgi_call. cbn -[out_of_bounds].
    replace (forallb (fun p : list F => (length p =? 3)%nat) bary) with true.
    2:{ symmetry. apply forallb_forall. intros p Hp.
        rewrite List.Forall_forall in Hrows. rewrite (Hrows p Hp). reflexivity. }
    cbn -[out_of_bounds]. rewrite Hoob. cbn -[out_of_bounds].
    rewrite (assign_fill_fits _ _ _ _ Hfit). reflexivity.
  - rewrite assign_all_length; unfold vals; rewrite length_map; [reflexivity|].
    exact Hlen.
  - intros i p Hp. destruct (Hget i p Hp) as (b & Hb & Hpb).
    assert (Hv : vals !! i = Some (interpolate_at method [x; y; z] field p)).
    { unfold vals. now rewrite list_lookup_fmap, Hp. }
    rewrite (assign_all_lookup _ _ _ _ _ _ Hv Hb).
    split; intros Ho; rewrite Ho in Hpb; injection Hpb as <-; reflexivity.
Qed.

(** *** Failures *)

(** [add_point_sensor] refuses a name in use before it touches anything. *)
Lemma add_point_sensor_rejects_known_name
    (name : string) (coords : list F) (tissue : string) (dim : Z)
    (s : state) (p : PointSensor) :
  sensors s !! name = Some p ->
  add_point_sensor name coords tissue dim s
  = (Raise (ValueError ("Sensor '" ++ name ++ "' already exists in model.")), s).
Proof.
  intros H. unfold add_point_sensor, bind, get, raise. now rewrite H.
Qed.

(** [_fill_empty_field_elems] fails on its debug message as soon as one
    element of the tissue is to be filled. *)
Lemma fill_empty_field_elems_raises
    (tissue : string) (elems_tags : list Z) (elems_vals : list F)
    (n_vals : nat) (fill_val : list F) (s : state) (all : list Z) :
  fst (_get_tissue_vol_elems tissue s) = Ok all ->
  np_any (isin_invert all elems_tags) = true ->
  _fill_empty_field_elems tissue elems_tags elems_vals n_vals fill_val s
  = (Raise (AttributeError "'tuple' object has no attribute 'size'"), s).
Proof.
  intros Hall Hany. unfold _fill_empty_field_elems, bind.
  rewrite (run_readonly (_get_tissue_vol_elems tissue) _ _
             (readonly_get_tissue_elems tissue 3) Hall).
  rewrite Hany. reflexivity.
Qed.

(** [field_from_nii] fails on the name [tissues] once the image is loaded. *)
Lemma field_from_nii_raises
    (name nii_path tissue : string) (fill_val : list F) (formula : string)
    (nearest_flag : bool) (s : state) (img : ndarray F * matrix) :
  nib_load nii_path = Some img ->
  field_from_nii name nii_path tissue fill_val formula nearest_flag s
  = (Raise (NameError "name 'tissues' is not defined"), s).
Proof.
  intros H. unfold field_from_nii. rewrite H. reflexivity.
Qed.

End Properties.

(** ** The properties on the example data *)

Lemma Qltb_lt (a b : Q) : Qltb a b = true <-> (a < b)%Q.
Proof.
  unfold Qltb. rewrite negb_true_iff. split.
  - intros H. apply Qnot_le_lt. intros Hle. apply Qle_bool_iff in Hle. congruence.
  - intros Hlt. destruct (Qle_bool b a) eqn:E; [|reflexivity].
    apply Qle_bool_iff in E. exfalso. now apply (Qlt_not_le a b).
Qed.

Lemma Qltb_ge (a b : Q) : Qltb a b = false <-> (b <= a)%Q.
Proof.
  unfold Qltb. rewrite negb_false_iff. apply Qle_bool_iff.
Qed.

Lemma Q_no_nan : @no_nan QFloat.
Proof.
  split; [|split]; simpl.
  - intros a. apply Qltb_ge, Qle_refl.
  - intros a b c Hab Hbc. apply Qltb_lt in Hab, Hbc. apply Qltb_lt.
    now apply (Qlt_trans a b c).
  - intros a b c Hab Hbc. apply Qltb_ge in Hab, Hbc. apply Qltb_ge.
    now apply (Qle_trans c b a).
Qed.


(** C7 on the head model: with groups tagged 1 and 1, the group of the new
    sensor is tagged 2. *)
Lemma C7_witness :
  exists (entity : Z) (s' : state),
    _add_point_sensor_on_node "Cz" 11 [2; 0; 0]%Q (opened head_mesh head)
    = (Ok (entity, 2%Z), s').
Proof.
  destruct (C7_sensor_group_is_max_plus_one
              (fl := QFloat) (bk := QBackend)
              "Cz" 11 [2; 0; 0]%Q (opened head_mesh head) head_mesh)
    as (entity & group_id & s' & g' & Hrun & _ & Hmax & _).
  - reflexivity.
  - discriminate.
  - repeat constructor.
  - change (Ok 1%Z = Ok (group_id - 1)%Z) in Hmax. injection Hmax as Hmax.
    assert (group_id = 2%Z) as -> by lia.
    exists entity, s'. exact Hrun.
Defined.

(** C10 on a 16-bit volume holding the label 257: with one name the
    validation passes, on the labels 0 and 1, and the image the call writes
    holds the labels 0 and 1. *)
Lemma C10_witness :
  In 257%Z (data labels_0_257)
  /\ data (astype_uint8 labels_0_257) = [0; 1]%Z
  /\ np_max (astype_uint8 labels_0_257) = Ok (Z.of_nat (length ["skin"]))
  /\ exists s' : state,
       mesh_from_array labels_0_257 identity4 ["skin"] tt head = (Ok tt, s')
       /\ nii_file s'
          = Some (mk_ndarray [1; 1; 2]%nat [0; 1]%Z, to_meters identity4).
Proof.
  destruct (C10_labels_wrap_modulo_256
              (fl := QFloat) (bk := QBackend)
              labels_0_257 identity4 ["skin"]
              (astype_uint8 labels_0_257) (to_meters identity4))
    as (Hdata & _ & Hmax & _ & Hrun).
  - vm_compute. reflexivity.
  - split; [simpl; auto|]. split; [exact Hdata|]. split; [exact Hmax|].
    destruct (Hrun tt head) as (s' & g' & Hs' & Hnii & _).
    exists s'. split; [exact Hs'|exact Hnii].
Defined.

(** C4 on a volume labelled 0, 1 and 2: two names pass, one or three fail
    on the count. *)
Lemma C4_witness :
  is_Ok (mesh_from_array_checks labels_0_1_2 identity4 ["skin"; "skull"]) = true
  /\ mesh_from_array_checks labels_0_1_2 identity4 ["skin"]
     = Raise count_mismatch
  /\ mesh_from_array_checks labels_0_1_2 identity4 ["skin"; "skull"; "brain"]
     = Raise count_mismatch.
Proof.
  assert (H : forall ts : list string,
             np_max (astype_uint8 labels_0_1_2) = Ok (Z.of_nat 2)
             /\ (length ts = 2%nat ->
                 mesh_from_array_checks labels_0_1_2 identity4 ts
                 = Ok (astype_uint8 labels_0_1_2, to_meters identity4))
             /\ (length ts <> 2%nat ->
                 mesh_from_array_checks labels_0_1_2 identity4 ts
                 = Raise count_mismatch)).
  { intros ts.
    apply (C4_names_must_number_the_max_label
             (fl := QFloat) labels_0_1_2 identity4 ts 2).
    - reflexivity.
    - reflexivity.
    - discriminate.
    - simpl. intros v [<-|[<-|[<-|[]]]]; lia.
    - vm_compute. reflexivity.
    - lia. }
  split; [|split].
  - destruct (H ["skin"; "skull"]) as (_ & Hok & _). now rewrite Hok.
  - destruct (H ["skin"]) as (_ & _ & Hbad). apply Hbad. simpl. lia.
  - destruct (H ["skin"; "skull"; "brain"]) as (_ & _ & Hbad). apply Hbad.
    simpl. lia.
Defined.

(** C4 as stated fails on a volume labelled 0 and 2: it has one distinct
    nonzero label, and one name does not pass. *)
Lemma C4_counterexample : ~ count_rule_as_stated labels_0_2 identity4.
Proof.
  intros H. destruct (H ["skin"]) as [Hok _].
  specialize (Hok eq_refl). vm_compute in Hok. discriminate.
Qed.

(** C5 on two distinct names: both positions end tagged. *)
Lemma C5_witness :
  tagging_as_stated ["skin"; "skull"]
                    (snd (_add_tissues ["skin"; "skull"] untagged)).
Proof.
  destruct (C5_tissues_tagged_in_order
              (fl := QFloat) (bk := QBackend)
              ["skin"; "skull"] untagged untagged_mesh eq_refl)
    as (s' & g' & Hrun & _ & _ & _ & _ & Hstated).
  rewrite Hrun. simpl. apply Hstated.
  apply NoDup_cons. split; [|apply NoDup_singleton].
  intros H. apply list_elem_of_singleton in H. discriminate.
Defined.

(** C5 as stated fails on a name given twice: the registry keeps for it the
    groups of entity 2, so that position 1 is not tagged. *)
Lemma C5_counterexample :
  ~ tagging_as_stated ["skin"; "skin"]
                      (snd (_add_tissues ["skin"; "skin"] untagged)).
Proof.
  intros H. destruct (H 0%nat "skin" eq_refl) as (sg & vg & g' & Hreg & _).
  vm_compute in Hreg. congruence.
Qed.

(** C8 on a field of one voxel at the origin: the three barycenters of the
    scalp lie outside the grid and get the fill. *)
Lemma C8_witness :
  exists (s' : state),
    _interp_field "scalp" [[0; 0; 0]]%Q one_voxel nearest [0]%Q head
    = (Ok ([100; 101; 102]%Z, [[0]; [0]; [0]]%Q), s').
Proof.
  destruct (C8_out_of_bounds_barycenters_get_fill
              (fl := QFloat) (bk := QBackend)
              "scalp" [[0; 0; 0]]%Q one_voxel nearest [0]%Q head head_mesh
              [100; 101; 102]%Z [[1; 1; 1]; [2; 2; 2]; [9; 9; 9]]%Q
              1%nat 1%nat 1%nat [])
    as (_ & vals & s' & Hrun & Hlen & Hvals).
  - reflexivity.
  - vm_compute. reflexivity.
  - vm_compute. reflexivity.
  - reflexivity.
  - reflexivity.
  - reflexivity.
  - reflexivity.
  - discriminate.
  - discriminate.
  - discriminate.
  - reflexivity.
  - exists s'. rewrite Hrun. do 2 f_equal. f_equal.
    destruct (Hvals 0%nat [1; 1; 1]%Q eq_refl) as [H0 _].
    destruct (Hvals 1%nat [2; 2; 2]%Q eq_refl) as [H1 _].
    destruct (Hvals 2%nat [9; 9; 9]%Q eq_refl) as [H2 _].
    specialize (H0 eq_refl). specialize (H1 eq_refl). specialize (H2 eq_refl).
    destruct vals as [|v0 [|v1 [|v2 [|v3 vals]]]]; simpl in Hlen; try discriminate.
    simpl in H0, H1, H2.
    injection H0 as ->. injection H1 as ->. injection H2 as ->. reflexivity.
Defined.

(** C2 at a failing input. The scalp has the tetrahedra 100, 101 and 102; a
    scalar field given on element 100 only, with fill 0, is refused: the
    call ends on the [AttributeError] of the debug message, after the mesh
    file has been opened, no field is registered and the mesh file is as it
    was. Behind that message, a fill of three components cannot be
    broadcast to the slots of two elements either. *)
Theorem C2_fill_of_missing_elements_fails :
  let r := field_from_elems "sigma" "scalp" [100]%Z [5]%Q (Some [0]%Q) "1" head in
  fst r = Raise (AttributeError "'tuple' object has no attribute 'size'")
  /\ trace (snd r) = [EvInitialize; EvOpen]
  /\ tissues (snd r) = tissues head
  /\ mesh_file (snd r) = mesh_file head
  /\ is_Ok (broadcast_to_row [1; 2; 3]%Q (2 * 3)) = false.
Proof. vm_compute. repeat split; reflexivity. Qed.

(** C3 at a failing input. Four values for three elements are not a whole
    number of values per element, yet the quotient truncates to 1: the
    arity check passes and classifies the field as scalar, and the call
    does not end on an arity error. *)
Theorem C3_truncated_quotient_passes_as_scalar :
  field_from_elems_arity [100; 101; 102]%Z [1; 2; 3; 4]%Q (Some [0]%Q)
  = Ok (1%nat, SCALAR, [0]%Q)
  /\ (let r := fst (field_from_elems "sigma" "scalp" [100; 101; 102]%Z
                                     [1; 2; 3; 4]%Q (Some [0]%Q) "1" head) in
      r <> Raise elems_vals_arity /\ r <> Raise fill_val_arity).
Proof.
  split; [vm_compute; reflexivity|].
  vm_compute. split; discriminate.
Qed.

(** C6 at a failing input. On the head model that already has the sensor
    [Cz], [add_point_sensor] refuses the name and leaves the state as it
    is, but the batch [add_point_sensors] given the same name succeeds: it
    opens and writes the mesh file, which gains a physical group, and
    replaces the sensor of the registry (node 11) by a new one (node 12). *)
Theorem C6_batch_placement_overwrites_known_name :
  let single := add_point_sensor "Cz" [4000; 0; 0]%Q "scalp" 2 head_Cz in
  let batch := add_point_sensors [("Cz", [4000; 0; 0]%Q)] "scalp" 2 head_Cz in
  single = (Raise (ValueError "Sensor 'Cz' already exists in model."), head_Cz)
  /\ fst batch = Ok tt
  /\ trace (snd batch)
     = trace head_Cz ++ [EvInitialize; EvOpen; EvWrite; EvFinalize; EvSave]
  /\ option_map ps_node_tag (sensors head_Cz !! "Cz") = Some 11%Z
  /\ option_map ps_node_tag (sensors (snd batch) !! "Cz") = Some 12%Z
  /\ option_map (fun g => length (g_groups g)) (mesh_file head_Cz) = Some 3%nat
  /\ option_map (fun g => length (g_groups g)) (mesh_file (snd batch))
     = Some 4%nat.
Proof.
  cbv zeta. split.
  - apply (add_point_sensor_rejects_known_name
             (fl := QFloat) (bk := QBackend) "Cz" [4000; 0; 0]%Q "scalp" 2
             head_Cz
             (mk_PointSensor (fl := QFloat) "scalp"
                             (map (Qmult (1 # 1000)) [1000; 0; 0]%Q)
                             [2; 0; 0]%Q (mk_Group 0 [1%Z] 2) 11)).
    vm_compute. reflexivity.
  - vm_compute. repeat split; reflexivity.
Qed.

(** C9 at a failing input. On the head model, [field_from_nii] ends on the
    [NameError] of [tissues] and leaves the state as it is, where
    [field_from_array], given the data and the affine of the image and the
    same other arguments, succeeds and registers the field. *)
Theorem C9_field_from_nii_raises_NameError :
  let img := (one_voxel, identity4) in
  let wrapper := field_from_nii "sigma" "sigma.nii" "scalp" [0]%Q "1" true head in
  let direct := field_from_array "sigma" (fst img) (snd img) "scalp" [0]%Q "1"
                                 true head in
  nib_load "sigma.nii" = Some img
  /\ wrapper = (Raise (NameError "name 'tissues' is not defined"), head)
  /\ fst direct = Ok tt
  /\ option_map (fun t => option_map field_type (fields t !! "sigma"))
                (tissues (snd direct) !! "scalp") = Some (Some SCALAR).
Proof.
  cbv zeta. split; [reflexivity|]. split.
  - apply (field_from_nii_raises (fl := QFloat) (bk := QBackend)
             "sigma" "sigma.nii" "scalp" [0]%Q "1" true head
             (one_voxel, identity4)).
    reflexivity.
  - vm_compute. split; reflexivity.
Qed.


(** ** Further properties of the methods *)

Section Coverage.

Context {fl : Float} {bk : Backend}.

(** *** Computations that touch the session only *)

Lemma in_session_ret {A : Type} (a : A) : in_session (ret a).
Proof. intros s. now destruct s. Qed.

Lemma in_session_raise {A : Type} (e : exn) : in_session (@raise _ _ A e).
Proof. intros s. now destruct s. Qed.

Lemma in_session_lift {A : Type} (r : result A) : in_session (lift r).
Proof. intros s. now destruct s. Qed.

Lemma in_session_get : in_session get.
Proof. intros s. now destruct s. Qed.

Lemma in_session_the_model : in_session the_model.
Proof. intros s. unfold the_model. destruct (session s) eqn:E; now destruct s. Qed.

Lemma in_session_put_model (g : gmsh_model) : in_session (put_model g).
Proof. intros s. reflexivity. Qed.

Lemma in_session_bind {A B : Type} (m : M A) (k : A -> M B) :
  in_session m -> (forall a, in_session (k a)) -> in_session (bind m k).
Proof.
  intros Hm Hk s. unfold bind. specialize (Hm s).
  destruct (m s) as [[a|e] s1]; simpl in Hm; [|exact Hm].
  specialize (Hk a s1). rewrite Hk. rewrite Hm at 2. reflexivity.
Qed.

Lemma in_session_mapM {A B : Type} (f : A -> M B) (l : list A) :
  (forall x, in_session (f x)) -> in_session (mapM f l).
Proof.
  intros Hf. induction l as [|x l IH]; simpl; [apply in_session_ret|].
  apply in_session_bind; [apply Hf|]. intros y.
  apply in_session_bind; [exact IH|]. intros ys. apply in_session_ret.
Qed.

Lemma in_session_readonly {A : Type} (m : M A) : readonly m -> in_session m.
Proof. intros H s. rewrite (H s). now destruct s. Qed.

Ltac in_session_step :=
  first
    [ apply in_session_ret | apply in_session_raise | apply in_session_lift
    | apply in_session_get | apply in_session_the_model
    | apply in_session_put_model
    | apply in_session_bind; [|intros ?] ].

Lemma in_session_addPhysicalGroup (dim : Z) (tags : list Z) (tag : Z) :
  in_session (addPhysicalGroup dim tags tag).
Proof.
  unfold addPhysicalGroup. in_session_step; [in_session_step|].
  destruct (has_physical _ _ _); repeat in_session_step.
Qed.

Lemma in_session_setPhysicalName (dim tag : Z) (name : string) :
  in_session (setPhysicalName dim tag name).
Proof. unfold setPhysicalName. repeat in_session_step. Qed.

Lemma in_session_getPhysicalGroups : in_session getPhysicalGroups.
Proof. unfold getPhysicalGroups. repeat in_session_step. Qed.

Lemma in_session_addDiscreteEntity (dim : Z) : in_session (addDiscreteEntity dim).
Proof. unfold addDiscreteEntity. repeat in_session_step. Qed.

Lemma in_session_addNodes (dim tag : Z) (nodeTags : list Z) (coord : list F) :
  in_session (addNodes dim tag nodeTags coord).
Proof. unfold addNodes. repeat in_session_step. Qed.

Lemma in_session_addPointElement (tag node : Z) :
  in_session (addPointElement tag node).
Proof. unfold addPointElement. repeat in_session_step. Qed.

Lemma in_session_removeDuplicateNodes : in_session removeDuplicateNodes.
Proof. unfold removeDuplicateNodes. repeat in_session_step. Qed.

Lemma in_session_add_point_sensor_on_node (name : string) (node_tag : Z)
    (node_coords : list F) :
  in_session (_add_point_sensor_on_node name node_tag node_coords).
Proof.
  unfold _add_point_sensor_on_node.
  in_session_step; [apply in_session_addDiscreteEntity|].
  in_session_step; [apply in_session_addNodes|].
  in_session_step; [apply in_session_addPointElement|].
  in_session_step; [apply in_session_getPhysicalGroups|].
  in_session_step; [apply in_session_lift|].
  in_session_step; [apply in_session_addPhysicalGroup|].
  in_session_step; [apply in_session_setPhysicalName|].
  apply in_session_ret.
Qed.

Lemma add_point_sensor_on_node_session (name : string) (node_tag : Z)
    (node_coords : list F) (s s1 : state) (eg : Z * Z) :
  _add_point_sensor_on_node name node_tag node_coords s = (Ok eg, s1) ->
  exists g1, session s1 = Some g1.
Proof.
  unfold _add_point_sensor_on_node, addDiscreteEntity, addNodes,
    addPointElement, getPhysicalGroups, addPhysicalGroup, setPhysicalName,
    put_model, modify, the_model, bind, ret, lift, raise.
  destruct (session s) as [g|] eqn:Hs; simpl; [|discriminate].
  destruct (py_max _) as [m|e]; simpl; [|discriminate].
  destruct (has_physical _ _ _); simpl; [discriminate|].
  intros H. injection H as _ <-. simpl. eauto.
Qed.

(** What [_add_point_sensor] leaves behind: on success the sensor is
    registered under the name and the session holds a model; otherwise only
    the session may have changed. *)
Lemma add_point_sensor_in_session_outcome
    (name : string) (c : list F) (tags : list Z) (rows : list (list F))
    (tissue : string) (s : state) :
  match _add_point_sensor name c tags rows tissue s with
  | (Ok _, s') =>
      exists (p : PointSensor) (g' : gmsh_model),
        ps_tissue p = tissue /\ ps_coords p = c
        /\ s' = set_sensors (<[name := p]> (sensors s))
                  (set_session (Some g') s)
  | (Raise _, s') => s' = set_session (session s') s
  end.
Proof.
  unfold _add_point_sensor, bind, lift.
  destruct (cdist c 3 rows) as [dist|e]; [|now destruct s].
  destruct (np_argmin dist) as [i|e]; [|now destruct s].
  destruct (index tags i) as [node_tag|e]; [|now destruct s].
  destruct (index rows i) as [mesh_coords|e]; [|now destruct s].
  pose proof (in_session_add_point_sensor_on_node name node_tag mesh_coords s)
    as Hin.
  destruct (_add_point_sensor_on_node name node_tag mesh_coords s)
    as [[eg|e] s1] eqn:Hrun; simpl in Hin; [|exact Hin].
  destruct (add_point_sensor_on_node_session _ _ _ _ _ _ Hrun) as [g1 Hg1].
  exists (mk_PointSensor tissue c mesh_coords (mk_Group 0 [fst eg] (snd eg))
                         node_tag), g1.
  split; [reflexivity|]. split; [reflexivity|].
  unfold modify. simpl. rewrite Hin. simpl. rewrite Hg1. reflexivity.
Qed.

Lemma same_model_session (s : state) (x : option gmsh_model) :
  same_model s (set_session x s).
Proof. repeat split. Qed.

Lemma same_model_opened (s : state) (file : gmsh_model) (x : option gmsh_model) :
  same_model s (set_session x (opened file s)).
Proof. repeat split. Qed.

(** X1. What [add_point_sensor] may touch. When it succeeds, the gmsh
    session is closed, the mesh file has been opened and written once, the
    tissues are untouched and the registry differs by the one sensor of that
    name, on the given tissue and at the coordinates times [1e-3]. When it
    raises, at whatever step, the tissues, the image, the mesh parameters
    and the sensors of the other names are as they were. The sensor is
    registered before the mesh is written and the model saved, so of the
    sensor of that name and of the mesh file nothing is said for a call
    that raises. *)
Theorem X1_add_point_sensor_frame
    (name : string) (coords : list F) (tissue : string) (dim : Z) (s : state) :
  match add_point_sensor name coords tissue dim s with
  | (Ok _, s') =>
      session s' = None
      /\ tissues s' = tissues s
      /\ (exists p : PointSensor,
            sensors s' = <[name := p]> (sensors s)
            /\ ps_tissue p = tissue
            /\ ps_coords p = map (fun c => fmul milli c) coords)
      /\ (exists g', mesh_file s' = Some g')
      /\ trace s' = trace s ++ [EvInitialize; EvOpen; EvWrite; EvFinalize; EvSave]
  | (Raise _, s') =>
      tissues s' = tissues s
      /\ (forall n, n <> name -> sensors s' !! n = sensors s !! n)
      /\ nii_file s' = nii_file s
      /\ mesh_params s' = mesh_params s
  end.
Proof.
  unfold add_point_sensor, bind at 1, get.
  destruct (sensors s !! name); [repeat split|].
  destruct (negb (length coords =? 3)%nat); [repeat split|].
  destruct (tissues s !! tissue); [|repeat split].
  unfold bind at 1, gmsh_initialize at 1, modify at 1.
  unfold bind at 1, gmsh_open_mesh_path, bind at 1, the_model at 1. simpl.
  unfold bind at 1, get at 1. simpl.
  destruct (mesh_file s) as [file|] eqn:Hfile; [|repeat split].
  unfold modify at 1. fold (opened file s). unfold bind at 1.
  pose proof (get_tissue_nodes_readonly tissue dim (opened file s)) as Hro.
  destruct (_get_tissue_nodes tissue dim (opened file s)) as [[nodes|e] s1];
    simpl in Hro; subst s1; [|repeat split].
  unfold bind at 1.
  pose proof (add_point_sensor_in_session_outcome name
                (map (fun c => fmul milli c) coords) (fst nodes) (snd nodes)
                tissue (opened file s)) as Hout.
  destruct (_add_point_sensor name (map (fun c => fmul milli c) coords)
              (fst nodes) (snd nodes) tissue (opened file s)) as [[u|e] s2].
  - destruct Hout as (p & g' & Hp1 & Hp2 & ->).
    unfold removeDuplicateNodes, gmsh_write_mesh_path, gmsh_finalize, save,
      put_model, modify, the_model, bind. simpl.
    split; [reflexivity|]. split; [reflexivity|]. split; [eauto|].
    split; [eauto|]. rewrite <- !app_assoc. reflexivity.
  - rewrite Hout. repeat split.
Qed.

(** The loop of [add_point_sensors]: whatever its outcome, only the session
    and the sensors of the names of the batch may have changed; when it
    succeeds, every name of the batch is registered. *)
Lemma add_point_sensors_loop_outcome (items : list (string * list F))
    (tags : list Z) (rows : list (list F)) (tissue : string) :
  forall s : state,
  let rs := _add_point_sensors_loop items tags rows tissue s in
  snd rs = set_sensors (sensors (snd rs)) (set_session (session (snd rs)) s)
  /\ (forall n, ~ In n (map fst items) ->
        sensors (snd rs) !! n = sensors s !! n)
  /\ (is_Ok (fst rs) = true ->
        (forall n, In n (map fst items) -> is_Some (sensors (snd rs) !! n))
        /\ (is_Some (session s) -> is_Some (session (snd rs)))).
Proof.
  induction items as [|[n c] items IH]; intros s; cbv zeta.
  - simpl. split; [now destruct s|]. split; [reflexivity|].
    intros _. split; [intros n []|auto].
  - simpl _add_point_sensors_loop. unfold bind.
    pose proof (add_point_sensor_in_session_outcome n c tags rows tissue s)
      as Hout.
    destruct (_add_point_sensor n c tags rows tissue s) as [[u|e] s1].
    + destruct Hout as (p & g' & _ & _ & Hs1).
      specialize (IH s1). cbv zeta in IH.
      destruct (_add_point_sensors_loop items tags rows tissue s1) as [r s2].
      simpl in IH |- *. destruct IH as (Hs2 & Hother & Hok).
      split; [|split].
      * rewrite Hs2 at 1. rewrite Hs1. reflexivity.
      * intros m Hm. rewrite Hother by tauto. rewrite Hs1. simpl.
        apply lookup_insert_ne. intros ->. tauto.
      * intros Hr. destruct (Hok Hr) as [Hin Hsess]. split.
        -- intros m [<-|Hm]; [|now apply Hin].
           destruct (in_dec string_dec n (map fst items)) as [Hn|Hn];
             [now apply Hin|].
           rewrite Hother by exact Hn. rewrite Hs1. simpl.
           rewrite lookup_insert_eq. eauto.
        -- intros _. apply Hsess. rewrite Hs1. simpl. eauto.
    + simpl. split; [|split].
      * rewrite Hout. now destruct s.
      * intros m _. now rewrite Hout.
      * discriminate.
Qed.

(** X2. [add_point_sensors] never touches the tissues, the image, the mesh
    parameters nor the sensors whose names are not in the batch, whether it
    succeeds or raises. When it succeeds, every name of the batch is
    registered, the session is closed and the mesh file has been opened and
    written once. Of the mesh file nothing is said for a call that raises:
    the mesh is written before the model is saved. *)
Theorem X2_add_point_sensors_frame
    (coords : list (string * list F)) (tissue : string) (dim : Z) (s : state) :
  match add_point_sensors coords tissue dim s with
  | (Ok _, s') =>
      tissues s' = tissues s
      /\ (forall n, ~ In n (map fst coords) -> sensors s' !! n = sensors s !! n)
      /\ (forall n, In n (map fst coords) -> is_Some (sensors s' !! n))
      /\ session s' = None
      /\ (exists g', mesh_file s' = Some g')
      /\ trace s' = trace s ++ [EvInitialize; EvOpen; EvWrite; EvFinalize; EvSave]
  | (Raise _, s') =>
      tissues s' = tissues s
      /\ (forall n, ~ In n (map fst coords) -> sensors s' !! n = sensors s !! n)
      /\ nii_file s' = nii_file s
      /\ mesh_params s' = mesh_params s
  end.
Proof.
  unfold add_point_sensors, bind at 1, get.
  destruct (tissues s !! tissue); [|repeat split; auto].
  unfold bind at 1, gmsh_initialize at 1, modify at 1.
  unfold bind at 1, gmsh_open_mesh_path, bind at 1, the_model at 1. simpl.
  unfold bind at 1, get at 1. simpl.
  destruct (mesh_file s) as [file|] eqn:Hfile; [|repeat split; simpl; auto].
  unfold modify at 1. fold (opened file s). unfold bind at 1.
  pose proof (get_tissue_nodes_readonly tissue dim (opened file s)) as Hro.
  destruct (_get_tissue_nodes tissue dim (opened file s)) as [[nodes|e] s1];
    simpl in Hro; subst s1; [|repeat split; simpl; auto].
  unfold bind at 1.
  set (items := map (fun sc : string * list F =>
                       (fst sc, map (fun x => fmul milli x) (snd sc))) coords).
  assert (Hnames : map fst items = map fst coords).
  { unfold items. rewrite map_map. reflexivity. }
  pose proof (add_point_sensors_loop_outcome items (fst nodes) (snd nodes)
                tissue (opened file s)) as Hout.
  cbv zeta in Hout. rewrite Hnames in Hout.
  destruct (_add_point_sensors_loop items (fst nodes) (snd nodes) tissue
              (opened file s)) as [[u|e] s2]; simpl in Hout;
    destruct Hout as (Hs2 & Hother & Hok).
  - destruct (Hok eq_refl) as [Hin Hsess].
    destruct Hsess as [g Hg]; [simpl; eauto|].
    unfold removeDuplicateNodes, gmsh_write_mesh_path, gmsh_finalize, save,
      put_model, modify, the_model, bind. rewrite Hg. simpl.
    split; [now rewrite Hs2|]. split; [exact Hother|].
    split; [exact Hin|]. split; [reflexivity|]. split; [eauto|].
    rewrite Hs2. simpl. rewrite <- !app_assoc. reflexivity.
  - split; [now rewrite Hs2|]. split; [exact Hother|].
    rewrite Hs2. simpl. auto.
Qed.

(** X3. A batch is not all or nothing. When the first sensor of
    [add_point_sensors] can be placed and the second has coordinates that
    are not three numbers, the call raises the error of [cdist] with the
    first sensor already in the registry, though the mesh file has not been
    written and the gmsh session is left open. *)
Theorem X3_failing_batch_keeps_earlier_sensors
    (n1 n2 : string) (c1 c2 : list F) (more : list (string * list F))
    (tissue : string) (dim : Z) (s : state) (t : Tissue) (file : gmsh_model)
    (tags : list Z) (rows : list (list F)) :
  no_nan ->
  length c1 = 3%nat ->
  length c2 <> 3%nat ->
  tissues s !! tissue = Some t ->
  mesh_file s = Some file ->
  g_groups file <> [] ->
  Forall (fun p => (0 < pg_tag p)%Z) (g_groups file) ->
  fst (_get_tissue_nodes tissue dim (opened file s)) = Ok (tags, rows) ->
  rows <> [] ->
  length tags = length rows ->
  exists (s' : state) (p : PointSensor),
    add_point_sensors ((n1, c1) :: (n2, c2) :: more) tissue dim s
    = (Raise (ValueError "XA and XB must have the same number of columns"), s')
    /\ sensors s' = <[n1 := p]> (sensors s)
    /\ ps_coords p = map (fun x => fmul milli x) c1
    /\ mesh_file s' = mesh_file s
    /\ is_Some (session s')
    /\ trace s' = trace s ++ [EvInitialize; EvOpen].
Proof.
  intros Hnn Hc1 Hc2 Ht Hfile Hne Hpos Hnodes Hrows Hlen.
  set (m1 := map (fun x => fmul milli x) c1).
  set (m2 := map (fun x => fmul milli x) c2).
  assert (Hm1 : length m1 = 3%nat) by (unfold m1; now rewrite length_map).
  assert (Hm2 : (length m2 =? 3)%nat = false).
  { apply Nat.eqb_neq. unfold m2. now rewrite length_map. }
  destruct (add_point_sensor_in_session_ok n1 m1 tags rows tissue
              (opened file s) file Hnn Hm1 Hrows Hlen eq_refl Hne Hpos)
    as (i & node_tag & node & grp & s1 & g' & Hadd & _ & _ & _ & Hs1).
  pose proof (get_tissue_nodes_readonly tissue dim (opened file s)) as Hro.
  destruct (_get_tissue_nodes tissue dim (opened file s)) as [r s0] eqn:Hg.
  simpl in Hnodes, Hro. subst r s0.
  exists s1, (mk_PointSensor tissue m1 node grp node_tag).
  split; [|subst s1; simpl; repeat split; eauto; now rewrite <- app_assoc].
  unfold add_point_sensors, bind at 1, get. rewrite Ht.
  unfold bind at 1, gmsh_initialize at 1, modify at 1.
  unfold bind at 1, gmsh_open_mesh_path, bind at 1, the_model at 1. simpl.
  unfold bind at 1, get at 1. simpl. rewrite Hfile.
  unfold modify at 1. fold (opened file s). unfold bind at 1.
  rewrite Hg. unfold bind at 1. simpl fst. simpl snd.
  fold m1 m2. unfold bind at 1. rewrite Hadd.
  unfold bind at 1. unfold _add_point_sensor at 1, bind at 1, lift at 1, cdist.
  rewrite Hm2. reflexivity.
Qed.

(** X4. [add_point_sensor] does not check that [dim] is 2 or 3 before it
    opens the mesh: with any other dimension, a new name, three coordinates
    and a known tissue, the call fails in [_get_tissue_nodes] on the unbound
    local [entities], and gmsh is left initialized with the mesh file open;
    nothing else has changed. *)
Theorem X4_add_point_sensor_other_dimension
    (name : string) (coords : list F) (tissue : string) (dim : Z)
    (s : state) (t : Tissue) (file : gmsh_model) :
  sensors s !! name = None ->
  length coords = 3%nat ->
  tissues s !! tissue = Some t ->
  mesh_file s = Some file ->
  dim <> 2%Z -> dim <> 3%Z ->
  add_point_sensor name coords tissue dim s
  = (Raise (UnboundLocalError
              "local variable 'entities' referenced before assignment"),
     opened file s).
Proof.
  intros Hfresh Hc Ht Hfile H2 H3.
  unfold add_point_sensor, bind at 1, get. rewrite Hfresh, Hc. simpl.
  rewrite Ht. unfold bind at 1, gmsh_initialize at 1, modify at 1.
  unfold bind at 1, gmsh_open_mesh_path, bind at 1, the_model at 1. simpl.
  unfold bind at 1, get at 1. simpl. rewrite Hfile.
  unfold modify at 1. fold (opened file s).
  unfold bind at 1, _get_tissue_nodes, bind at 1, tissue_entities, bind at 1,
    get at 1.
  replace (tissues (opened file s)) with (tissues s) by reflexivity.
  rewrite Ht.
  destruct (Z.eqb_spec dim 2); [contradiction|].
  destruct (Z.eqb_spec dim 3); [contradiction|]. reflexivity.
Qed.

(** *** Fields from element data *)

(** X5. The arity check of [field_from_elems] goes by the truncated
    quotient of the sizes: given a fill, it passes with [n] values per
    element and a field type exactly when there is at least one tag, the
    number of values lies from [n] times the number of tags up to, but
    excluding, [n + 1] times that number, [n] is 1 (scalar), 3 (vector) or 9
    (tensor), and the fill has [n] components. *)
Theorem X5_arity_check_by_truncated_quotient
    (elems_tags : list Z) (elems_vals fill_val fill' : list F)
    (n : nat) (ft : FieldType) :
  field_from_elems_arity elems_tags elems_vals (Some fill_val)
    = Ok (n, ft, fill')
  <-> elems_tags <> []
      /\ fill' = fill_val
      /\ length fill_val = n
      /\ (n * length elems_tags <= length elems_vals
          < (n + 1) * length elems_tags)%nat
      /\ ((n = 1%nat /\ ft = SCALAR) \/ (n = 3%nat /\ ft = VECTOR)
          \/ (n = 9%nat /\ ft = TENSOR)).
Proof.
  unfold field_from_elems_arity.
  set (a := Z.of_nat (length elems_vals)).
  set (b := Z.of_nat (length elems_tags)).
  destruct (Nat.eqb_spec (length elems_tags) 0) as [Hz|Hnz].
  { split; [discriminate|]. intros (Hne & _). destruct elems_tags; simpl in Hz;
      congruence. }
  assert (Hb : (0 < b)%Z) by (unfold b; lia).
  assert (Hne : elems_tags <> []) by (intros ->; simpl in Hnz; congruence).
  assert (Hdiv : forall q : nat,
             (a / b)%Z = Z.of_nat q
             <-> (q * length elems_tags <= length elems_vals
                  < (q + 1) * length elems_tags)%nat).
  { intros q. split.
    - intros Hq. pose proof (Z.mul_div_le a b Hb) as H1.
      pose proof (Z.mul_succ_div_gt a b Hb) as H2. rewrite Hq in H1, H2.
      unfold a, b in *. nia.
    - intros [H1 H2]. symmetry.
      apply (Zdiv_unique a b (Z.of_nat q) (a - b * Z.of_nat q)%Z);
        unfold a, b; nia. }
  unfold field_types.
  destruct (Z.eqb_spec (a / b) 1) as [H1|H1];
    [|destruct (Z.eqb_spec (a / b) 3) as [H3|H3];
      [|destruct (Z.eqb_spec (a / b) 9) as [H9|H9]]].
  - pose proof (proj1 (Hdiv 1%nat) H1) as Hq. rewrite H1.
    destruct (Z.eqb_spec (Z.of_nat (length fill_val)) 1) as [Hf|Hf]; simpl.
    + split.
      * intros H. injection H as <- <- <-. repeat split; auto; try lia.
      * intros (_ & -> & Hl & Hr & Hc).
        assert (n = 1%nat) as -> by lia.
        destruct Hc as [[_ ->]|[[? _]|[? _]]]; try discriminate. reflexivity.
    + split; [discriminate|]. intros (_ & _ & Hl & Hr & Hc).
      exfalso. apply Hf. assert (n = 1%nat) by nia. lia.
  - pose proof (proj1 (Hdiv 3%nat) H3) as Hq. rewrite H3.
    destruct (Z.eqb_spec (Z.of_nat (length fill_val)) 3) as [Hf|Hf]; simpl.
    + split.
      * intros H. injection H as <- <- <-. repeat split; auto; try lia.
      * intros (_ & -> & Hl & Hr & Hc).
        assert (n = 3%nat) as -> by nia.
        destruct Hc as [[? _]|[[_ ->]|[? _]]]; try discriminate. reflexivity.
    + split; [discriminate|]. intros (_ & _ & Hl & Hr & Hc).
      exfalso. apply Hf. assert (n = 3%nat) by nia. lia.
  - pose proof (proj1 (Hdiv 9%nat) H9) as Hq. rewrite H9.
    destruct (Z.eqb_spec (Z.of_nat (length fill_val)) 9) as [Hf|Hf]; simpl.
    + split.
      * intros H. injection H as <- <- <-. repeat split; auto; try lia.
      * intros (_ & -> & Hl & Hr & Hc).
        assert (n = 9%nat) as -> by nia.
        destruct Hc as [[? _]|[[? _]|[_ ->]]]; try discriminate. reflexivity.
    + split; [discriminate|]. intros (_ & _ & Hl & Hr & Hc).
      exfalso. apply Hf. assert (n = 9%nat) by nia. lia.
  - split; [discriminate|]. intros (_ & _ & _ & Hr & Hc).
    pose proof (proj2 (Hdiv n) Hr) as Hq.
    exfalso. destruct Hc as [[-> _]|[[-> _]|[-> _]]];
      [apply H1|apply H3|apply H9]; exact Hq.
Qed.

Lemma in_session_get_tissue_vol_elems (tissue : string) :
  in_session (_get_tissue_vol_elems tissue).
Proof. apply in_session_readonly, readonly_get_tissue_elems. Qed.

Lemma in_session_fill_empty_field_elems (tissue : string) (elems_tags : list Z)
    (elems_vals : list F) (n_vals : nat) (fill_val : list F) :
  in_session (_fill_empty_field_elems tissue elems_tags elems_vals n_vals fill_val).
Proof.
  unfold _fill_empty_field_elems.
  in_session_step; [apply in_session_get_tissue_vol_elems|].
  destruct (np_any _); repeat in_session_step.
Qed.

Lemma in_session_view_add (name : string) : in_session (view_add name).
Proof. unfold view_add. repeat in_session_step. Qed.

Lemma in_session_view_addModelData (tag : Z) (tags : list Z)
    (rows : list (list F)) :
  in_session (view_addModelData tag tags rows).
Proof.
  unfold view_addModelData. in_session_step; [in_session_step|].
  destruct (negb _); repeat in_session_step.
Qed.

Lemma in_session_add_field_view (name tissue : string) (elems_tags : list Z)
    (elems_vals : list F) (n_vals : nat) :
  in_session (_add_field_view name tissue elems_tags elems_vals n_vals).
Proof.
  unfold _add_field_view.
  in_session_step; [in_session_step|].
  in_session_step; [apply in_session_view_add|].
  in_session_step; [in_session_step|].
  in_session_step; [apply in_session_view_addModelData|].
  in_session_step.
Qed.

Lemma add_field_view_session (name tissue : string) (elems_tags : list Z)
    (elems_vals : list F) (n_vals : nat) (s s' : state) (view : Z) :
  _add_field_view name tissue elems_tags elems_vals n_vals s = (Ok view, s') ->
  is_Some (session s').
Proof.
  unfold _add_field_view, view_add, view_addModelData, put_model, modify,
    the_model, bind, ret, lift, raise.
  destruct (session s) as [g|] eqn:Hs; simpl; [|discriminate].
  rewrite Hs. simpl.
  destruct (reshape_rows n_vals elems_vals) as [rows|e]; simpl; [|discriminate].
  destruct (negb _); simpl; [discriminate|].
  intros H. injection H as _ <-. simpl. eauto.
Qed.

(** The outcome of [field_from_elems], for the methods that end with it. *)
Lemma field_from_elems_outcome
    (name tissue : string) (elems_tags : list Z) (elems_vals : list F)
    (fill_val : option (list F)) (formula : string) (s : state) :
  match field_from_elems name tissue elems_tags elems_vals fill_val formula s with
  | (Ok _, s') =>
      exists (t : Tissue) (field_type : FieldType) (view : Z),
        tissues s !! tissue = Some t
        /\ fields t !! name = None
        /\ tissues s'
           = <[tissue := set_field name (mk_Field field_type view formula) t]>
               (tissues s)
        /\ sensors s' = sensors s
        /\ session s' = None
        /\ is_Some (mesh_file s')
        /\ trace s' = trace s ++ [EvInitialize; EvOpen; EvViewWrite;
                                  EvFinalize; EvSave]
  | (Raise _, s') =>
      sensors s' = sensors s
      /\ (forall t', t' <> tissue -> tissues s' !! t' = tissues s !! t')
      /\ nii_file s' = nii_file s
      /\ mesh_params s' = mesh_params s
  end.
Proof.
  unfold field_from_elems, bind at 1, get.
  destruct (tissues s !! tissue) as [t|] eqn:Ht; [|repeat split].
  destruct (fields t !! name) eqn:Hname; [repeat split|].
  unfold bind at 1, lift at 1.
  destruct (field_from_elems_arity elems_tags elems_vals fill_val)
    as [[[n_vals field_type] fill]|e]; [|repeat split].
  unfold bind at 1, gmsh_initialize at 1, modify at 1.
  unfold bind at 1, gmsh_open_mesh_path, bind at 1, the_model at 1. simpl.
  unfold bind at 1, get at 1. simpl.
  destruct (mesh_file s) as [file|] eqn:Hfile; [|repeat split].
  unfold modify at 1. fold (opened file s). unfold bind at 1.
  pose proof (in_session_fill_empty_field_elems tissue elems_tags elems_vals
                n_vals fill (opened file s)) as H1.
  destruct (_fill_empty_field_elems tissue elems_tags elems_vals n_vals fill
              (opened file s)) as [[filled|e] s1]; simpl in H1;
    [|rewrite H1; repeat split].
  unfold bind at 1.
  pose proof (in_session_add_field_view name tissue (fst filled) (snd filled)
                n_vals s1) as H2.
  destruct (_add_field_view name tissue (fst filled) (snd filled) n_vals s1)
    as [[view|e] s2] eqn:Hview; simpl in H2;
    [|rewrite H2, H1; repeat split].
  destruct (add_field_view_session _ _ _ _ _ _ _ _ Hview) as [g2 Hg2].
  assert (Hs2 : s2 = set_session (Some g2) (opened file s)).
  { rewrite H2, H1, Hg2. reflexivity. }
  clear H1 H2 Hview Hg2. subst s2.
  unfold view_write_mesh_path, gmsh_finalize, save, modify, the_model, get,
    bind. simpl. rewrite Ht. simpl.
  exists t, field_type, view.
  repeat split; eauto. rewrite <- !app_assoc. reflexivity.
Qed.

(** X6. What [field_from_elems] may touch. A call that fails its validation
    (unknown tissue, name already taken by a field of the tissue, values or
    fill of the wrong arity) raises with nothing changed at all. When the
    call succeeds, the tissue existed and had no field of that name, the
    registry differs by that one field of that tissue (with the given
    formula), the sensors are untouched, the session is closed and the mesh
    file has been opened once and has had one view written to it. When it
    raises, at whatever step, the sensors, the other tissues, the image and
    the mesh parameters are as they were. The view is written and the field
    registered before the model is saved, so of the fields of that tissue
    and of the mesh file nothing is said for a call that raises. *)
Theorem X6_field_from_elems_frame
    (name tissue : string) (elems_tags : list Z) (elems_vals : list F)
    (fill_val : option (list F)) (formula : string) (s : state) :
  (tissues s !! tissue = None
   \/ (exists t : Tissue,
         tissues s !! tissue = Some t /\ is_Some (fields t !! name))
   \/ is_Ok (field_from_elems_arity elems_tags elems_vals fill_val) = false ->
   exists e : exn,
     field_from_elems name tissue elems_tags elems_vals fill_val formula s
     = (Raise e, s))
  /\ match field_from_elems name tissue elems_tags elems_vals fill_val
                            formula s with
     | (Ok _, s') =>
         exists (t : Tissue) (field_type : FieldType) (view : Z),
           tissues s !! tissue = Some t
           /\ fields t !! name = None
           /\ tissues s'
              = <[tissue := set_field name (mk_Field field_type view formula) t]>
                  (tissues s)
           /\ sensors s' = sensors s
           /\ session s' = None
           /\ is_Some (mesh_file s')
           /\ trace s' = trace s ++ [EvInitialize; EvOpen; EvViewWrite;
                                     EvFinalize; EvSave]
     | (Raise _, s') =>
         sensors s' = sensors s
         /\ (forall t', t' <> tissue -> tissues s' !! t' = tissues s !! t')
         /\ nii_file s' = nii_file s
         /\ mesh_params s' = mesh_params s
     end.
Proof.
  split; [|apply field_from_elems_outcome].
  unfold field_from_elems, bind at 1, get.
  destruct (tissues s !! tissue) as [t|] eqn:Ht; [|eauto].
  destruct (fields t !! name) as [f|] eqn:Hname; [eauto|].
  unfold bind at 1, lift at 1.
  destruct (field_from_elems_arity elems_tags elems_vals fill_val)
    as [checked|e]; [|eauto].
  intros [H|[(t' & Ht' & Hf)|H]]; [discriminate| |discriminate].
  injection Ht' as <-. rewrite Hname in Hf. destruct Hf as [f Hf]. discriminate.
Qed.

(** *** Meshes from binary masks *)

Lemma paint_lookup (labels : list Z) (m : ndarray Z) (v : Z) (i : nat) :
  paint labels (data m) v !! i
  = match labels !! i with
    | Some x => Some (if nonzero_at m i then v else x)
    | None => None
    end.
Proof.
  unfold nonzero_at. generalize (data m) as mask. revert i.
  induction labels as [|x labels IH]; intros [|i] [|b mask]; simpl;
    try reflexivity.
  - now destruct (b =? 0)%Z.
  - now destruct (labels !! i).
  - apply IH.
Qed.

Lemma paint_length (labels mask : list Z) (v : Z) :
  length (paint labels mask v) = length labels.
Proof.
  revert mask. induction labels as [|x labels IH]; intros [|b mask]; simpl;
    try reflexivity. now rewrite IH.
Qed.

Lemma paint_all_length (ms : list (ndarray Z)) :
  forall (l : Z) (labels : list Z),
  length (paint_all l labels ms) = length labels.
Proof.
  induction ms as [|m ms IH]; intros l labels; simpl; [reflexivity|].
  now rewrite IH, paint_length.
Qed.

(** The loop of [mesh_from_masks], voxel by voxel: a voxel keeps its value
    when no mask covers it, and otherwise takes the number of the last mask
    that covers it. *)
Lemma paint_all_lookup (ms : list (ndarray Z)) :
  forall (l : Z) (labels : list Z) (i : nat) (v : Z),
  paint_all l labels ms !! i = Some v ->
  (labels !! i = Some v /\ forall m, In m ms -> nonzero_at m i = false)
  \/ exists (k : nat) (m : ndarray Z),
       ms !! k = Some m /\ nonzero_at m i = true
       /\ v = (l + Z.of_nat k + 1)%Z
       /\ forall (k' : nat) (m' : ndarray Z),
            (k < k')%nat -> ms !! k' = Some m' -> nonzero_at m' i = false.
Proof.
  induction ms as [|m ms IH]; intros l labels i v H; simpl in H.
  - left. split; [exact H|]. intros m [].
  - destruct (IH _ _ _ _ H) as [[Hv Hnone]|(k & m1 & Hk & Hnz & -> & Hlater)].
    + rewrite paint_lookup in Hv.
      destruct (labels !! i) as [x|] eqn:Hx; [|discriminate].
      destruct (nonzero_at m i) eqn:Hm; injection Hv as <-.
      * right. exists 0%nat, m. split; [reflexivity|]. split; [exact Hm|].
        split; [lia|]. intros [|k'] m' Hlt Hk'; [lia|].
        apply Hnone. simpl in Hk'.
        apply list_elem_of_In, list_elem_of_lookup. eauto.
      * left. split; [reflexivity|]. intros m' [<-|Hin]; auto.
    + right. exists (S k), m1. split; [exact Hk|]. split; [exact Hnz|].
      split; [lia|]. intros [|k'] m' Hlt Hk'; [lia|].
      apply (Hlater k' m'); [lia|exact Hk'].
Qed.

Lemma check_mask_shapes_same (ms : list (ndarray Z)) :
  forall sh0 : list nat,
  check_mask_shapes (Some sh0) ms = Ok tt ->
  Forall (fun m => shape m = sh0) ms.
Proof.
  induction ms as [|m ms IH]; intros sh0 H; [constructor|].
  simpl in H. case_bool_decide as Hsh; simpl in H; [|discriminate].
  constructor; [exact Hsh|]. rewrite <- Hsh. now apply IH.
Qed.

Lemma labels_of_masks_inv (ms : list (ndarray Z)) (labels : ndarray Z) :
  labels_of_masks ms = Ok labels ->
  exists (m0 : ndarray Z) (ms' : list (ndarray Z)),
    ms = m0 :: ms'
    /\ Forall (fun m => shape m = shape m0) ms
    /\ labels = mk_ndarray (shape m0)
                  (paint_all 0 (data (np_zeros (shape m0))) ms).
Proof.
  unfold labels_of_masks. destruct ms as [|m0 ms']; [discriminate|].
  simpl. intros H.
  destruct (check_mask_shapes (Some (shape m0)) ms') as [[]|e] eqn:Hc;
    simpl in H; [|discriminate].
  injection H as <-. exists m0, ms'. split; [reflexivity|].
  split; [|reflexivity]. constructor; [reflexivity|].
  now apply check_mask_shapes_same.
Qed.

Lemma labels_of_masks_lookup (ms : list (ndarray Z)) (labels : ndarray Z)
    (i : nat) (v : Z) :
  labels_of_masks ms = Ok labels ->
  data labels !! i = Some v ->
  (v = 0%Z /\ forall m, In m ms -> nonzero_at m i = false)
  \/ exists (k : nat) (m : ndarray Z),
       ms !! k = Some m /\ nonzero_at m i = true /\ v = (Z.of_nat k + 1)%Z
       /\ forall (k' : nat) (m' : ndarray Z),
            (k < k')%nat -> ms !! k' = Some m' -> nonzero_at m' i = false.
Proof.
  intros H Hv. destruct (labels_of_masks_inv _ _ H) as (m0 & ms' & _ & _ & ->).
  simpl in Hv.
  destruct (paint_all_lookup _ _ _ _ _ Hv)
    as [[Hz Hnone]|(k & m & Hk & Hnz & -> & Hlater)].
  - left. split; [|exact Hnone].
    apply list_elem_of_lookup_2, list_elem_of_In, repeat_spec in Hz. exact Hz.
  - right. exists k, m. auto.
Qed.

Lemma labels_of_masks_well_formed (ms : list (ndarray Z)) (labels : ndarray Z) :
  labels_of_masks ms = Ok labels -> well_formed labels.
Proof.
  intros H. destruct (labels_of_masks_inv _ _ H) as (m0 & ms' & _ & _ & ->).
  unfold well_formed. simpl. now rewrite paint_all_length, repeat_length.
Qed.

(** X7. The labels [mesh_from_masks] builds: they have the shape of every
    mask and one value per voxel; a voxel that no mask covers is labelled 0,
    and a voxel covered by several masks takes the 1-based position of the
    last of them in the mapping, the earlier ones being overwritten. *)
Theorem X7_voxel_takes_last_covering_mask
    (ms : list (ndarray Z)) (labels : ndarray Z) :
  labels_of_masks ms = Ok labels ->
  well_formed labels
  /\ (forall m, In m ms -> shape m = shape labels)
  /\ (forall (i : nat) (v : Z), data labels !! i = Some v ->
        (v = 0%Z /\ forall m, In m ms -> nonzero_at m i = false)
        \/ exists (k : nat) (m : ndarray Z),
             ms !! k = Some m /\ nonzero_at m i = true
             /\ v = (Z.of_nat k + 1)%Z
             /\ forall (k' : nat) (m' : ndarray Z),
                  (k < k')%nat -> ms !! k' = Some m' ->
                  nonzero_at m' i = false).
Proof.
  intros H. split; [now apply labels_of_masks_well_formed in H|]. split.
  - destruct (labels_of_masks_inv _ _ H) as (m0 & ms' & _ & Hsh & ->).
    intros m Hm. simpl. rewrite List.Forall_forall in Hsh. now apply Hsh.
  - intros i v Hv. now apply (labels_of_masks_lookup ms labels).
Qed.

Lemma existsb_nonzero_at (m : ndarray Z) :
  existsb (fun b => negb (b =? 0)%Z) (data m) = true
  <-> exists i, nonzero_at m i = true.
Proof.
  rewrite existsb_exists. unfold nonzero_at. split.
  - intros (b & Hin & Hb).
    apply list_elem_of_In, list_elem_of_lookup in Hin. destruct Hin as [i Hi].
    exists i. now rewrite Hi.
  - intros [i Hi]. destruct (data m !! i) as [b|] eqn:E; [|discriminate].
    exists b. split; [|exact Hi].
    apply list_elem_of_In, list_elem_of_lookup. eauto.
Qed.

Lemma astype_uint8_small (a : ndarray Z) :
  (forall v, In v (data a) -> (0 <= v <= 255)%Z) -> astype_uint8 a = a.
Proof.
  intros H. destruct a as [sh d]. unfold astype_uint8. simpl in *. f_equal.
  rewrite <- (map_id d) at 2. apply map_ext_in. intros v Hv.
  apply Z.mod_small. specialize (H v Hv). lia.
Qed.

(** X8. [mesh_from_masks] hands [mesh_from_array] as many names as masks,
    and the largest label is the position of the last mask that covers a
    voxel. So, for at most 255 masks of one 3-D shape that is not empty, the
    validation of [mesh_from_array] passes when the last mask of the mapping
    covers some voxel, and fails on the count of names when the last mask is
    empty, whatever the other masks are. *)
Theorem X8_empty_last_mask_fails_the_count
    (front : list (string * ndarray Z)) (t : string) (m : ndarray Z)
    (affine : matrix) (labels : ndarray Z) :
  labels_of_masks (map snd (front ++ [(t, m)])) = Ok labels ->
  ndim labels = 3%nat ->
  data labels <> [] ->
  affine_shape_ok affine = true ->
  (length (front ++ [(t, m)]) <= 255)%nat ->
  well_formed m ->
  mesh_from_array_checks labels affine (map fst (front ++ [(t, m)]))
  = (if existsb (fun b => negb (b =? 0)%Z) (data m)
     then Ok (labels, to_meters affine)
     else Raise count_mismatch)
  /\ (existsb (fun b => negb (b =? 0)%Z) (data m) = false ->
      forall (kwargs : Kw) (s : state),
        mesh_from_masks (front ++ [(t, m)]) affine kwargs s
        = (Raise count_mismatch, s)).
Proof.
  intros Hlab Hd Hne Ha H255 Hwf.
  set (masks := front ++ [(t, m)]) in *.
  set (n := length front).
  assert (Hlen : length masks = S n).
  { unfold masks. rewrite length_app. simpl. lia. }
  assert (Hlast : map snd masks !! n = Some m).
  { unfold masks. rewrite List.map_app. simpl.
    rewrite lookup_app_r; rewrite length_map; [|lia].
    fold n. now rewrite Nat.sub_diag. }
  assert (Hbound : forall k x, map snd masks !! k = Some x -> (k <= n)%nat).
  { intros k x Hk. apply lookup_lt_Some in Hk.
    rewrite length_map, Hlen in Hk. lia. }
  assert (Hrange : forall v, In v (data labels) -> (0 <= v <= Z.of_nat (S n))%Z).
  { intros v Hv. apply list_elem_of_In, list_elem_of_lookup in Hv.
    destruct Hv as [i Hi].
    destruct (labels_of_masks_lookup _ _ _ _ Hlab Hi)
      as [[-> _]|(k & x & Hk & _ & -> & _)]; [lia|].
    apply Hbound in Hk. lia. }
  assert (Hcast : astype_uint8 labels = labels).
  { apply astype_uint8_small. intros v Hv. specialize (Hrange v Hv). lia. }
  assert (Hsize : length (data m) = length (data labels)).
  { destruct (labels_of_masks_inv _ _ Hlab) as (m0 & ms' & _ & Hsh & ->).
    simpl. rewrite paint_all_length. unfold np_zeros. simpl.
    rewrite repeat_length. rewrite Hwf. f_equal.
    rewrite List.Forall_forall in Hsh. apply Hsh.
    apply list_elem_of_In, list_elem_of_lookup. eauto. }
  destruct (data labels) as [|x l] eqn:Hdata; [congruence|].
  assert (Hmax : np_max (astype_uint8 labels) = Ok (fold_left Z.max l x)).
  { rewrite Hcast. unfold np_max. now rewrite Hdata. }
  assert (Hin : In (fold_left Z.max l x) (x :: l)).
  { destruct (fold_max_in l x) as [->|H]; [now left|now right]. }
  assert (Hchecks :
    mesh_from_array_checks labels affine (map fst masks)
    = if existsb (fun b => negb (b =? 0)%Z) (data m)
      then Ok (labels, to_meters affine)
      else Raise count_mismatch).
  { rewrite (checks_by_max _ _ _ _ Hd Ha Hmax), length_map, Hlen, Hcast.
    destruct (existsb _ (data m)) eqn:Hex.
    - apply existsb_nonzero_at in Hex. destruct Hex as [i Hi].
      assert (Hlt : (i < length (x :: l))%nat).
      { rewrite <- Hsize. unfold nonzero_at in Hi.
        destruct (data m !! i) eqn:E; [|discriminate].
        now apply lookup_lt_Some in E. }
      apply lookup_lt_is_Some in Hlt. destruct Hlt as [v Hv].
      assert (Hvn : v = Z.of_nat (S n)).
      { rewrite <- Hdata in Hv.
        destruct (labels_of_masks_lookup _ _ _ _ Hlab Hv)
          as [[_ Hnone]|(k & y & Hk & _ & -> & Hlater)].
        - rewrite Hnone in Hi; [discriminate|].
          apply list_elem_of_In, list_elem_of_lookup. eauto.
        - pose proof (Hbound _ _ Hk) as Hkn.
          destruct (Nat.eq_dec k n) as [->|Hneq]; [lia|].
          rewrite (Hlater n m) in Hi; [discriminate|lia|exact Hlast]. }
      subst v.
      assert (Hge : (Z.of_nat (S n) <= fold_left Z.max l x)%Z).
      { apply list_elem_of_lookup_2, list_elem_of_In in Hv.
        destruct Hv as [<-|Hv]; [apply fold_max_ge_init|now apply fold_max_ge]. }
      pose proof (Hrange _ Hin) as Hle.
      replace (fold_left Z.max l x) with (Z.of_nat (S n)) by lia.
      now rewrite Z.eqb_refl.
    - assert (Hnone : forall i, nonzero_at m i = false).
      { intros i. destruct (nonzero_at m i) eqn:E; [|reflexivity].
        assert (existsb (fun b => negb (b =? 0)%Z) (data m) = true)
          by (apply existsb_nonzero_at; eauto).
        congruence. }
      apply list_elem_of_In, list_elem_of_lookup in Hin.
      destruct Hin as [i Hi]. rewrite <- Hdata in Hi.
      destruct (Z.eqb_spec (Z.of_nat (S n)) (fold_left Z.max l x)) as [E|];
        [exfalso|reflexivity].
      destruct (labels_of_masks_lookup _ _ _ _ Hlab Hi)
        as [[Hz _]|(k & y & Hk & Hnz & Hv & _)]; [lia|].
      assert (k = n) as -> by lia.
      rewrite Hlast in Hk. injection Hk as <-.
      rewrite Hnone in Hnz. discriminate. }
  split; [exact Hchecks|].
  intros Hex kwargs s. unfold mesh_from_masks, bind, lift.
  fold masks. rewrite Hlab. unfold mesh_from_array, bind, lift.
  rewrite Hchecks, Hex. reflexivity.
Qed.

(** *** The whole of [mesh_from_array] *)

(** X9. [mesh_from_array] end to end. When its validation fails, the error
    is that of the validation and nothing has changed. When it passes, the
    call returns: the image file holds the cropped labels and the mesh
    parameters are the keyword arguments; the mesh file holds the generated
    and transformed mesh, with its entities, nodes, elements and views as
    they are, followed by two physical groups per name, one of dimension 2
    and one of dimension 3 on the entity of the 1-based position, both named
    after the tissue, the other names being those of the transformed mesh;
    the temporary directory is gone and the session closed. Nothing is
    cleared on the way: the sensors and the tissues of other names stay in
    the registry of the new mesh. *)
Theorem X9_mesh_from_array_keeps_other_entries
    (labels : ndarray Z) (affine : matrix) (ts : list string) (kwargs : Kw)
    (s : state) :
  match mesh_from_array_checks labels affine ts with
  | Raise e => mesh_from_array labels affine ts kwargs s = (Raise e, s)
  | Ok la =>
      let g0 := plugin_transform (snd (crop_img la))
                  (generate_from_array (astype_uint16 (fst (crop_img la)))
                                       kwargs) in
      exists (s' : state) (g' : gmsh_model) (new : list PhysicalGroup),
        mesh_from_array labels affine ts kwargs s = (Ok tt, s')
        /\ nii_file s' = Some (crop_img la)
        /\ mesh_params s' = Some kwargs
        /\ mesh_file s' = Some g'
        /\ g_entities g' = g_entities g0
        /\ g_nodes g' = g_nodes g0
        /\ g_elems g' = g_elems g0
        /\ g_points g' = g_points g0
        /\ g_views g' = g_views g0
        /\ g_groups g' = g_groups g0 ++ new
        /\ length new = (2 * length ts)%nat
        /\ (forall (l : nat) (t : string), ts !! l = Some t ->
              exists sg vg : Z,
                In (mk_PhysicalGroup 2 sg [(Z.of_nat l + 1)%Z]) new
                /\ In (mk_PhysicalGroup 3 vg [(Z.of_nat l + 1)%Z]) new
                /\ g_names g' !! (2%Z, sg) = Some t
                /\ g_names g' !! (3%Z, vg) = Some t)
        /\ (forall key : Z * Z,
              ~ In key (map (fun p => (pg_dim p, pg_tag p)) new) ->
              g_names g' !! key = g_names g0 !! key)
        /\ tmp_mesh s' = None /\ tmp_msh s' = None /\ session s' = None
        /\ sensors s' = sensors s
        /\ (forall t, ~ In t ts -> tissues s' !! t = tissues s !! t)
        /\ (forall t, In t ts -> is_Some (tissues s' !! t))
        /\ trace s' = trace s ++ [EvNiiWrite; EvInitialize; EvMerge; EvFinalize;
                                  EvInitialize; EvMerge; EvWrite; EvFinalize;
                                  EvSave]
  end.
Proof.
  destruct (mesh_from_array_checks labels affine ts) as [la|e] eqn:Hchecks.
  - cbv zeta.
    destruct (mesh_from_array_run labels affine ts kwargs s la Hchecks)
      as (s' & g' & Hrun & Hnii & Hpar & Hfile & Hg' & Hgroups & Hother
          & Hnames & Htmp1 & Htmp2 & Hsess & Hsens & Hframe & Hreg & Htrace).
    set (g0 := plugin_transform (snd (crop_img la))
                 (generate_from_array (astype_uint16 (fst (crop_img la)))
                                      kwargs)) in *.
    set (m2 := max_physical_tag 2 (g_groups g0)) in *.
    set (m3 := max_physical_tag 3 (g_groups g0)) in *.
    exists s', g', (tagged_groups 0 m2 m3 ts).
    split; [exact Hrun|]. split; [exact Hnii|]. split; [exact Hpar|].
    split; [exact Hfile|].
    split; [rewrite Hg'; reflexivity|]. split; [rewrite Hg'; reflexivity|].
    split; [rewrite Hg'; reflexivity|]. split; [rewrite Hg'; reflexivity|].
    split; [rewrite Hg'; reflexivity|].
    split; [exact Hgroups|]. split; [apply tagged_groups_length|].
    split.
    { intros l t Hl.
      destruct (tagged_groups_In ts 0%Z m2 m3 l t Hl) as [H2 H3].
      destruct (Hnames l t Hl) as [Hn2 Hn3].
      exists (m2 + Z.of_nat l + 1)%Z, (m3 + Z.of_nat l + 1)%Z. auto. }
    split; [exact Hother|].
    repeat (split; [assumption|]). exact Htrace.
  - unfold mesh_from_array, bind, lift. now rewrite Hchecks.
Qed.

(** *** A field that is added *)

Lemma chunks_concat {A : Type} (n fuel : nat) :
  forall (l : list A) (rows : list (list A)),
  chunks fuel n l = Ok rows -> concat rows = l.
Proof.
  induction fuel as [|fuel IH]; intros l rows H.
  - destruct l; simpl in H; [|discriminate]. now injection H as <-.
  - destruct l as [|x l]; [simpl in H; now injection H as <-|].
    rewrite chunks_cons in H.
    destruct (length (x :: l) <? n)%nat; [discriminate|].
    destruct (chunks fuel n (skipn n (x :: l))) as [rows'|e] eqn:E;
      simpl in H; [|discriminate].
    injection H as <-. simpl concat. rewrite (IH _ _ E).
    apply firstn_skipn.
Qed.

Lemma reshape_rows_concat {A : Type} (n : nat) (l : list A)
    (rows : list (list A)) :
  reshape_rows n l = Ok rows -> concat rows = l.
Proof.
  destruct n as [|n]; simpl.
  - destruct l; intros H; [|discriminate]. now injection H as <-.
  - apply chunks_concat.
Qed.

Lemma concat_rows_length {A : Type} (n : nat) (rows : list (list A)) :
  Forall (fun r => length r = n) rows ->
  length (concat rows) = (n * length rows)%nat.
Proof.
  induction 1 as [|r rows Hr _ IH]; simpl; [lia|].
  rewrite length_app, IH, Hr. lia.
Qed.

Lemma max_view_tag_ge (vs : list View) (v : View) :
  In v vs -> (view_tag v <= max_view_tag vs)%Z.
Proof.
  intros H. unfold max_view_tag. apply fold_max_ge. now apply in_map.
Qed.

(** The view that [gmsh.view.write] finds under a fresh tag is the one
    [_add_field_view] has just filled. *)
Lemma written_view (vs : list View) (nm : string) (tags : list Z)
    (rows : list (list F)) :
  let tag := (max_view_tag vs + 1)%Z in
  List.filter (fun v => (view_tag v =? tag)%Z)
              (map (set_view_data tag tags rows) (vs ++ [mk_View tag nm [] []]))
  = [mk_View tag nm tags rows].
Proof.
  intros tag.
  assert (Hold : forall l, (forall v, In v l -> (view_tag v < tag)%Z) ->
            List.filter (fun v => (view_tag v =? tag)%Z)
                        (map (set_view_data tag tags rows) l) = []).
  { induction l as [|v l IH]; intros Hl; [reflexivity|].
    simpl. unfold set_view_data at 1.
    assert (Hv : (view_tag v =? tag)%Z = false).
    { apply Z.eqb_neq. specialize (Hl v (or_introl eq_refl)). lia. }
    rewrite Hv, Hv. apply IH. intros w Hw. apply Hl. now right. }
  rewrite List.map_app, List.filter_app, Hold.
  - simpl. unfold set_view_data. simpl. rewrite !Z.eqb_refl. simpl.
    now rewrite ?Z.eqb_refl.
  - intros v Hv. apply max_view_tag_ge in Hv. unfold tag. lia.
Qed.

Lemma add_field_view_inv (name tissue : string) (elems_tags : list Z)
    (elems_vals : list F) (n_vals : nat) (s s' : state) (view : Z) :
  _add_field_view name tissue elems_tags elems_vals n_vals s = (Ok view, s') ->
  exists (g : gmsh_model) (rows : list (list F)),
    session s = Some g
    /\ reshape_rows n_vals elems_vals = Ok rows
    /\ length elems_tags = length rows
    /\ view = (max_view_tag (g_views g) + 1)%Z
    /\ s' = set_session
              (Some (set_views
                       (map (set_view_data view elems_tags rows)
                            (g_views g ++ [mk_View view (tissue ++ "_" ++ name)
                                                   [] []]))
                       g))
              s.
Proof.
  unfold _add_field_view, view_add, view_addModelData, put_model, modify,
    the_model, bind, ret, lift, raise.
  destruct (session s) as [g|] eqn:Hs; simpl; [|discriminate].
  rewrite Hs. simpl.
  destruct (reshape_rows n_vals elems_vals) as [rows|e]; simpl; [|discriminate].
  destruct (Nat.eqb_spec (length elems_tags) (length rows)) as [Hlen|];
    simpl; [|discriminate].
  intros H. injection H as <- <-. exists g, rows.
  repeat (split; [reflexivity || assumption|]). reflexivity.
Qed.

Lemma field_from_elems_arity_inv (elems_tags : list Z) (elems_vals : list F)
    (fill_val : option (list F)) (n : nat) (field_type : FieldType)
    (fill : list F) :
  field_from_elems_arity elems_tags elems_vals fill_val
  = Ok (n, field_type, fill) ->
  elems_tags <> [] /\ fill_val = Some fill /\ length fill = n
  /\ (n = 1 \/ n = 3 \/ n = 9)%nat
  /\ field_types (Z.of_nat n) = Some field_type.
Proof.
  unfold field_from_elems_arity.
  destruct elems_tags as [|t0 tags]; [discriminate|].
  destruct (length (t0 :: tags) =? 0)%nat; [discriminate|].
  set (q := (Z.of_nat (length elems_vals) / Z.of_nat (length (t0 :: tags)))%Z).
  destruct (field_types q) as [ft|] eqn:Hft; [|discriminate].
  destruct fill_val as [fv|]; [|discriminate].
  destruct (Z.eqb_spec (Z.of_nat (length fv)) q) as [Hq|]; simpl; [|discriminate].
  intros H. injection H as <- <- <-.
  split; [discriminate|]. split; [reflexivity|].
  rewrite <- Hq, Nat2Z.id. split; [reflexivity|]. rewrite Hq.
  split; [|exact Hft].
  unfold field_types in Hft. rewrite <- Hq in *.
  destruct (Z.eqb_spec (Z.of_nat (length fv)) 1); [left; lia|].
  destruct (Z.eqb_spec (Z.of_nat (length fv)) 3); [right; left; lia|].
  destruct (Z.eqb_spec (Z.of_nat (length fv)) 9); [right; right; lia|].
  discriminate.
Qed.

Lemma np_any_isin_invert (all tags : list Z) :
  np_any (isin_invert all tags) = false -> forall e, In e all -> In e tags.
Proof.
  unfold np_any, isin_invert. intros H e He.
  destruct (existsb (Z.eqb e) tags) eqn:E.
  - apply existsb_exists in E. destruct E as (x & Hx & Heq).
    apply Z.eqb_eq in Heq. now subst.
  - exfalso. apply Bool.not_true_iff_false in H. apply H.
    apply existsb_exists. exists (negb (existsb (Z.eqb e) tags)).
    split; [|now rewrite E]. apply in_map_iff. eauto.
Qed.

(** X10. What a successful [field_from_elems] has done. The values number
    exactly [n] per tag, [n] being 1, 3 or 9 and the length of the fill:
    sizes that only pass the validation by the truncated quotient fail
    later, in the reshape or in gmsh. Every volume element of the tissue is
    among the tags, so nothing was filled. The mesh file gains one view,
    numbered one past the largest view tag of the file and named
    [tissue_name], that holds the tags and the values in rows of [n]; and
    the tissue gains the field of the type of [n] that points to that view. *)
Theorem X10_field_from_elems_success_is_exact
    (name tissue : string) (elems_tags : list Z) (elems_vals : list F)
    (fill_val : option (list F)) (formula : string) (s s' : state) :
  field_from_elems name tissue elems_tags elems_vals fill_val formula s
  = (Ok tt, s') ->
  exists (file : gmsh_model) (t : Tissue) (n : nat) (field_type : FieldType)
         (fill : list F) (rows : list (list F)) (all : list Z),
    mesh_file s = Some file
    /\ tissues s !! tissue = Some t
    /\ fill_val = Some fill /\ length fill = n
    /\ (n = 1 \/ n = 3 \/ n = 9)%nat
    /\ field_types (Z.of_nat n) = Some field_type
    /\ elems_tags <> []
    /\ length elems_vals = (n * length elems_tags)%nat
    /\ concat rows = elems_vals
    /\ Forall (fun r => length r = n) rows
    /\ fst (_get_tissue_vol_elems tissue (opened file s)) = Ok all
    /\ (forall e, In e all -> In e elems_tags)
    /\ mesh_file s'
       = Some (set_views
                 (g_views file
                  ++ [mk_View (max_view_tag (g_views file) + 1)
                              (tissue ++ "_" ++ name) elems_tags rows])
                 file)
    /\ tissues s'
       = <[tissue := set_field name
                       (mk_Field field_type (max_view_tag (g_views file) + 1)
                                 formula) t]>
           (tissues s).
Proof.
  unfold field_from_elems, bind at 1, get.
  destruct (tissues s !! tissue) as [t|] eqn:Ht; [|discriminate].
  destruct (fields t !! name) eqn:Hname; [discriminate|].
  unfold bind at 1, lift at 1.
  destruct (field_from_elems_arity elems_tags elems_vals fill_val)
    as [[[n field_type] fill]|e] eqn:Harity; [|discriminate].
  destruct (field_from_elems_arity_inv _ _ _ _ _ _ Harity)
    as (Hne & Hfill & Hlen & Hn & Hft).
  unfold bind at 1, gmsh_initialize at 1, modify at 1.
  unfold bind at 1, gmsh_open_mesh_path, bind at 1, the_model at 1. simpl.
  unfold bind at 1, get at 1. simpl.
  destruct (mesh_file s) as [file|] eqn:Hfile; [|discriminate].
  unfold modify at 1. fold (opened file s). unfold bind at 1.
  unfold _fill_empty_field_elems at 1, bind at 1.
  pose proof (readonly_get_tissue_elems tissue 3 (opened file s)) as Hro.
  change (_get_tissue_elems tissue 3) with (_get_tissue_vol_elems tissue) in Hro.
  destruct (_get_tissue_vol_elems tissue (opened file s)) as [[all|e] s1] eqn:Hall;
    simpl in Hro; subst s1; [|discriminate].
  destruct (np_any (isin_invert all elems_tags)) eqn:Hany; [discriminate|].
  unfold ret at 1. simpl fst. simpl snd. unfold bind at 1.
  destruct (_add_field_view name tissue elems_tags elems_vals n (opened file s))
    as [[view|e] s2] eqn:Hview; [|discriminate].
  destruct (add_field_view_inv _ _ _ _ _ _ _ _ Hview)
    as (g & rows & Hg & Hrows & Hcount & -> & ->).
  injection Hg as <-.
  unfold view_write_mesh_path, gmsh_finalize, save, modify, the_model, get,
    bind. simpl. rewrite Ht, Hfile. simpl.
  intros H. injection H as <-. simpl.
  pose proof (reshape_rows_length _ _ _ Hrows) as Hall_n.
  pose proof (reshape_rows_concat _ _ _ Hrows) as Hcat.
  exists file, t, n, field_type, fill, rows, all.
  repeat (split; [reflexivity || assumption|]).
  split; [rewrite <- Hcat, (concat_rows_length n rows Hall_n); lia|].
  split; [exact Hcat|]. split; [exact Hall_n|].
  split; [now rewrite Hall|].
  split; [now apply np_any_isin_invert|].
  split; [|reflexivity].
  rewrite written_view. reflexivity.
Qed.

(** *** The coordinates of the cells of a grid *)

Lemma map_lookup {A B : Type} (g : A -> B) (l : list A) (i : nat) :
  map g l !! i = option_map g (l !! i).
Proof.
  revert i. induction l as [|x l IH]; intros [|i]; simpl; auto.
Qed.

Lemma flat_map_length_const {A B : Type} (f : A -> list B) (m : nat)
    (l : list A) :
  (forall x, length (f x) = m) -> length (flat_map f l) = (length l * m)%nat.
Proof.
  intros Hf. induction l as [|x l IH]; simpl; [reflexivity|].
  now rewrite length_app, Hf, IH.
Qed.

Lemma flat_map_lookup {A B : Type} (f : A -> list B) (m : nat) (l : list A) :
  (forall x, length (f x) = m) ->
  forall (i j : nat) (x : A),
  l !! i = Some x -> (j < m)%nat -> flat_map f l !! (i * m + j)%nat = f x !! j.
Proof.
  intros Hf. induction l as [|y l IH]; intros i j x Hi Hj; [discriminate|].
  simpl flat_map. destruct i as [|i]; simpl in Hi.
  - injection Hi as ->. simpl. apply lookup_app_l. now rewrite Hf.
  - rewrite lookup_app_r; rewrite Hf; [|simpl; lia].
    replace (S i * m + j - m)%nat with (i * m + j)%nat by (simpl; lia).
    now apply IH.
Qed.

(** X11. [_get_field_coords] lists the cells of the first three axes in C
    order: there are [n0 * n1 * n2] rows, and the row at the flat index
    [(i * n1 + j) * n2 + k] is the affine image of the cell [(i, j, k)]. A
    fourth axis of the shape plays no part. *)
Theorem X11_field_coords_in_C_order
    (n0 n1 n2 : nat) (rest : list nat) (affine : matrix) (i j k : nat) :
  (i < n0)%nat -> (j < n1)%nat -> (k < n2)%nat ->
  length (_get_field_coords (n0 :: n1 :: n2 :: rest) affine)
  = (n0 * n1 * n2)%nat
  /\ _get_field_coords (n0 :: n1 :: n2 :: rest) affine
       !! ((i * n1 + j) * n2 + k)%nat
     = Some (apply_affine affine [Z.of_nat i; Z.of_nat j; Z.of_nat k]).
Proof.
  intros Hi Hj Hk. unfold _get_field_coords. simpl firstn. unfold unravel_all.
  set (cell := fun i j k : nat => [Z.of_nat i; Z.of_nat j; Z.of_nat k]).
  set (row := fun i j : nat => map (cell i j) (seq 0 n2)).
  set (plane := fun i : nat => flat_map (row i) (seq 0 n1)).
  change (length (map (apply_affine affine) (flat_map plane (seq 0 n0)))
          = (n0 * n1 * n2)%nat
          /\ map (apply_affine affine) (flat_map plane (seq 0 n0))
               !! ((i * n1 + j) * n2 + k)%nat
             = Some (apply_affine affine (cell i j k))).
  assert (Hrow : forall a b, length (row a b) = n2).
  { intros a b. unfold row. now rewrite length_map, length_seq. }
  assert (Hplane : forall a, length (plane a) = (n1 * n2)%nat).
  { intros a. unfold plane.
    now rewrite (flat_map_length_const _ n2 _ (Hrow a)), length_seq. }
  split.
  - rewrite length_map, (flat_map_length_const _ _ _ Hplane), length_seq. lia.
  - rewrite map_lookup.
    replace ((i * n1 + j) * n2 + k)%nat with (i * (n1 * n2) + (j * n2 + k))%nat
      by lia.
    rewrite (flat_map_lookup plane (n1 * n2) (seq 0 n0) Hplane i _ i);
      [|now apply lookup_seq_lt|nia].
    unfold plane.
    rewrite (flat_map_lookup (row i) n2 (seq 0 n1) (Hrow i) j k j);
      [|now apply lookup_seq_lt|exact Hk].
    unfold row. rewrite map_lookup, lookup_seq_lt by exact Hk. reflexivity.
Qed.

(** X12. The grid [_interp_field] hands to the interpolator is made of the
    distinct coordinates of each axis in ascending order, so its
    construction never fails on the order of the points: it fails exactly
    when the number of distinct coordinates along an axis differs from the
    extent of the field along that axis, and [_interp_field] then raises
    before gmsh is touched. *)
Theorem X12_grid_fits_by_distinct_counts
    (tissue : string) (coords : list (list F)) (field : ndarray F)
    (method : interp_method) (fill_val : list F) (n0 n1 n2 : nat)
    (rest : list nat) :
  shape field = n0 :: n1 :: n2 :: rest ->
  let x := np_unique (column 0 coords) in
  let y := np_unique (column 1 coords) in
  let z := np_unique (column 2 coords) in
  let fits := ((length x =? n0) && (length y =? n1) && (length z =? n2))%nat in
  new_RegularGridInterpolator [x; y; z] field method false (Some fill_val)
  = (if fits
     then Ok (mk_RegularGridInterpolator [x; y; z] field method false
                                         (Some fill_val))
     else Raise (ValueError
            "There are a different number of points and values in dimension"))
  /\ (fits = false ->
      forall s : state,
        _interp_field tissue coords field method fill_val s
        = (Raise (ValueError
             "There are a different number of points and values in dimension"),
           s)).
Proof.
  intros Hshape x y z fits.
  assert (Hnew :
    new_RegularGridInterpolator [x; y; z] field method false (Some fill_val)
    = if fits
      then Ok (mk_RegularGridInterpolator [x; y; z] field method false
                                          (Some fill_val))
      else Raise (ValueError
             "There are a different number of points and values in dimension")).
  { unfold new_RegularGridInterpolator, ndim, fits. rewrite Hshape. simpl.
    unfold x at 1, y at 1, z at 1. rewrite !np_unique_ascending. simpl.
    destruct (length x =? n0)%nat; [|reflexivity]. simpl.
    destruct (length y =? n1)%nat; [|reflexivity]. simpl.
    destruct (length z =? n2)%nat; reflexivity. }
  split; [exact Hnew|].
  intros Hfits s. unfold _interp_field. fold x y z.
  rewrite Hnew, Hfits. reflexivity.
Qed.

(** *** Fields from a voxel grid, end to end *)

(** What [_interp_field] leaves behind: when it returns, the mesh file was
    opened and the session closed again; in any case the model is as it
    was. *)
Lemma interp_field_outcome (tissue : string) (coords : list (list F))
    (field : ndarray F) (method : interp_method) (fill_val : list F)
    (s : state) :
  match _interp_field tissue coords field method fill_val s with
  | (Ok _, s1) =>
      exists file : gmsh_model,
        mesh_file s = Some file
        /\ s1 = set_session None (log EvFinalize (opened file s))
  | (Raise _, s1) => same_model s s1
  end.
Proof.
  unfold _interp_field, bind at 1, lift at 1.
  destruct (new_RegularGridInterpolator _ _ _ _ _) as [interp|e];
    [|repeat split].
  unfold bind at 1, gmsh_initialize at 1, modify at 1.
  unfold bind at 1, gmsh_open_mesh_path, bind at 1, the_model at 1. simpl.
  unfold bind at 1, get at 1. simpl.
  destruct (mesh_file s) as [file|] eqn:Hfile; [|repeat split; simpl; auto].
  unfold modify at 1. fold (opened file s). unfold bind at 1.
  pose proof (readonly_get_tissue_elems tissue 3 (opened file s)) as H1.
  change (_get_tissue_elems tissue 3) with (_get_tissue_vol_elems tissue) in H1.
  destruct (_get_tissue_vol_elems tissue (opened file s)) as [[tags|e] s1];
    simpl in H1; subst s1; [|repeat split; simpl; auto].
  unfold bind at 1.
  pose proof (readonly_get_tissue_elems_coords tissue 3 (opened file s)) as H2.
  change (_get_tissue_elems_coords tissue 3)
    with (_get_tissue_vol_elems_coords tissue) in H2.
  destruct (_get_tissue_vol_elems_coords tissue (opened file s))
    as [[bary|e] s1]; simpl in H2; subst s1; [|repeat split; simpl; auto].
  unfold gmsh_finalize, the_model, modify, bind, lift, ret. simpl.
  destruct (rgi_call interp bary) as [vals|e]; simpl.
  - exists file. split; reflexivity.
  - repeat split; simpl; auto.
Qed.

(** X13. What [field_from_array] may touch. A field that is not 3-D or 4-D
    with 1, 3 or 9 values per cell, an affine of another shape than (3,4) or
    (4,4) or an unknown tissue raise with nothing changed at all. When the
    call succeeds, the tissue had no field of that name, the registry
    differs by that one field of that tissue, the sensors are untouched,
    the mesh file was opened twice, to read the elements and to add the
    view, and had one view written to it, and the session is closed. When
    it raises, at whatever step, the sensors, the other tissues, the image
    and the mesh parameters are as they were. *)
Theorem X13_field_from_array_frame
    (name : string) (field : ndarray F) (affine : matrix) (tissue : string)
    (fill_val : list F) (formula : string) (nearest_flag : bool) (s : state) :
  (negb ((ndim field =? 3)%nat || (ndim field =? 4)%nat) = true
   \/ (ndim field =? 4)%nat
      && negb (existsb (Nat.eqb (List.last (shape field) 0%nat)) [1; 3; 9]%nat)
      = true
   \/ affine_shape_ok affine = false
   \/ tissues s !! tissue = None ->
   exists e : exn,
     field_from_array name field affine tissue fill_val formula nearest_flag s
     = (Raise e, s))
  /\ match field_from_array name field affine tissue fill_val formula
                            nearest_flag s with
     | (Ok _, s') =>
         exists (t : Tissue) (field_type : FieldType) (view : Z),
           tissues s !! tissue = Some t
           /\ fields t !! name = None
           /\ tissues s'
              = <[tissue := set_field name (mk_Field field_type view formula) t]>
                  (tissues s)
           /\ sensors s' = sensors s
           /\ session s' = None
           /\ is_Some (mesh_file s')
           /\ trace s' = trace s ++ [EvInitialize; EvOpen; EvFinalize;
                                     EvInitialize; EvOpen; EvViewWrite;
                                     EvFinalize; EvSave]
     | (Raise _, s') =>
         sensors s' = sensors s
         /\ (forall t', t' <> tissue -> tissues s' !! t' = tissues s !! t')
         /\ nii_file s' = nii_file s
         /\ mesh_params s' = mesh_params s
     end.
Proof.
  unfold field_from_array.
  destruct (negb _) eqn:Hdim; [split; [eauto|repeat split]|].
  destruct (_ && _) eqn:Hlast; [split; [eauto|repeat split]|].
  destruct (negb (affine_shape_ok affine)) eqn:Haff;
    [split; [eauto|repeat split]|].
  apply negb_false_iff in Haff.
  unfold bind at 1, bind at 2, get.
  destruct (tissues s !! tissue) as [t0|] eqn:Ht0;
    [|split; [eauto|repeat split]].
  split; [intros [H|[H|[H|H]]]; congruence|].
  unfold bind at 1.
  pose proof (interp_field_outcome tissue
                (_get_field_coords (shape field) (to_meters affine)) field
                (if nearest_flag then nearest else linear) fill_val s) as H1.
  destruct (_interp_field tissue _ field _ fill_val s) as [[interp|e] s1].
  - destruct H1 as (file & Hfile & Hs1).
    pose proof (field_from_elems_outcome name tissue (fst interp)
                  (concat (snd interp)) (Some fill_val) formula s1) as H2.
    destruct (field_from_elems name tissue (fst interp) (concat (snd interp))
                (Some fill_val) formula s1) as [[u|e] s2].
    + destruct H2 as (t & ft & view & Ht & Hname & Hreg & Hsens & Hsess
                      & Hmesh & Htrace).
      subst s1. simpl in *. exists t, ft, view.
      split; [congruence|]. repeat (split; [assumption|]).
      rewrite Htrace, <- !app_assoc. reflexivity.
    + subst s1. simpl in H2. exact H2.
  - destruct H1 as (H1 & H2 & H3 & H4 & _). repeat split; auto.
    intros t' _. now rewrite H1.
Qed.

End Coverage.

(** ** The further properties on the example data *)

(** X3 on the head model: the batch of [Cz], placed, and [Pz], given two
    coordinates only. *)
Lemma X3_witness :
  exists (s' : state),
    add_point_sensors [("Cz", [1000; 0; 0]%Q); ("Pz", [1; 2]%Q)] "scalp" 2 head
    = (Raise (ValueError "XA and XB must have the same number of columns"), s')
    /\ is_Some (sensors s' !! "Cz")
    /\ mesh_file s' = mesh_file head.
Proof.
  destruct (X3_failing_batch_keeps_earlier_sensors
              (fl := QFloat) (bk := QBackend)
              "Cz" "Pz" [1000; 0; 0]%Q [1; 2]%Q [] "scalp" 2 head scalp head_mesh
              [10; 11; 12]%Z [[6; 0; 0]; [2; 0; 0]; [4; 0; 0]]%Q)
    as (s' & p & Hrun & Hsens & _ & Hfile & _).
  - exact Q_no_nan.
  - reflexivity.
  - simpl. lia.
  - vm_compute. reflexivity.
  - reflexivity.
  - discriminate.
  - repeat constructor.
  - vm_compute. reflexivity.
  - discriminate.
  - reflexivity.
  - exists s'. split; [exact Hrun|]. split; [|exact Hfile].
    rewrite Hsens, lookup_insert_eq. eauto.
Defined.

(** X4 on the head model, for a sensor asked on dimension 1. *)
Lemma X4_witness :
  add_point_sensor "Cz" [1000; 0; 0]%Q "scalp" 1 head
  = (Raise (UnboundLocalError
              "local variable 'entities' referenced before assignment"),
     opened head_mesh head).
Proof.
  apply (X4_add_point_sensor_other_dimension
           (fl := QFloat) (bk := QBackend)
           "Cz" [1000; 0; 0]%Q "scalp" 1 head scalp head_mesh).
  - vm_compute. reflexivity.
  - reflexivity.
  - vm_compute. reflexivity.
  - reflexivity.
  - discriminate.
  - discriminate.
Defined.

(** X7 on two masks: the second voxel, covered by [skin] and by [skull], is
    labelled 2. *)
Lemma X7_witness :
  labels_of_masks [skin_mask; skull_mask]
  = Ok (mk_ndarray [1; 1; 3]%nat [1; 2; 0]%Z)
  /\ ((2 = 0 /\ forall m, In m [skin_mask; skull_mask] -> nonzero_at m 1 = false)
      \/ exists (k : nat) (m : ndarray Z),
           [skin_mask; skull_mask] !! k = Some m /\ nonzero_at m 1 = true
           /\ 2 = Z.of_nat k + 1
           /\ forall (k' : nat) (m' : ndarray Z),
                (k < k')%nat -> [skin_mask; skull_mask] !! k' = Some m' ->
                nonzero_at m' 1 = false)%Z.
Proof.
  destruct (X7_voxel_takes_last_covering_mask
              [skin_mask; skull_mask]
              (mk_ndarray [1; 1; 3]%nat [1; 2; 0]%Z) eq_refl)
    as (_ & _ & Hvox).
  split; [reflexivity|]. apply (Hvox 1%nat 2%Z). reflexivity.
Defined.

(** X8 on two masks, the second of which is empty: the call fails on the
    count of names. *)
Lemma X8_witness :
  mesh_from_masks [("skin", skin_mask); ("skull", empty_mask)] identity4 tt head
  = (Raise count_mismatch, head).
Proof.
  destruct (X8_empty_last_mask_fails_the_count
              (fl := QFloat) (bk := QBackend)
              [("skin", skin_mask)] "skull" empty_mask identity4
              (mk_ndarray [1; 1; 3]%nat [1; 1; 0]%Z)) as [_ H].
  - reflexivity.
  - reflexivity.
  - discriminate.
  - reflexivity.
  - simpl. lia.
  - reflexivity.
  - apply (H eq_refl tt head).
Defined.

(** X10 on the head model: a scalar field on the three tetrahedra of the
    scalp. *)
Lemma X10_witness :
  exists (s' : state) (n : nat),
    field_from_elems "sigma" "scalp" [100; 101; 102]%Z [1; 2; 3]%Q
                     (Some [0]%Q) "1" head
    = (Ok tt, s')
    /\ length [1; 2; 3]%Q = (n * length [100; 101; 102]%Z)%nat.
Proof.
  assert (Hrun :
    field_from_elems "sigma" "scalp" [100; 101; 102]%Z [1; 2; 3]%Q
                     (Some [0]%Q) "1" head
    = (Ok tt, snd (field_from_elems "sigma" "scalp" [100; 101; 102]%Z
                                    [1; 2; 3]%Q (Some [0]%Q) "1" head))).
  { vm_compute. reflexivity. }
  destruct (X10_field_from_elems_success_is_exact
              (fl := QFloat) (bk := QBackend) _ _ _ _ _ _ _ _ Hrun)
    as (file & t & n & field_type & fill & rows & all & _ & _ & _ & _ & _ & _
        & _ & Hsize & _).
  eexists _, n. split; [exact Hrun|exact Hsize].
Defined.

(** X11 on a grid of 1 x 2 x 3 cells: the last row is the image of the cell
    (0, 1, 2). *)
Lemma X11_witness :
  _get_field_coords [1; 2; 3]%nat identity4 !! 5%nat
  = Some (apply_affine identity4 [0; 1; 2]%Z).
Proof.
  apply (proj2 (X11_field_coords_in_C_order
                  (fl := QFloat) 1 2 3 [] identity4 0 1 2
                  ltac:(lia) ltac:(lia) ltac:(lia))).
Defined.

(** X12 on a field of one voxel and coordinates with two distinct
    abscissas. *)
Lemma X12_witness :
  _interp_field "scalp" [[0; 0; 0]; [1; 0; 0]]%Q one_voxel nearest [0]%Q head
  = (Raise (ValueError
       "There are a different number of points and values in dimension"),
     head).
Proof.
  destruct (X12_grid_fits_by_distinct_counts
              (fl := QFloat) (bk := QBackend)
              "scalp" [[0; 0; 0]; [1; 0; 0]]%Q one_voxel nearest [0]%Q
              1 1 1 [] eq_refl) as [_ H].
  apply H. vm_compute. reflexivity.
Defined.
